(** * Portfolio dashboard: indicator pipeline, currency normaliser and
      portfolio aggregation

    A shallow embedding of the numerical core of the dashboard
    ([crypto_analyzer.py], [stock_analyzer.py], [app.py], [pages/crypto.py],
    [pages/stocks.py]) and the properties of its specification.

    Number model.  The program computes on IEEE-754 doubles (numpy
    [float64] and Python [float]).  Two models of them are used.

    - An [xfloat] is a finite rational, one of the two infinities, or
      NaN.  Finite arithmetic is exact (no rounding, no overflow) and
      zero is unsigned; the special values follow IEEE-754, so a quotient
      by zero is an infinity or NaN and NaN is absorbing.  It carries the
      properties that are about which values are combined and in what
      order: totals, scaling, the order of the bands, control flow.
    - A [Binary64.double] is a double bit for bit, with round to nearest
      even, overflow and the two zeros.  It carries the properties that
      rounding, overflow or the sign of zero decide: which cells of the
      rolling indicators have a value, and the range of the RSI, both
      computed by pandas on running sums.

    pandas uses NaN as its "no value" marker, so an undefined cell of a
    column is the cell [NaN]. *)

From Stdlib Require Import QArith Lqa.
From Stdlib Require Import Floats.SpecFloat.
From stdpp Require Import base option list strings gmap.

Local Open Scope Q_scope.

(** ** Doubles *)

Inductive xfloat : Type :=
  | Fin (q : Q)
  | PInf
  | NInf
  | NaN.

Definition is_nan (x : xfloat) : bool :=
  match x with NaN => true | _ => false end.

Definition is_finite (x : xfloat) : bool :=
  match x with Fin _ => true | _ => false end.

(** Sign of a rational as a comparison: [Lt] negative, [Eq] zero, [Gt]
    positive. *)
Definition Qsign (q : Q) : comparison := q ?= 0.

Definition xneg (x : xfloat) : xfloat :=
  match x with
  | Fin q => Fin (- q)
  | PInf => NInf
  | NInf => PInf
  | NaN => NaN
  end.

Definition xadd (x y : xfloat) : xfloat :=
  match x, y with
  | NaN, _ | _, NaN => NaN
  | Fin a, Fin b => Fin (a + b)
  | PInf, NInf | NInf, PInf => NaN
  | PInf, _ | _, PInf => PInf
  | NInf, _ | _, NInf => NInf
  end.

Definition xsub (x y : xfloat) : xfloat := xadd x (xneg y).

(** An infinity with the sign [s]; NaN for the sign of zero. *)
Definition signed_inf (s : comparison) : xfloat :=
  match s with Gt => PInf | Lt => NInf | Eq => NaN end.

Definition xsign (x : xfloat) : option comparison :=
  match x with
  | Fin q => Some (Qsign q)
  | PInf => Some Gt
  | NInf => Some Lt
  | NaN => None
  end.

Definition sign_mul (s t : comparison) : comparison :=
  match s, t with
  | Eq, _ | _, Eq => Eq
  | Gt, Gt | Lt, Lt => Gt
  | _, _ => Lt
  end.

Definition xmul (x y : xfloat) : xfloat :=
  match x, y with
  | NaN, _ | _, NaN => NaN
  | Fin a, Fin b => Fin (a * b)
  | _, _ =>
      match xsign x, xsign y with
      | Some s, Some t => signed_inf (sign_mul s t)
      | _, _ => NaN
      end
  end.

(** numpy division: no exception, [x / 0] is an infinity with the sign of
    [x] (NaN for [0 / 0]), a finite value over an infinity is zero. *)
Definition xdiv (x y : xfloat) : xfloat :=
  match x, y with
  | NaN, _ | _, NaN => NaN
  | Fin a, Fin b =>
      match Qsign b with
      | Eq => signed_inf (Qsign a)
      | _ => Fin (a / b)
      end
  | Fin _, _ => Fin 0
  | _, Fin b =>
      match xsign x with
      | Some s => signed_inf (sign_mul s (match Qsign b with Eq => Gt | c => c end))
      | None => NaN
      end
  | _, _ => NaN
  end.

(** Comparisons: every comparison with NaN is false. *)
Definition xgtb (x y : xfloat) : bool :=
  match x, y with
  | NaN, _ | _, NaN => false
  | Fin a, Fin b => match a ?= b with Gt => true | _ => false end
  | PInf, PInf => false
  | PInf, _ => true
  | _, NInf => match x with NInf => false | _ => true end
  | _, _ => false
  end.

Definition xltb (x y : xfloat) : bool := xgtb y x.

Definition of_Z (z : Z) : xfloat := Fin (inject_Z z).

#[global] Arguments xadd : simpl never.
#[global] Arguments xsub : simpl never.
#[global] Arguments xmul : simpl never.
#[global] Arguments xdiv : simpl never.
#[global] Arguments xgtb : simpl never.
#[global] Arguments xltb : simpl never.
#[global] Arguments of_Z : simpl never.

(** ** Series: a column of a table *)

Abbreviation series := (list xfloat).

(** The finite values of a list of cells, or [None] when a cell is not
    finite. *)
Fixpoint finite_values (xs : series) : option (list Q) :=
  match xs with
  | [] => Some []
  | Fin q :: xs' =>
      match finite_values xs' with
      | Some qs => Some (q :: qs)
      | None => None
      end
  | _ :: _ => None
  end.

Definition Qsum (qs : list Q) : Q := fold_right Qplus 0 qs.

Definition Qmean (qs : list Q) : Q := Qsum qs / inject_Z (Z.of_nat (length qs)).

(** The trailing window of [w] cells that ends at index [i] (inclusive), or
    [None] while fewer than [w] cells are available. *)
Definition window (w : nat) (xs : series) (i : nat) : option series :=
  if decide (w ≤ S i)%nat
  then Some (take w (drop (S i - w) xs))
  else None.

(** ** The pandas operations the analyzers use *)

Module Pandas.

(** A rolling aggregate over [w] cells with pandas' default
    [min_periods = w]: the result is NaN until the window is full and
    whenever a cell of the window is missing.  pandas replaces
    infinities by NaN before it aggregates a window, so a window that
    holds a non-finite cell has no value.  In this rational model each
    window is aggregated on its own and exactly; the running sums pandas
    keeps from one window to the next, on doubles, are
    [Aggregations.Mean] and [Aggregations.Var] below. *)
Definition rolling (agg : list Q → xfloat) (w : nat) (xs : series) : series :=
  imap (λ i _,
    match window w xs i with
    | Some win =>
        match finite_values win with
        | Some qs => agg qs
        | None => NaN
        end
    | None => NaN
    end) xs.

(** [Series.rolling(window=w).mean()] *)
Definition rolling_mean (w : nat) (xs : series) : series :=
  rolling (λ qs, Fin (Qmean qs)) w xs.

(** Sample variance (pandas' default [ddof = 1]): undefined for fewer
    than two observations. *)
Definition sample_var (qs : list Q) : option Q :=
  match length qs with
  | O | 1%nat => None
  | S n =>
      let m := Qmean qs in
      Some (Qsum ((λ q, (q - m) * (q - m)) <$> qs) / inject_Z (Z.of_nat n))
  end.

(** [Series.rolling(window=w).std()], over a square-root function on the
    rationals. *)
Definition rolling_std (sqrtQ : Q → Q) (w : nat) (xs : series) : series :=
  rolling (λ qs,
    match sample_var qs with
    | Some v => Fin (sqrtQ v)
    | None => NaN
    end) w xs.

(** [Series.diff()]: no value at the first bar, then the change from the
    previous bar. *)
Definition diff (xs : series) : series :=
  match xs with
  | [] => []
  | _ :: rest => NaN :: zip_with xsub rest xs
  end.

(** [s.where(cond, other)] for a condition computed cellwise from [s]. *)
Definition where_ (cond : xfloat → bool) (other : xfloat) (xs : series) : series :=
  (λ x, if cond x then x else other) <$> xs.

(** A cell as the exponential average reads it: a finite value or
    nothing. *)
Definition observation (x : xfloat) : option Q :=
  match x with Fin q => Some q | _ => None end.

(** One step of the recursive exponential average ([adjust=False],
    [ignore_na=False]): the state is the running average (if any bar was
    observed yet) and the weight of the past; a missing bar carries the
    average and lets its weight decay. *)
Definition ewm_step (alpha : Q) (st : option Q * Q) (cur : option Q)
  : option Q * Q :=
  match st with
  | (Some avg, old_wt) =>
      let old_wt := old_wt * (1 - alpha) in
      match cur with
      | Some c => (Some ((old_wt * avg + alpha * c) / (old_wt + alpha)), 1)
      | None => (Some avg, old_wt)
      end
  | (None, old_wt) => (cur, old_wt)
  end.

Fixpoint ewm_go (alpha : Q) (st : option Q * Q) (xs : series) : series :=
  match xs with
  | [] => []
  | x :: rest =>
      let st' := ewm_step alpha st (observation x) in
      match fst st' with
      | Some avg => Fin avg
      | None => NaN
      end :: ewm_go alpha st' rest
  end.

(** [Series.ewm(span=span, adjust=False).mean()] *)
Definition ewm_mean (span : Z) (xs : series) : series :=
  ewm_go (2 / (inject_Z span + 1)) (None, 1) xs.

(** A table: a time index and named columns. *)
Record DataFrame : Type := mkDataFrame {
  index : list Z;
  columns : gmap string series
}.

(** [len(df)] *)
Definition len (df : DataFrame) : nat := length (index df).

(** [df.empty]: no rows or no columns. *)
Definition empty (df : DataFrame) : bool :=
  bool_decide (index df = []) || bool_decide (columns df = ∅).

(** [df[c] = s] *)
Definition setitem (c : string) (s : series) (df : DataFrame) : DataFrame :=
  mkDataFrame (index df) (<[c := s]> (columns df)).

(** [s.iloc[-k]] for [k >= 1] on a series of at least [k] cells. *)
Definition iloc_neg (k : nat) (s : series) : option xfloat :=
  if decide (1 ≤ k ≤ length s)%nat then s !! (length s - k)%nat else None.

End Pandas.

(** ** Exceptions *)

Inductive exn : Type :=
  | KeyError
  | TypeError
  | AttributeError
  | ZeroDivisionError
  | ValueError
  | ConnectionError
  | IntCastingNaNError
  | IndexError
  | ProphetError
  | InvalidReference.  (* not a Python exception: a location outside the store *)

Inductive exc (A : Type) : Type :=
  | Ok (a : A)
  | Raise (e : exn).
Arguments Ok {A} a.
Arguments Raise {A} e.

#[export] Instance exc_ret : MRet exc := λ A a, Ok a.
#[export] Instance exc_bind : MBind exc := λ A B k m,
  match m with
  | Ok a => k a
  | Raise e => Raise e
  end.

(** [d[k]] on a dictionary: KeyError when the key is missing. *)
Definition getitem {V} (d : gmap string V) (k : string) : exc V :=
  match d !! k with
  | Some v => Ok v
  | None => Raise KeyError
  end.

(** ** The indicator engine
    [CryptoAnalyzer.calculate_indicators] and
    [StockAnalyzer.calculate_indicators] have the same body; it is embedded
    once, for one table of [self.data]. *)

Module Indicators.
Import Pandas.

Section WithSqrt.
(** The square root of the doubles, as a function on the rationals. *)
Variable sqrtQ : Q → Q.

Definition rsi_of_rs (rs : xfloat) : xfloat :=
  xsub (of_Z 100) (xdiv (of_Z 100) (xadd (of_Z 1) rs)).

Definition rsi_gain (close : series) : series :=
  rolling_mean 14 (where_ (λ d, xgtb d (of_Z 0)) (of_Z 0) (diff close)).

Definition rsi_loss (close : series) : series :=
  rolling_mean 14 (xneg <$> where_ (λ d, xltb d (of_Z 0)) (of_Z 0) (diff close)).

(** The body of the loop, for a table that is neither [None] nor
    empty.  The table is updated in place, column by column, so an
    exception leaves the columns written before it: the result is the
    table as the call leaves it and the exception, if any. *)
Definition calculate_indicators_df (df : DataFrame) : DataFrame * option exn :=
  match columns df !! "Close" with
  | None => (df, Some KeyError)
  | Some close =>
      let ma20 := rolling_mean 20 close in
      let df := setitem "MA20" ma20 df in
      let std := rolling_std sqrtQ 20 close in
      let df := setitem "BB_upper" (zip_with xadd ma20 ((λ s, xmul s (of_Z 2)) <$> std)) df in
      let df := setitem "BB_lower" (zip_with xsub ma20 ((λ s, xmul s (of_Z 2)) <$> std)) df in
      let exp1 := ewm_mean 12 close in
      let exp2 := ewm_mean 26 close in
      let macd := zip_with xsub exp1 exp2 in
      let df := setitem "MACD" macd df in
      let signal := ewm_mean 9 macd in
      let df := setitem "Signal_Line" signal df in
      let df := setitem "MACD_histogram" (zip_with xsub macd signal) df in
      let gain := rsi_gain close in
      let loss := rsi_loss close in
      let rs := zip_with xdiv gain loss in
      let df := setitem "RSI" (rsi_of_rs <$> rs) df in
      match columns df !! "Volume" with
      | None => (df, Some KeyError)
      | Some volume =>
          (setitem "Volume_MA20" (rolling_mean 20 volume) df, None)
      end
  end.

(** The loop over [self.data] (a dictionary in insertion order): empty
    tables are skipped, an exception ends the loop. *)
Fixpoint calculate_indicators (data : list (string * DataFrame))
  : list (string * DataFrame) * option exn :=
  match data with
  | [] => ([], None)
  | (symbol, df) :: rest =>
      if empty df then
        let '(rest', e) := calculate_indicators rest in
        ((symbol, df) :: rest', e)
      else
        match calculate_indicators_df df with
        | (df', Some e) => ((symbol, df') :: rest, Some e)
        | (df', None) =>
            let '(rest', e) := calculate_indicators rest in
            ((symbol, df') :: rest', e)
        end
  end.
End WithSqrt.

(** A square root on the rationals for running the engine: the integer
    square root on thousandths. *)
Definition isqrtQ (q : Q) : Q :=
  Qmake (Z.sqrt (Qnum q * 1000000 / Zpos (Qden q))) 1000.

End Indicators.

(** ** Strings *)

(** [needle in s], the substring test. *)
Fixpoint contains (needle s : string) : bool :=
  String.prefix needle s ||
  match s with
  | EmptyString => false
  | String _ rest => contains needle rest
  end.

(** [s.endswith(suffix)] *)
Definition endswith (s suffix : string) : bool :=
  String.prefix (String.rev suffix) (String.rev s).

(** ** JSON values and the HTTP providers *)

#[warnings="-register-all"]
Inductive json : Type :=
  | JNull
  | JBool (b : bool)
  | JNum (x : xfloat)
  | JStr (s : string)
  | JArr (items : list json)
  | JObj (fields : list (string * json)).

(** The value of a key in a parsed object: the last occurrence wins. *)
Fixpoint obj_lookup (fields : list (string * json)) (k : string) : option json :=
  match fields with
  | [] => None
  | (k', v) :: rest =>
      match obj_lookup rest k with
      | Some v' => Some v'
      | None => if String.eqb k' k then Some v else None
      end
  end.

(** [data[k]] with a string key. *)
Definition subscript (data : json) (k : string) : exc json :=
  match data with
  | JObj fields =>
      match obj_lookup fields k with
      | Some v => Ok v
      | None => Raise KeyError
      end
  | _ => Raise TypeError
  end.

(** [data.get(k, dflt)] *)
Definition py_get (data : json) (k : string) (dflt : json) : exc json :=
  match data with
  | JObj fields => Ok (default dflt (obj_lookup fields k))
  | _ => Raise AttributeError
  end.

(** Python truthiness. *)
Definition truthy (v : json) : bool :=
  match v with
  | JNull => false
  | JBool b => b
  | JNum (Fin q) => negb (Qeq_bool q 0)
  | JNum _ => true
  | JStr s => negb (String.eqb s "")
  | JArr items => match items with [] => false | _ => true end
  | JObj fields => match fields with [] => false | _ => true end
  end.

(** [1 / v] in Python: a zero divisor raises. *)
Definition py_inv (v : json) : exc xfloat :=
  match v with
  | JNum (Fin q) => if Qeq_bool q 0 then Raise ZeroDivisionError else Ok (Fin (1 / q))
  | JNum NaN => Ok NaN
  | JNum _ => Ok (Fin 0)
  | JBool true => Ok (Fin 1)
  | JBool false => Raise ZeroDivisionError
  | _ => Raise TypeError
  end.

(** What [requests.get(url)] gives: an exception, or a response with its
    status code and what [response.json()] gives. *)
Inductive http_outcome : Type :=
  | HttpRaise (e : exn)
  | HttpResponse (status_code : Z) (body : exc json).

(** ** Forecasts and the environment of an analyzer *)

(** A row of a forecast: date, predicted value and its uncertainty bounds. *)
Record forecast_row : Type := mkForecastRow {
  ds : Z;
  yhat : xfloat;
  yhat_lower : xfloat;
  yhat_upper : xfloat
}.

Abbreviation Forecast := (list forecast_row).

(** The arguments of the [Prophet] constructor that differ between the two
    analyzers. *)
Record prophet_config : Type := mkProphetConfig {
  changepoint_range : option Q;
  seasonality_mode : string
}.

(** What the analyzers take from outside: the HTTP providers, the
    price-history provider ([yf.Ticker(t).history(period, interval)]), the
    clock ([time.time()]) and the forecasting library (fit on the prepared
    rows, then predict [days] periods past the last one). *)
Record env : Type := mkEnv {
  requests_get : string → http_outcome;
  history : string → string → string → exc Pandas.DataFrame;
  time : Q;
  prophet : prophet_config → list (Z * xfloat) → Z → exc Forecast
}.

(** [prophet_df.dropna()] on the rows [(ds, y)]. *)
Definition dropna (rows : list (Z * xfloat)) : list (Z * xfloat) :=
  filter (λ r, is_nan (snd r) = false) rows.

(** ** The stock analyzer ([stock_analyzer.py]) *)

Module StockAnalyzer.
Import Pandas.

(** The analyzer's fields that the embedded methods use, together with
    the store of table objects (a table is passed by reference: a
    location of the store) and the log of the URLs requested. *)
Record state : Type := mkState {
  exchange_rates : option (gmap string xfloat);
  last_rate_update : Q;
  predictions : gmap string (Forecast * nat);
  heap : list DataFrame;
  requests : list string
}.

Definition set_rates (r : option (gmap string xfloat)) (t : Q) (st : state) : state :=
  mkState r t (predictions st) (heap st) (requests st).
Definition set_predictions (p : gmap string (Forecast * nat)) (st : state) : state :=
  mkState (exchange_rates st) (last_rate_update st) p (heap st) (requests st).
Definition set_heap (h : list DataFrame) (st : state) : state :=
  mkState (exchange_rates st) (last_rate_update st) (predictions st) h (requests st).
Definition set_requests (l : list string) (st : state) : state :=
  mkState (exchange_rates st) (last_rate_update st) (predictions st) (heap st) l.

(** Computations that change the state and may raise; the state changes
    made before an exception stay. *)
Definition M (A : Type) : Type := state → state * exc A.

#[export] Instance M_ret : MRet M := λ A a st, (st, Ok a).
#[export] Instance M_bind : MBind M := λ A B k m st,
  match m st with
  | (st', Ok a) => k a st'
  | (st', Raise e) => (st', Raise e)
  end.

Definition lift {A} (r : exc A) : M A := λ st, (st, r).
Definition get : M state := λ st, (st, Ok st).
Definition modify (f : state → state) : M unit := λ st, (f st, Ok ()).

(** [try: body except Exception as e: handler(e)] *)
Definition try_except {A} (body : M A) (handler : exn → M A) : M A := λ st,
  match body st with
  | (st', Ok a) => (st', Ok a)
  | (st', Raise e) => handler e st'
  end.

Fixpoint for_each {A} (xs : list A) (body : A → M unit) : M unit :=
  match xs with
  | [] => mret ()
  | x :: rest => body x ;; for_each rest body
  end.

(** *** The store of tables *)

Definition df_read (l : nat) : M DataFrame := λ st,
  match heap st !! l with
  | Some df => (st, Ok df)
  | None => (st, Raise InvalidReference)
  end.

(** A new table object. *)
Definition df_alloc (df : DataFrame) : M nat := λ st,
  (set_heap (heap st ++ [df]) st, Ok (length (heap st))).

(** [df.copy()] *)
Definition df_copy (l : nat) : M nat :=
  df ← df_read l; df_alloc df.

(** [df[c] = s] on the object at [l]. *)
Definition df_setitem (l : nat) (c : string) (s : series) : M unit :=
  modify (λ st, set_heap (alter (setitem c s) l (heap st)) st).

(** *** Exchange rates *)

Definition primary_url : string := "https://api.exchangerate.host/latest?base=EUR&source=ecb".
Definition fallback_url : string := "https://api.frankfurter.app/latest".

Definition hardcoded_rates : gmap string xfloat :=
  {[ "USD" := Fin 0.9132; "GBP" := Fin 0.8561 ]}.

(** [requests.get(url)], logged. *)
Definition http_get (e : env) (url : string) : M (Z * exc json) := λ st,
  (set_requests (requests st ++ [url]) st,
   match requests_get e url with
   | HttpRaise ex => Raise ex
   | HttpResponse status_code body => Ok (status_code, body)
   end).

(** [{'USD': 1/data['rates']['USD'], 'GBP': 1/data['rates']['GBP']}] *)
Definition rates_of (data : json) : exc (gmap string xfloat) :=
  rates ← subscript data "rates";
  usd ← subscript rates "USD";
  usd ← py_inv usd;
  rates ← subscript data "rates";
  gbp ← subscript rates "GBP";
  gbp ← py_inv gbp;
  mret ({[ "USD" := usd; "GBP" := gbp ]} : gmap string xfloat).

(** The [try] block, in its two requests: [Some r] when a request
    returns [r] from the function, [None] when control goes on. *)
Definition primary_attempt (e : env) : M (option (gmap string xfloat)) :=
  response ← http_get e primary_url;
  if (fst response =? 200)%Z then
    data ← lift (snd response);
    success ← lift (py_get data "success" (JBool false));
    if truthy success then
      r ← lift (rates_of data); mret (Some r)
    else mret None
  else mret None.

Definition fallback_attempt (e : env) : M (option (gmap string xfloat)) :=
  response ← http_get e fallback_url;
  if (fst response =? 200)%Z then
    data ← lift (snd response);
    r ← lift (rates_of data); mret (Some r)
  else mret None.

Definition _get_exchange_rates_try (e : env) : M (option (gmap string xfloat)) :=
  returned ← primary_attempt e;
  match returned with
  | Some r => mret (Some r)
  | None => fallback_attempt e
  end.

Definition _get_exchange_rates (e : env) : M (gmap string xfloat) :=
  returned ← try_except (_get_exchange_rates_try e) (λ _, mret None);
  match returned with
  | Some r => mret r
  | None => mret hardcoded_rates
  end.

(** [not self.exchange_rates]: [None] or an empty dictionary. *)
Definition cache_unset (st : state) : bool :=
  match exchange_rates st with
  | None => true
  | Some r => bool_decide (r = ∅)
  end.

Definition cache_stale (e : env) (st : state) : bool :=
  cache_unset st ||
  match (time e - last_rate_update st) ?= 3600 with Gt => true | _ => false end.

Definition _update_exchange_rates (e : env) : M unit :=
  let current_time := time e in
  st ← get;
  if cache_stale e st then
    r ← _get_exchange_rates e;
    modify (set_rates (Some r) current_time)
  else mret ().

(** [__init__]: an empty cache, filled at once.  (The lists of symbols
    and of fetched tables are not part of this state.) *)
Definition __init__ (e : env) : state :=
  (_update_exchange_rates e (mkState None 0 ∅ [] [])).1.

(** [s.astype(int)] on a column of doubles.  pandas first refuses a
    column that holds a missing or infinite cell; every other cell goes
    through the conversion of a double to numpy's default integer, a
    64-bit one: truncation toward zero, and for a value whose truncation
    does not fit 64 bits the result of the processor's conversion
    instruction, which on x86-64 is [-2^63] (numpy raises nothing). *)
Definition Qtrunc (q : Q) : Z := Z.quot (Qnum q) (Zpos (Qden q)).

Definition int64_min : Z := - 2 ^ 63.
Definition int64_max : Z := 2 ^ 63 - 1.

Definition int64_of_double (q : Q) : Z :=
  let z := Qtrunc q in
  if ((int64_min <=? z) && (z <=? int64_max))%Z then z else int64_min.

Definition astype_int (s : series) : exc series :=
  match finite_values s with
  | Some qs => Ok (map (λ q, of_Z (int64_of_double q)) qs)
  | None => Raise IntCastingNaNError
  end.

Definition price_columns : list string := ["Open"; "High"; "Low"; "Close"].

(** [self.exchange_rates[k]] *)
Definition rate_of (st : state) (k : string) : exc xfloat :=
  match exchange_rates st with
  | Some r => getitem r k
  | None => Raise TypeError
  end.

Definition _convert_to_eur (e : env) (df : nat) (symbol : string) : M nat :=
  _update_exchange_rates e;;
  st ← get;
  rate ← lift (if endswith symbol ".L" then rate_of st "GBP" else rate_of st "USD");
  df ← df_copy df;
  for_each price_columns (λ col,
    t ← df_read df;
    match columns t !! col with
    | Some s => df_setitem df col (map (λ x, xmul x rate) s)
    | None => mret ()
    end);;
  t ← df_read df;
  match columns t !! "Volume" with
  | Some v => v ← lift (astype_int v); df_setitem df "Volume" v
  | None => mret ()
  end;;
  mret df.

Definition config : prophet_config := mkProphetConfig None "additive".

(** The [try] block of [predict_price]. *)
Definition predict_price_try (e : env) (symbol : string) (days : Z)
  : M (option Forecast) :=
  fetched ← lift (history e symbol "2y" "1d");
  historical_data ← df_alloc fetched;
  if empty fetched then mret None else
  historical_data ← _convert_to_eur e historical_data symbol;
  t ← df_read historical_data;
  if (len t <? 30)%nat then mret None else
  close ← lift (getitem (columns t) "Close");
  let prophet_df := dropna (zip (index t) close) in
  if (length prophet_df <? 30)%nat then mret None else
  forecast ← lift (prophet e config prophet_df days);
  modify (λ st, set_predictions (<[symbol := (forecast, historical_data)]> (predictions st)) st);;
  mret (Some forecast).

(** [predict_price]: the forecast, or [None]; it never raises. *)
Definition predict_price (e : env) (symbol : string) (days : Z) (st : state)
  : state * option Forecast :=
  match predict_price_try e symbol days st with
  | (st', Ok r) => (st', r)
  | (st', Raise _) => (st', None)
  end.

End StockAnalyzer.

(** ** Dictionaries in insertion order ([self.data]) *)

Definition dict_get {V} (d : list (string * V)) (k : string) : option V :=
  snd <$> List.find (λ p, String.eqb (fst p) k) d.

Fixpoint dict_set {V} (k : string) (v : V) (d : list (string * V)) : list (string * V) :=
  match d with
  | [] => [(k, v)]
  | (k', v') :: rest =>
      if String.eqb k' k then (k, v) :: rest else (k', v') :: dict_set k v rest
  end.

(** ** The crypto analyzer ([crypto_analyzer.py]) *)

Module CryptoAnalyzer.
Import Pandas.

Record state : Type := mkState {
  symbols : list string;
  data : list (string * DataFrame);
  predictions : gmap string (Forecast * DataFrame)
}.

(** The provider key [get_crypto_data] queries for a symbol. *)
Definition get_crypto_data_ticker (symbol : string) : string :=
  if negb (contains "-USD" symbol) && negb (endswith symbol "USD")
  then symbol +:+ "-USD"
  else symbol.

Definition get_crypto_data (e : env) (symbol period : string) : option DataFrame :=
  let body : exc (option DataFrame) :=
    let ticker_symbol := get_crypto_data_ticker symbol in
    let interval := if String.eqb period "1d" then "1m" else "1d" in
    df ← history e ticker_symbol period interval;
    if empty df then mret None else mret (Some df) in
  match body with
  | Ok r => r
  | Raise _ => None
  end.

(** [fetch_data]: the tables fetched replace those of [self.data], then
    the indicators are computed; an exception of [calculate_indicators]
    is not caught. *)
Definition fetch_data (sqrtQ : Q → Q) (e : env) (period : string) (self : state)
  : state * option exn :=
  let fetched :=
    fold_left (λ d symbol,
      match get_crypto_data e symbol period with
      | Some df => dict_set symbol df d
      | None => d
      end) (symbols self) (data self) in
  let '(d, ex) := Indicators.calculate_indicators sqrtQ fetched in
  (mkState (symbols self) d (predictions self), ex).

(** The provider key [predict_price] queries for a symbol. *)
Definition predict_price_ticker (symbol : string) : string :=
  if negb (contains "-USD" symbol) then symbol +:+ "-USD" else symbol.

Definition config : prophet_config := mkProphetConfig (Some 0.9) "multiplicative".

(** The [try] block of [predict_price]: the forecast with the history it
    was fitted on, or [None]. *)
Definition predict_price_try (e : env) (symbol : string) (days : Z)
  : exc (option (Forecast * DataFrame)) :=
  historical_data ← history e (predict_price_ticker symbol) "2y" "1d";
  if empty historical_data then mret None else
  if (len historical_data <? 30)%nat then mret None else
  close ← getitem (columns historical_data) "Close";
  let prophet_df := dropna (zip (index historical_data) close) in
  if (length prophet_df <? 30)%nat then mret None else
  forecast ← prophet e config prophet_df days;
  mret (Some (forecast, historical_data)).

Definition predict_price (e : env) (symbol : string) (days : Z) (self : state)
  : state * option Forecast :=
  match predict_price_try e symbol days with
  | Ok (Some (forecast, historical_data)) =>
      (mkState (symbols self) (data self)
         (<[symbol := (forecast, historical_data)]> (predictions self)),
       Some forecast)
  | Ok None | Raise _ => (self, None)
  end.

End CryptoAnalyzer.

Definition Qgtb (a b : Q) : bool :=
  match a ?= b with Gt => true | _ => false end.

(** [(value - base) / base * 100] on doubles. *)
Definition pct_change (value base : xfloat) : xfloat :=
  xmul (xdiv (xsub value base) base) (of_Z 100).

(** ** The portfolio summary of [app.py] *)

Module App.
Import Pandas.

(** An entry of [CRYPTO_COM_COINS]. *)
Record coin : Type := mkCoin {
  symbol : string;
  label : string;
  balance : Q;
  invested_eur : Q
}.

Record summary_row : Type := mkRow {
  row_symbol : string;
  row_label : string;
  row_balance : Q;
  price_eur : xfloat;
  value_eur : xfloat;
  row_invested_eur : Q;
  profit_eur : xfloat;
  profit_percentage : xfloat;
  change_24h : xfloat
}.

(** The row of a holding without usable data: the whole investment
    counts as lost. *)
Definition zero_row (c : coin) : summary_row :=
  mkRow (symbol c) (label c) (balance c) (of_Z 0) (of_Z 0) (invested_eur c)
    (Fin (- invested_eur c)) (of_Z (-100)) (of_Z 0).

(** [s.iloc[-k]] as an exception. *)
Definition iloc (s : series) (k : nat) : exc xfloat :=
  match iloc_neg k s with
  | Some x => Ok x
  | None => Raise IndexError
  end.

(** The condition of the [if]: the symbol has a table of at least two
    rows. *)
Definition has_data (data : list (string * DataFrame)) (c : coin) : option DataFrame :=
  match dict_get data (symbol c) with
  | Some df => if negb (empty df) && (2 <=? len df)%nat then Some df else None
  | None => None
  end.

(** The first branch of the [if]: the row of a priced holding. *)
Definition priced_row (eur_rate : xfloat) (c : coin) (df : DataFrame) : exc summary_row :=
  close ← getitem (columns df) "Close";
  current_price_usd ← iloc close 1;
  previous_price_usd ← iloc close 2;
  let current_price_eur := xmul current_price_usd eur_rate in
  let value_eur := xmul (Fin (balance c)) current_price_eur in
  let invested := invested_eur c in
  let profit_eur := xsub value_eur (Fin invested) in
  let profit_percentage :=
    if Qgtb invested 0 then pct_change value_eur (Fin invested) else of_Z 0 in
  let change_24h := pct_change current_price_usd previous_price_usd in
  mret (mkRow (symbol c) (label c) (balance c) current_price_eur value_eur
          invested profit_eur profit_percentage change_24h).

(** The state of the loop: [summary], [total_eur], [total_invested]. *)
Definition acc : Type := list summary_row * xfloat * Q.

(** One iteration of the loop over the holdings; [eur_rate] is the
    number [get_usd_eur_rate()] returned. *)
Definition step (eur_rate : xfloat) (data : list (string * DataFrame))
    (a : acc) (c : coin) : acc :=
  let '(summary, total_eur, total_invested) := a in
  let total_invested := total_invested + invested_eur c in
  match has_data data c with
  | Some df =>
      match priced_row eur_rate c df with
      | Ok row => (summary ++ [row], xadd total_eur (value_eur row), total_invested)
      | Raise _ => (summary ++ [zero_row c], total_eur, total_invested)
      end
  | None => (summary ++ [zero_row c], total_eur, total_invested)
  end.

Record portfolio_summary : Type := mkSummary {
  summary : list summary_row;
  total_eur : xfloat;
  total_invested : Q;
  total_profit : xfloat;
  total_profit_percentage : xfloat
}.

Definition get_portfolio_summary (eur_rate : xfloat) (coins : list coin)
    (data : list (string * DataFrame)) : portfolio_summary :=
  let '(summary, total_eur, total_invested) :=
    fold_left (step eur_rate data) coins ([], of_Z 0, 0) in
  let total_profit := xsub total_eur (Fin total_invested) in
  let total_profit_percentage :=
    if Qgtb total_invested 0 then pct_change total_eur (Fin total_invested)
    else of_Z 0 in
  mkSummary summary total_eur total_invested total_profit total_profit_percentage.

End App.

(** ** The portfolio summary of the pages ([pages/crypto.py],
    [pages/stocks.py])
    The two pages have the same [create_portfolio_summary] up to the name
    of the average-price field; it is embedded once. *)

Module Pages.
Import Pandas.

(** An entry of [MY_STOCKS], or of [CRYPTO_COM_COINS] once the average
    price is filled in. *)
Record holding : Type := mkHolding {
  symbol : string;
  label : string;
  quantity : Q;
  avg_price : Q
}.

(** [pages/crypto.py] fills in the average price when it is loaded:
    [coin['invested_eur'] / coin['quantity']] on Python numbers. *)
Definition avg_price_eur (invested_eur quantity : Q) : exc Q :=
  if Qeq_bool quantity 0 then Raise ZeroDivisionError
  else Ok (invested_eur / quantity).

Definition crypto_holding (symbol label : string) (quantity invested_eur : Q)
  : exc holding :=
  avg ← avg_price_eur invested_eur quantity;
  mret (mkHolding symbol label quantity avg).

Record portfolio_row : Type := mkRow {
  row_symbol : string;
  row_label : string;
  row_quantity : Q;
  row_avg_price : Q;
  current_price : xfloat;
  invested : Q;
  current_value : xfloat;
  change_pct : xfloat;
  profit_loss : xfloat
}.

(** The condition of the [if]: the symbol has a non-empty table. *)
Definition has_data (data : list (string * DataFrame)) (h : holding) : option DataFrame :=
  match dict_get data (symbol h) with
  | Some df => if negb (empty df) then Some df else None
  | None => None
  end.

(** [analyzer.data[symbol]['Close'].iloc[-1]] *)
Definition last_close (df : DataFrame) : exc xfloat :=
  close ← getitem (columns df) "Close";
  App.iloc close 1.

Definition priced_row (h : holding) (current_price : xfloat) : portfolio_row :=
  let invested := quantity h * avg_price h in
  let current_value := xmul (Fin (quantity h)) current_price in
  let change_pct := pct_change current_price (Fin (avg_price h)) in
  mkRow (symbol h) (label h) (quantity h) (avg_price h) current_price invested
    current_value change_pct (xsub current_value (Fin invested)).

(** The state of the loop: [portfolio_data], [total_invested],
    [total_current]. *)
Definition acc : Type := list portfolio_row * Q * xfloat.

(** The loop over the holdings; no exception is caught. *)
Fixpoint loop (data : list (string * DataFrame)) (holdings : list holding) (a : acc)
  : exc acc :=
  match holdings with
  | [] => Ok a
  | h :: rest =>
      let '(portfolio_data, total_invested, total_current) := a in
      match has_data data h with
      | Some df =>
          current_price ← last_close df;
          let row := priced_row h current_price in
          loop data rest
            (portfolio_data ++ [row],
             total_invested + invested row,
             xadd total_current (current_value row))
      | None => loop data rest a
      end
  end.

(** What the page renders. *)
Record portfolio_summary : Type := mkSummary {
  portfolio_data : list portfolio_row;
  total_invested : Q;
  total_current : xfloat;
  total_change_pct : xfloat
}.

Definition create_portfolio_summary (holdings : list holding)
    (data : list (string * DataFrame)) : exc portfolio_summary :=
  '(portfolio_data, total_invested, total_current) ← loop data holdings ([], 0, of_Z 0);
  let total_change_pct :=
    if Qgtb total_invested 0 then pct_change total_current (Fin total_invested)
    else of_Z 0 in
  mret (mkSummary portfolio_data total_invested total_current total_change_pct).

End Pages.

(** ** Vocabulary of the properties *)

(** The cell of column [c] at row [i]. *)
Definition cell (df : Pandas.DataFrame) (c : string) (i : nat) : option xfloat :=
  Pandas.columns df !! c ≫= λ s : series, s !! i.

(** A provider outcome that gives no rates.  The primary provider fails
    by an exception, a status other than 200, a body that is not JSON, a
    missing or false [success] flag, or rates that cannot be read; the
    fallback provider has no [success] flag. *)
Definition unreadable_rates (data : json) : bool :=
  match StockAnalyzer.rates_of data with Ok _ => false | Raise _ => true end.

Definition unsuccessful (data : json) : bool :=
  match py_get data "success" (JBool false) with
  | Ok flag => negb (truthy flag)
  | Raise _ => true
  end.

Definition primary_fails (o : http_outcome) : bool :=
  match o with
  | HttpRaise _ => true
  | HttpResponse status_code body =>
      negb (status_code =? 200)%Z ||
      match body with
      | Raise _ => true
      | Ok data => unsuccessful data || unreadable_rates data
      end
  end.

Definition fallback_fails (o : http_outcome) : bool :=
  match o with
  | HttpRaise _ => true
  | HttpResponse status_code body =>
      negb (status_code =? 200)%Z ||
      match body with
      | Raise _ => true
      | Ok data => unreadable_rates data
      end
  end.

(** The number of observations of a fetched history that survive the
    cleaning: the rows whose close is not missing. *)
Definition valid_observations (hist : Pandas.DataFrame) : nat :=
  match Pandas.columns hist !! "Close" with
  | Some close => length (dropna (zip (Pandas.index hist) close))
  | None => 0
  end.

(** A table whose close column has a cell for every row. *)
Definition close_ok (df : Pandas.DataFrame) : Prop :=
  ∃ close, Pandas.columns df !! "Close" = Some close ∧
           length close = Pandas.len df.

(** The price [app.py] has for a holding, in EUR: the last close of the
    symbol's table times the EUR rate, when the table has at least two
    rows (and closes). *)
Definition app_price (eur_rate : xfloat) (data : list (string * Pandas.DataFrame))
    (c : App.coin) : option xfloat :=
  df ← dict_get data (App.symbol c);
  if Pandas.empty df || (Pandas.len df <? 2)%nat then None else
  close ← Pandas.columns df !! "Close";
  if (length close <? 2)%nat then None else
  x ← last close; Some (xmul x eur_rate).

(** Quantity times current price, for the holdings that have a price. *)
Definition app_value (eur_rate : xfloat) (data : list (string * Pandas.DataFrame))
    (c : App.coin) : option xfloat :=
  xmul (Fin (App.balance c)) <$> app_price eur_rate data c.

(** The price a page has for a holding: the last close of the symbol's
    table, when the table is not empty. *)
Definition page_price (data : list (string * Pandas.DataFrame)) (h : Pages.holding)
    : option xfloat :=
  df ← dict_get data (Pages.symbol h);
  if Pandas.empty df then None else
  close ← Pandas.columns df !! "Close"; last close.

Definition page_value (data : list (string * Pandas.DataFrame)) (h : Pages.holding)
    : option xfloat :=
  xmul (Fin (Pages.quantity h)) <$> page_price data h.

(** The invested amount of a holding on a page, for the holdings that
    have a price. *)
Definition page_invested (data : list (string * Pandas.DataFrame)) (h : Pages.holding)
    : option Q :=
  (λ _, Pages.quantity h * Pages.avg_price h) <$> page_price data h.

(** The rates a provider or the hardcoded table gives have both
    currencies; a cache that was filled has them too. *)
Definition has_rates (r : gmap string xfloat) : Prop :=
  is_Some (r !! "USD") ∧ is_Some (r !! "GBP").

Definition rates_inv (st : StockAnalyzer.state) : Prop :=
  ∀ r, StockAnalyzer.exchange_rates st = Some r → r ≠ ∅ → has_rates r.

(** A volume whose integer part fits a 64-bit integer. *)
Definition fits_int64 (q : Q) : Prop :=
  (StockAnalyzer.int64_min ≤ StockAnalyzer.Qtrunc q ≤ StockAnalyzer.int64_max)%Z.

(** A volume column that [astype(int)] converts without loss of the
    integer part: every cell is finite and fits 64 bits. *)
Definition int64_volumes (v : series) : Prop :=
  ∃ qs, finite_values v = Some qs ∧ Forall fits_int64 qs.

(** What [_convert_to_eur] does to the columns of the copy, as a function
    on tables: each price column present is scaled by the rate. *)
Definition scale_column (rate : xfloat) (t : Pandas.DataFrame) (col : string)
    : Pandas.DataFrame :=
  match Pandas.columns t !! col with
  | Some s => Pandas.setitem col (map (λ x, xmul x rate) s) t
  | None => t
  end.

Definition scaled (rate : xfloat) (t : Pandas.DataFrame) : Pandas.DataFrame :=
  fold_left (scale_column rate) StockAnalyzer.price_columns t.

(** The closes did not change over the 14 bar-to-bar steps that end at
    row [i] (the first row has no step before it). *)
Definition flat_window (closes : list Q) (i : nat) : Prop :=
  ∀ j a b, (i - 13 ≤ j ≤ i)%nat → (1 ≤ j)%nat →
    closes !! j = Some a → closes !! (j - 1)%nat = Some b → a == b.

(** ** Sample inputs *)

Module Sample.
Import Pandas.

(** A table of daily bars with the given closes (and as many units of
    volume as the close). *)
Definition table (closes : list Q) : DataFrame :=
  mkDataFrame (Z.of_nat <$> seq 0 (length closes))
    {[ "Close" := Fin <$> closes; "Volume" := Fin <$> closes ]}.

(** Closes rising by one from 100: the scenario of the specification for
    25 bars. *)
Definition rising (n : nat) : list Q :=
  (λ k, inject_Z (100 + Z.of_nat k)) <$> seq 0 n.

(** Every provider is down. *)
Definition env_down : env :=
  mkEnv (λ _, HttpResponse 503 (Raise ValueError))
        (λ _ _ _, Raise ConnectionError)
        0
        (λ _ _ _, Raise ProphetError).

(** A holding bought at 5 a unit, and one received for nothing (10
    units for 0 EUR, as [pages/crypto.py] fills in its average price). *)
Definition bitcoin : Pages.holding := Pages.mkHolding "BTC" "Bitcoin" 10 5.
Definition airdrop : Pages.holding := Pages.mkHolding "AIR" "Airdrop" 10 (0 / 10).

Definition coins : list App.coin :=
  [App.mkCoin "BTC" "Bitcoin" 10 50; App.mkCoin "ETH" "Ethereum" 2 30].

(** Fetched data: two bars of BTC, one of AIR, nothing else. *)
Definition data : list (string * DataFrame) :=
  [("BTC", table [100; 110]); ("AIR", table [5])].

(** One bar whose volume is missing. *)
Definition nan_volume : DataFrame :=
  mkDataFrame [0%Z] {[ "Close" := [of_Z 10]; "Volume" := [NaN] ]}.

(** A stock analyzer before its first refresh, with one table in the
    store. *)
Definition analyzer (t : DataFrame) : StockAnalyzer.state :=
  StockAnalyzer.mkState None 0 ∅ [t] [].

(** A price-history provider that has three bars for every ticker; the
    other providers are down. *)
Definition env_short : env :=
  mkEnv (λ _, HttpResponse 503 (Raise ValueError))
        (λ _ _ _, Ok (table (rising 3)))
        0
        (λ _ _ _, Raise ProphetError).
End Sample.

(** ** Further vocabulary *)

(** The columns [calculate_indicators] writes. *)
Definition indicator_names : list string :=
  ["MA20"; "BB_upper"; "BB_lower"; "MACD"; "Signal_Line"; "MACD_histogram";
   "RSI"; "Volume_MA20"].

(** A table on which the body of [calculate_indicators] raises: it has
    rows and columns but no Close or no Volume column. *)
Definition lacks_input (df : Pandas.DataFrame) : Prop :=
  Pandas.empty df = false ∧
  (Pandas.columns df !! "Close" = None ∨ Pandas.columns df !! "Volume" = None).

(** The tables of [self.data] after the loop went over them without an
    exception. *)
Definition with_indicators (sqrtQ : Q → Q) (data : list (string * Pandas.DataFrame))
    : list (string * Pandas.DataFrame) :=
  (λ p, (p.1, if Pandas.empty p.2 then p.2
              else (Indicators.calculate_indicators_df sqrtQ p.2).1)) <$> data.

(** ** Fetching stock data ([stock_analyzer.py], continued) *)

(** [Series.ffill()]: a missing cell takes the last value before it; the
    missing cells before the first value stay missing. *)
Fixpoint ffill_from (last : xfloat) (xs : series) : series :=
  match xs with
  | [] => []
  | x :: rest =>
      let v := if is_nan x then last else x in
      v :: ffill_from v rest
  end.

Definition ffill_series (xs : series) : series := ffill_from NaN xs.

(** [df.ffill()], column by column. *)
Definition ffill (df : Pandas.DataFrame) : Pandas.DataFrame :=
  Pandas.mkDataFrame (Pandas.index df) (ffill_series <$> Pandas.columns df).

(** [col in df.columns] *)
Definition has_column (df : Pandas.DataFrame) (col : string) : bool :=
  match Pandas.columns df !! col with Some _ => true | None => false end.

Module StockFetch.
Import Pandas StockAnalyzer.

(** What [get_stock_data] takes from outside besides the environment of
    the analyzer: the wall clock ([datetime.now()], in seconds) and the
    price-history provider queried by dates
    ([yf.Ticker(t).history(start, end, interval)]). *)
Record market : Type := mkMarket {
  now : Q;
  history_range : string → Q → Q → string → exc DataFrame
}.

Definition required_columns : list string := ["Open"; "High"; "Low"; "Close"; "Volume"].

(** The query of [get_stock_data]: by dates at one-minute bars for the
    period "1d", by period otherwise, at bars that get coarser with the
    period. *)
Definition fetch_history (e : env) (m : market) (symbol period : string)
  : exc DataFrame :=
  if String.eqb period "1d" then
    let end_time := now m in
    let start_time := end_time - 86400 in
    history_range m symbol start_time end_time "1m"
  else if String.eqb period "5d" then history e symbol period "5m"
  else if String.eqb period "1mo" || String.eqb period "3mo"
  then history e symbol period "15m"
  else history e symbol period "1d".

Definition get_stock_data (e : env) (m : market) (symbol period : string)
  : option DataFrame :=
  let body : exc (option DataFrame) :=
    df ← fetch_history e m symbol period;
    if empty df then mret None else
    if negb (forallb (has_column df) required_columns) then mret None else
    close ← getitem (columns df) "Close";
    if forallb is_nan close then mret None else
    mret (Some (ffill df)) in
  match body with
  | Ok r => r
  | Raise _ => None
  end.

(** The stock analyzer with its list of symbols and its dictionary of
    fetched tables; a table is held by reference. *)
Record analyzer : Type := mkAnalyzer {
  symbols : list string;
  data : list (string * nat);
  core : state
}.

(** [StockAnalyzer(symbols)] *)
Definition new (e : env) (syms : option (list string)) : analyzer :=
  mkAnalyzer (default [] syms) [] (__init__ e).

(** One iteration of the loop of [fetch_data], with its [try]: a symbol
    without data, or whose conversion raises, is skipped. *)
Definition fetch_symbol (e : env) (m : market) (period : string)
    (a : analyzer) (symbol : string) : analyzer :=
  match get_stock_data e m symbol period with
  | Some df =>
      match (l ← df_alloc df; _convert_to_eur e l symbol) (core a) with
      | (st, Ok l) => mkAnalyzer (symbols a) (dict_set symbol l (data a)) st
      | (st, Raise _) => mkAnalyzer (symbols a) (data a) st
      end
  | None => a
  end.

(** [calculate_indicators] on tables held by reference: each table is
    rewritten in the store. *)
Fixpoint calculate_indicators (sqrtQ : Q → Q) (entries : list (string * nat))
    (h : list DataFrame) : list DataFrame * option exn :=
  match entries with
  | [] => (h, None)
  | (symbol, l) :: rest =>
      match h !! l with
      | None => (h, Some InvalidReference)
      | Some df =>
          if empty df then calculate_indicators sqrtQ rest h
          else
            match Indicators.calculate_indicators_df sqrtQ df with
            | (df', Some ex) => (<[l := df']> h, Some ex)
            | (df', None) => calculate_indicators sqrtQ rest (<[l := df']> h)
            end
      end
  end.

Definition fetch_data (sqrtQ : Q → Q) (e : env) (m : market) (period : string)
    (a : analyzer) : analyzer * option exn :=
  let a := fold_left (fetch_symbol e m period) (symbols a) a in
  let '(h, ex) := calculate_indicators sqrtQ (data a) (heap (core a)) in
  (mkAnalyzer (symbols a) (data a) (set_heap h (core a)), ex).

End StockFetch.

(** Every table the stock analyzer holds has closes and volumes. *)
Definition stored_ok (a : StockFetch.analyzer) : Prop :=
  ∀ symbol l, (symbol, l) ∈ StockFetch.data a →
    ∃ df, StockAnalyzer.heap (StockFetch.core a) !! l = Some df ∧
          is_Some (Pandas.columns df !! "Close") ∧
          is_Some (Pandas.columns df !! "Volume").

(** ** More sample inputs *)

Module Sample2.
Import Pandas.

(** One bar with an opening price and nothing else. *)
Definition no_close : DataFrame :=
  mkDataFrame [0%Z] {[ "Open" := [of_Z 1] ]}.

(** Three bars of a stock; the second has no close. *)
Definition ohlcv : DataFrame :=
  mkDataFrame [0; 1; 2]%Z
    {[ "Open" := [of_Z 10; of_Z 11; of_Z 12];
       "High" := [of_Z 12; of_Z 12; of_Z 13];
       "Low" := [of_Z 9; of_Z 10; of_Z 11];
       "Close" := [of_Z 11; NaN; of_Z 12];
       "Volume" := [of_Z 100; of_Z 200; of_Z 300] ]}.

(** A price-history provider that has these three bars for every
    ticker and period; the rate providers are down. *)
Definition env_ohlcv : env :=
  mkEnv (λ _, HttpResponse 503 (Raise ValueError))
        (λ _ _ _, Ok ohlcv)
        0
        (λ _ _ _, Raise ProphetError).

Definition market_ohlcv : StockFetch.market :=
  StockFetch.mkMarket 0 (λ _ _ _ _, Ok ohlcv).

End Sample2.

(** A forecasting library that answers with one row, and a
    price-history provider that has thirty rising bars for every
    ticker; the rate providers are down. *)
Definition sample_forecast : Forecast :=
  [mkForecastRow 30 (of_Z 130) (of_Z 120) (of_Z 140)].

Definition env_forecast : env :=
  mkEnv (λ _, HttpResponse 503 (Raise ValueError))
        (λ _ _ _, Ok (Sample.table (Sample.rising 30)))
        0
        (λ _ _ _, Ok sample_forecast).

(** A table that has what [calculate_indicators] reads, and one that in
    addition, if it has rows, has what [calculate_indicators] writes. *)
Definition has_inputs (df : Pandas.DataFrame) : Prop :=
  is_Some (Pandas.columns df !! "Close") ∧ is_Some (Pandas.columns df !! "Volume").

Definition ready (df : Pandas.DataFrame) : Prop :=
  has_inputs df ∧
  (Pandas.empty df = false →
   ∀ c, c ∈ indicator_names → is_Some (Pandas.columns df !! c)).

(** Every table the stock analyzer holds is ready for the charts. *)
Definition stored_ready (a : StockFetch.analyzer) : Prop :=
  ∀ symbol l, (symbol, l) ∈ StockFetch.data a →
    ∃ df, StockAnalyzer.heap (StockFetch.core a) !! l = Some df ∧ ready df.

(** ** Doubles, bit for bit

    The rational model above does not round, does not overflow and has
    one zero.  Where a property of the program is decided by exactly
    those things (the running sums of pandas' rolling windows), the
    program is run on IEEE-754 binary64 itself: the Standard Library's
    [spec_float] with a 53-bit mantissa and round to nearest even, which
    is what numpy's [float64] and the C doubles of pandas compute. *)

Module Binary64.

Definition prec : Z := 53.
Definition emax : Z := 1024.

Abbreviation double := spec_float.

Definition nan : double := S754_nan.
Definition fadd : double → double → double := SFadd prec emax.
Definition fsub : double → double → double := SFsub prec emax.
Definition fmul : double → double → double := SFmul prec emax.
Definition fdiv : double → double → double := SFdiv prec emax.
Definition fsqrt : double → double := SFsqrt prec emax.
Definition fneg : double → double := SFopp.
Definition feq : double → double → bool := SFeqb.
Definition flt : double → double → bool := SFltb.
Definition fgt (x y : double) : bool := SFltb y x.

(** The double nearest to [m * 2^e]; [of_int z] is the conversion of an
    integer. *)
Definition ldexp (m e : Z) : double := binary_normalize prec emax m e false.
Definition of_int (z : Z) : double := ldexp z 0.

Definition isnan (x : double) : bool :=
  match x with S754_nan => true | _ => false end.

Definition isinf (x : double) : bool :=
  match x with S754_infinity _ => true | _ => false end.

(** The sign bit; a zero has one. *)
Definition signbit (x : double) : bool :=
  match x with
  | S754_zero s | S754_infinity s | S754_finite s _ _ => s
  | S754_nan => false
  end.

End Binary64.

(** ** pandas' window kernels on doubles
    ([pandas/_libs/window/aggregations.pyx], as called by
    [Series.rolling(window=w)] and [Series.ewm(span=n, adjust=False)]) *)

Module Aggregations.
Import Binary64.

(** [values[j] for j in range(s, e)] *)
Definition slice {A} (s e : nat) (values : list A) : list A :=
  take (e - s) (drop s values).

(** The bounds of a fixed window, closed on the right:
    [start[i] = max(0, i + 1 - window)], [end[i] = i + 1]. *)
Definition get_window_bounds (num_values window_size : nat) : list (nat * nat) :=
  (λ i, ((i + 1 - window_size)%nat, (i + 1)%nat)) <$> seq 0 num_values.

(** [_prep_values]: infinities become NaN before a kernel runs. *)
Definition _prep_values (values : list double) : list double :=
  (λ v, if isinf v then nan else v) <$> values.

(** *** [roll_mean]: a running sum with Kahan compensation *)
Module Mean.

Record state : Type := mkState {
  nobs : Z;
  sum_x : double;
  neg_ct : Z;
  compensation_add : double;
  compensation_remove : double;
  num_consecutive_same_value : Z;
  prev_value : double
}.

Definition add_mean (st : state) (val : double) : state :=
  if feq val val then
    let y := fsub val (compensation_add st) in
    let t := fadd (sum_x st) y in
    mkState (nobs st + 1) t
      (if signbit val then neg_ct st + 1 else neg_ct st)
      (fsub (fsub t (sum_x st)) y)
      (compensation_remove st)
      (if feq val (prev_value st) then num_consecutive_same_value st + 1 else 1)
      val
  else st.

Definition remove_mean (st : state) (val : double) : state :=
  if feq val val then
    let y := fsub (fneg val) (compensation_remove st) in
    let t := fadd (sum_x st) y in
    mkState (nobs st - 1) t
      (if signbit val then neg_ct st - 1 else neg_ct st)
      (compensation_add st)
      (fsub (fsub t (sum_x st)) y)
      (num_consecutive_same_value st)
      (prev_value st)
  else st.

Definition calc_mean (minp : Z) (st : state) : double :=
  if ((minp <=? nobs st) && (0 <? nobs st))%Z then
    let result := fdiv (sum_x st) (of_int (nobs st)) in
    if (nobs st <=? num_consecutive_same_value st)%Z then prev_value st
    else if (neg_ct st =? 0)%Z && flt result (of_int 0) then of_int 0
    else if (neg_ct st =? nobs st)%Z && fgt result (of_int 0) then of_int 0
    else result
  else nan.

(** The state a window starts from: everything zero, the previous value
    the window's first. *)
Definition setup (values : list double) (s : nat) : state :=
  mkState 0 (of_int 0) 0 (of_int 0) (of_int 0) 0 (default nan (values !! s)).

(** The state after the window [(s, e)]: a window that does not overlap
    the one before it is summed afresh, otherwise the values that left
    are removed from the running state and the new ones added. *)
Definition window_state (values : list double)
    (before : option (nat * nat * state)) (b : nat * nat) : state :=
  let fresh := fold_left add_mean (slice b.1 b.2 values) (setup values b.1) in
  match before with
  | None => fresh
  | Some (s0, e0, st) =>
      if decide (e0 ≤ b.1)%nat then fresh
      else fold_left add_mean (slice e0 b.2 values)
             (fold_left remove_mean (slice s0 b.1 values) st)
  end.

Fixpoint loop (values : list double) (minp : Z)
    (before : option (nat * nat * state)) (bounds : list (nat * nat))
    : list double :=
  match bounds with
  | [] => []
  | b :: rest =>
      let st := window_state values before b in
      calc_mean minp st :: loop values minp (Some (b.1, b.2, st)) rest
  end.

Definition roll_mean (values : list double) (bounds : list (nat * nat)) (minp : Z)
    : list double :=
  loop values minp None bounds.

End Mean.

(** *** [roll_var]: Welford's running variance *)
Module Var.

(** [nobs] is a double in the source; it only ever holds the count of a
    window, a whole number that doubles hold exactly. *)
Record state : Type := mkState {
  nobs : Z;
  mean_x : double;
  ssqdm_x : double;
  compensation_add : double;
  compensation_remove : double;
  num_consecutive_same_value : Z;
  prev_value : double
}.

Definition add_var (st : state) (val : double) : state :=
  if feq val val then
    let nobs := (nobs st + 1)%Z in
    let prev_mean := fsub (mean_x st) (compensation_add st) in
    let y := fsub val (compensation_add st) in
    let t := fsub y (mean_x st) in
    let compensation := fsub (fadd t (mean_x st)) y in
    let delta := t in
    let mean_x :=
      if (nobs =? 0)%Z then of_int 0
      else fadd (mean_x st) (fdiv delta (of_int nobs)) in
    mkState nobs mean_x
      (fadd (ssqdm_x st) (fmul (fsub val prev_mean) (fsub val mean_x)))
      compensation
      (compensation_remove st)
      (if feq val (prev_value st) then num_consecutive_same_value st + 1 else 1)
      val
  else st.

Definition remove_var (st : state) (val : double) : state :=
  if feq val val then
    let nobs := (nobs st - 1)%Z in
    if (nobs =? 0)%Z then
      mkState nobs (of_int 0) (of_int 0)
        (compensation_add st) (compensation_remove st)
        (num_consecutive_same_value st) (prev_value st)
    else
      let prev_mean := fsub (mean_x st) (compensation_remove st) in
      let y := fsub val (compensation_remove st) in
      let t := fsub y (mean_x st) in
      let compensation := fsub (fadd t (mean_x st)) y in
      let delta := t in
      let mean_x := fsub (mean_x st) (fdiv delta (of_int nobs)) in
      mkState nobs mean_x
        (fsub (ssqdm_x st) (fmul (fsub val prev_mean) (fsub val mean_x)))
        (compensation_add st)
        compensation
        (num_consecutive_same_value st) (prev_value st)
  else st.

Definition calc_var (minp ddof : Z) (st : state) : double :=
  if ((minp <=? nobs st) && (ddof <? nobs st))%Z then
    if ((nobs st =? 1) || (nobs st <=? num_consecutive_same_value st))%Z
    then of_int 0
    else fdiv (ssqdm_x st) (fsub (of_int (nobs st)) (of_int ddof))
  else nan.

Definition setup (values : list double) (s : nat) : state :=
  mkState 0 (of_int 0) (of_int 0) (of_int 0) (of_int 0) 0
    (default nan (values !! s)).

Definition window_state (values : list double)
    (before : option (nat * nat * state)) (b : nat * nat) : state :=
  let fresh := fold_left add_var (slice b.1 b.2 values) (setup values b.1) in
  match before with
  | None => fresh
  | Some (s0, e0, st) =>
      if decide (e0 ≤ b.1)%nat then fresh
      else fold_left add_var (slice e0 b.2 values)
             (fold_left remove_var (slice s0 b.1 values) st)
  end.

Fixpoint loop (values : list double) (minp ddof : Z)
    (before : option (nat * nat * state)) (bounds : list (nat * nat))
    : list double :=
  match bounds with
  | [] => []
  | b :: rest =>
      let st := window_state values before b in
      calc_var minp ddof st :: loop values minp ddof (Some (b.1, b.2, st)) rest
  end.

Definition roll_var (values : list double) (bounds : list (nat * nat))
    (minp ddof : Z) : list double :=
  loop values (Z.max minp 1) ddof None bounds.

End Var.

(** [zsqrt]: the square root, with 0 where the argument is negative. *)
Definition zsqrt (x : double) : double :=
  if flt x (of_int 0) then of_int 0 else fsqrt x.

(** *** [ewm]: the exponential average with [adjust=False],
    [ignore_na=False], normalised, over the whole series *)
Module Ewm.

Record state : Type := mkState {
  weighted : double;
  old_wt : double;
  nobs : Z
}.

Definition step (old_wt_factor new_wt : double) (st : state) (cur : double)
    : state :=
  let is_observation := feq cur cur in
  let nobs := if is_observation then (nobs st + 1)%Z else nobs st in
  if feq (weighted st) (weighted st) then
    let old_wt := fmul (old_wt st) old_wt_factor in
    if is_observation then
      let weighted :=
        if feq (weighted st) cur then weighted st
        else fdiv (fadd (fmul old_wt (weighted st)) (fmul new_wt cur))
                  (fadd old_wt new_wt) in
      mkState weighted (of_int 1) nobs
    else mkState (weighted st) old_wt nobs
  else if is_observation then mkState cur (old_wt st) nobs
  else mkState (weighted st) (old_wt st) nobs.

Definition output (minp : Z) (st : state) : double :=
  if (minp <=? nobs st)%Z then weighted st else nan.

Fixpoint go (old_wt_factor new_wt : double) (minp : Z) (st : state)
    (vals : list double) : list double :=
  match vals with
  | [] => []
  | cur :: rest =>
      let st := step old_wt_factor new_wt st cur in
      output minp st :: go old_wt_factor new_wt minp st rest
  end.

Definition ewm (vals : list double) (minp : Z) (com : double) : list double :=
  match vals with
  | [] => []
  | first :: rest =>
      let alpha := fdiv (of_int 1) (fadd (of_int 1) com) in
      let old_wt_factor := fsub (of_int 1) alpha in
      let new_wt := alpha in
      let st := mkState first (of_int 1) (if feq first first then 1 else 0) in
      output minp st :: go old_wt_factor new_wt minp st rest
  end.

End Ewm.
End Aggregations.

(** ** The pandas operations of the analyzers, on doubles *)

Module Pandas64.
Import Binary64 Aggregations.

Abbreviation series := (list double).

(** [Series.rolling(window=w).mean()]; [min_periods] defaults to the
    window. *)
Definition rolling_mean (w : nat) (xs : series) : series :=
  Mean.roll_mean (_prep_values xs) (get_window_bounds (length xs) w) (Z.of_nat w).

(** [Series.rolling(window=w).std()], with [ddof = 1]. *)
Definition rolling_std (w : nat) (xs : series) : series :=
  zsqrt <$> Var.roll_var (_prep_values xs) (get_window_bounds (length xs) w)
              (Z.of_nat w) 1.

(** [Series.ewm(span=span, adjust=False).mean()]: the centre of mass is
    [(span - 1) / 2], the minimum number of observations 1. *)
Definition ewm_mean (span : Z) (xs : series) : series :=
  Ewm.ewm (_prep_values xs) 1 (fdiv (fsub (of_int span) (of_int 1)) (of_int 2)).

(** [Series.diff()] *)
Definition diff (xs : series) : series :=
  match xs with
  | [] => []
  | _ :: rest => nan :: zip_with fsub rest xs
  end.

(** [s.where(cond, other)] *)
Definition where_ (cond : double → bool) (other : double) (xs : series) : series :=
  (λ x, if cond x then x else other) <$> xs.

Record DataFrame : Type := mkDataFrame {
  index : list Z;
  columns : gmap string series
}.

Definition empty (df : DataFrame) : bool :=
  bool_decide (index df = []) || bool_decide (columns df = ∅).

Definition setitem (c : string) (s : series) (df : DataFrame) : DataFrame :=
  mkDataFrame (index df) (<[c := s]> (columns df)).

End Pandas64.

(** ** The indicator engine on doubles *)

Module Indicators64.
Import Binary64 Pandas64.

Definition rsi_of_rs (rs : double) : double :=
  fsub (of_int 100) (fdiv (of_int 100) (fadd (of_int 1) rs)).

Definition rsi_gain (close : series) : series :=
  rolling_mean 14 (where_ (λ d, fgt d (of_int 0)) (of_int 0) (diff close)).

Definition rsi_loss (close : series) : series :=
  rolling_mean 14 (fneg <$> where_ (λ d, flt d (of_int 0)) (of_int 0) (diff close)).

(** The body of the loop of [calculate_indicators], as in
    [Indicators.calculate_indicators_df]. *)
Definition calculate_indicators_df (df : DataFrame) : DataFrame * option exn :=
  match columns df !! "Close" with
  | None => (df, Some KeyError)
  | Some close =>
      let ma20 := rolling_mean 20 close in
      let df := setitem "MA20" ma20 df in
      let std := rolling_std 20 close in
      let df := setitem "BB_upper" (zip_with fadd ma20 ((λ s, fmul s (of_int 2)) <$> std)) df in
      let df := setitem "BB_lower" (zip_with fsub ma20 ((λ s, fmul s (of_int 2)) <$> std)) df in
      let exp1 := ewm_mean 12 close in
      let exp2 := ewm_mean 26 close in
      let macd := zip_with fsub exp1 exp2 in
      let df := setitem "MACD" macd df in
      let signal := ewm_mean 9 macd in
      let df := setitem "Signal_Line" signal df in
      let df := setitem "MACD_histogram" (zip_with fsub macd signal) df in
      let gain := rsi_gain close in
      let loss := rsi_loss close in
      let rs := zip_with fdiv gain loss in
      let df := setitem "RSI" (rsi_of_rs <$> rs) df in
      match columns df !! "Volume" with
      | None => (df, Some KeyError)
      | Some volume =>
          (setitem "Volume_MA20" (rolling_mean 20 volume) df, None)
      end
  end.

End Indicators64.

(** A cell of a table of doubles. *)
Definition cell64 (df : Pandas64.DataFrame) (c : string) (i : nat)
    : option Binary64.double :=
  s ← Pandas64.columns df !! c; s !! i.

(** *** Vocabulary for the windows on doubles *)

(** A value the kernels count: anything but NaN. *)
Definition observed (v : Binary64.double) : bool := Binary64.feq v v.

(** The number of counted values of a list. *)
Definition observations (vs : list Binary64.double) : Z :=
  foldr (λ v n, if observed v then (n + 1)%Z else n) 0%Z vs.

(** The bounds of row [i] of a fixed window of [w] values. *)
Definition bounds_at (w i : nat) : nat * nat := ((i + 1 - w)%nat, (i + 1)%nat).

(** The running state of [roll_mean] after row [i] of a fixed window of
    [w] values. *)
Fixpoint mean_state_at (values : list Binary64.double) (w i : nat)
    : Aggregations.Mean.state :=
  match i with
  | O => Aggregations.Mean.window_state values None (bounds_at w 0)
  | S j =>
      Aggregations.Mean.window_state values
        (Some ((bounds_at w j).1, (bounds_at w j).2, mean_state_at values w j))
        (bounds_at w (S j))
  end.

(** The running state of [roll_var] after row [i]. *)
Fixpoint var_state_at (values : list Binary64.double) (w i : nat)
    : Aggregations.Var.state :=
  match i with
  | O => Aggregations.Var.window_state values None (bounds_at w 0)
  | S j =>
      Aggregations.Var.window_state values
        (Some ((bounds_at w j).1, (bounds_at w j).2, var_state_at values w j))
        (bounds_at w (S j))
  end.

(** The closes did not change over the 14 bar-to-bar steps that end at
    row [i] (the first row has no step before it). *)
Definition flat_steps (closes : list Binary64.double) (i : nat) : Prop :=
  ∀ j, (i - 13 ≤ j ≤ i)%nat → (1 ≤ j)%nat → closes !! j = closes !! (j - 1)%nat.

(** The [w] cells that end at row [i] hold one and the same number. *)
Definition constant_window (xs : list Binary64.double) (w i : nat)
    (v : Binary64.double) : Prop :=
  observed v = true ∧ Binary64.isinf v = false ∧
  ∀ j, (i + 1 - w ≤ j ≤ i)%nat → xs !! j = Some v.

(** *** Sample tables of doubles *)

Module Sample64.
Import Binary64 Pandas64.

(** A table of daily bars with the given closes and volumes. *)
Definition table (closes volumes : list double) : DataFrame :=
  mkDataFrame (Z.of_nat <$> seq 0 (length closes))
    {[ "Close" := closes; "Volume" := volumes ]}.

(** Twenty bars with the close 100 and the volume 7. *)
Definition flat : DataFrame :=
  table (replicate 20 (of_int 100)) (replicate 20 (of_int 7)).

(** Closes rising by one from 100, for 25 bars. *)
Definition rising : DataFrame :=
  table ((λ k, of_int (100 + Z.of_nat k)) <$> seq 0 25) (replicate 25 (of_int 7)).

(** Eighteen closes, each a power of two: a price that collapses from
    [2^80] to [2^-80]. *)
Definition collapse_closes : list double :=
  (λ e, ldexp 1 e) <$>
    ([80; 20; -40; -70] ++ replicate 5 (-40) ++ replicate 9 (-80))%Z.

Definition collapse : DataFrame := table collapse_closes collapse_closes.

(** Twenty-two closes that alternate between [2^600] and 1. *)
Definition swing_closes : list double :=
  (λ k, if Nat.even k then ldexp 1 600 else of_int 1) <$> seq 0 22.

Definition swing : DataFrame := table swing_closes swing_closes.

End Sample64.

(** A finite double above zero: a price the provider can give. *)
Definition positive_finite (x : Binary64.double) : bool :=
  match x with S754_finite false _ _ => true | _ => false end.

(** * Properties *)

(** ** Provider keys *)

(** The two keys agree on every symbol that contains "-USD" or does not
    end with "USD". *)
Lemma tickers_agree symbol :
  contains "-USD" symbol = true ∨ endswith symbol "USD" = false →
  CryptoAnalyzer.get_crypto_data_ticker symbol =
  CryptoAnalyzer.predict_price_ticker symbol.
Proof.
  unfold CryptoAnalyzer.get_crypto_data_ticker, CryptoAnalyzer.predict_price_ticker.
  intros [-> | ->]; simpl; [done|].
  by destruct (contains _ _).
Qed.

(** C10 (evaluated at the symbol "BTCUSD"): [get_crypto_data] queries the
    provider for "BTCUSD", since the symbol ends with "USD", while
    [predict_price] tests only for the substring "-USD" and queries
    "BTCUSD-USD": the two keys differ. *)
Theorem C10_ticker_keys_differ_on_BTCUSD :
  CryptoAnalyzer.get_crypto_data_ticker "BTCUSD" = "BTCUSD" ∧
  CryptoAnalyzer.predict_price_ticker "BTCUSD" = "BTCUSD-USD" ∧
  CryptoAnalyzer.get_crypto_data_ticker "BTCUSD" ≠
  CryptoAnalyzer.predict_price_ticker "BTCUSD".
Proof. by vm_compute. Qed.

(** ** The exchange-rate cache *)

Section ExchangeRates.
Import StockAnalyzer.

(** A request changes nothing but the log, to which it adds its URL. *)
Lemma primary_attempt_log e st :
  ∃ r, primary_attempt e st = (set_requests (requests st ++ [primary_url]) st, r).
Proof.
  unfold primary_attempt, http_get, mbind, M_bind, lift, mret, M_ret.
  destruct (requests_get e primary_url) as [ex|code body]; simpl; [eauto|].
  destruct (code =? 200)%Z; simpl; [|eauto].
  destruct body as [data|ex]; simpl; [|eauto].
  destruct (py_get data "success" (JBool false)) as [flag|ex]; simpl; [|eauto].
  destruct (truthy flag); simpl; [|eauto].
  destruct (rates_of data); simpl; eauto.
Qed.

Lemma fallback_attempt_log e st :
  ∃ r, fallback_attempt e st = (set_requests (requests st ++ [fallback_url]) st, r).
Proof.
  unfold fallback_attempt, http_get, mbind, M_bind, lift, mret, M_ret.
  destruct (requests_get e fallback_url) as [ex|code body]; simpl; [eauto|].
  destruct (code =? 200)%Z; simpl; [|eauto].
  destruct body as [data|ex]; simpl; [|eauto].
  destruct (rates_of data); simpl; eauto.
Qed.

(** [_get_exchange_rates] never raises, requests the primary provider
    first and changes nothing but the log. *)
Lemma get_exchange_rates_total e st :
  ∃ log rates,
    _get_exchange_rates e st =
      (set_requests (requests st ++ primary_url :: log) st, Ok rates).
Proof.
  unfold _get_exchange_rates, try_except, _get_exchange_rates_try.
  unfold mbind at 1 2. unfold M_bind.
  destruct (primary_attempt_log e st) as [r1 ->].
  destruct r1 as [[r|]|ex]; simpl.
  - exists [], r. done.
  - destruct (fallback_attempt_log e (set_requests (requests st ++ [primary_url]) st))
      as [r2 ->]. simpl. rewrite <- app_assoc. simpl.
    destruct r2 as [[r|]|ex]; simpl; eauto.
  - exists [], hardcoded_rates. done.
Qed.

(** When the primary provider fails its attempt returns nothing or
    raises; so does the fallback's when the fallback fails. *)
Lemma primary_attempt_fails e st :
  primary_fails (requests_get e primary_url) = true →
  ∀ r, (primary_attempt e st).2 ≠ Ok (Some r).
Proof.
  unfold primary_fails, primary_attempt, http_get, mbind, M_bind, lift, mret, M_ret,
    unsuccessful, unreadable_rates.
  destruct (requests_get e primary_url) as [ex|code body]; simpl; [done|].
  destruct (code =? 200)%Z; simpl; [|done].
  destruct body as [data|ex]; simpl; [|done].
  destruct (py_get data "success" (JBool false)) as [flag|ex]; simpl; [|done].
  destruct (truthy flag); simpl; [|done].
  destruct (rates_of data); simpl; done.
Qed.

Lemma fallback_attempt_fails e st :
  fallback_fails (requests_get e fallback_url) = true →
  ∀ r, (fallback_attempt e st).2 ≠ Ok (Some r).
Proof.
  unfold fallback_fails, fallback_attempt, http_get, mbind, M_bind, lift, mret, M_ret,
    unreadable_rates.
  destruct (requests_get e fallback_url) as [ex|code body]; simpl; [done|].
  destruct (code =? 200)%Z; simpl; [|done].
  destruct body as [data|ex]; simpl; [|done].
  destruct (rates_of data); simpl; done.
Qed.

(** C6: when the primary and the fallback provider both fail (an
    exception, a status other than 200, or an unsuccessful or malformed
    response), [_get_exchange_rates] returns the hardcoded rates
    {USD: 0.9132, GBP: 0.8561}; it returns them as a value, not as an
    exception, and changes nothing but the request log. *)
Theorem C6_hardcoded_rates_when_providers_fail (e : env) (st : state) :
  primary_fails (requests_get e primary_url) = true →
  fallback_fails (requests_get e fallback_url) = true →
  ∃ log,
    _get_exchange_rates e st =
      (set_requests (requests st ++ log) st,
       Ok ({[ "USD" := Fin 0.9132; "GBP" := Fin 0.8561 ]} : gmap string xfloat)).
Proof.
  intros Hp Hf.
  unfold _get_exchange_rates, try_except, _get_exchange_rates_try.
  unfold mbind at 1 2. unfold M_bind.
  pose proof (primary_attempt_fails e st Hp) as Hp'.
  destruct (primary_attempt_log e st) as [r1 Hr1]. rewrite Hr1 in Hp' |- *.
  simpl in Hp'.
  destruct r1 as [[r|]|ex]; simpl.
  - by destruct (Hp' r).
  - pose proof (fallback_attempt_fails e
      (set_requests (requests st ++ [primary_url]) st) Hf) as Hf'.
    destruct (fallback_attempt_log e (set_requests (requests st ++ [primary_url]) st))
      as [r2 Hr2]. rewrite Hr2 in Hf' |- *. simpl in *.
    rewrite <- app_assoc.
    destruct r2 as [[r|]|ex]; simpl; [by destruct (Hf' r)|eauto..].
  - eauto.
Qed.

(** The test of [_update_exchange_rates], spelled out. *)
Lemma cache_stale_spec e st :
  cache_stale e st = true ↔
  exchange_rates st = None ∨ exchange_rates st = Some ∅ ∨
  3600 < time e - last_rate_update st.
Proof.
  unfold cache_stale, cache_unset.
  rewrite orb_true_iff.
  destruct (exchange_rates st) as [r|]; [|split; auto].
  rewrite bool_decide_eq_true.
  assert ((match time e - last_rate_update st ?= 3600 with Gt => true | _ => false end)
          = true ↔ 3600 < time e - last_rate_update st) as ->.
  { change (3600 < time e - last_rate_update st)
      with (time e - last_rate_update st > 3600).
    rewrite Qgt_alt.
    destruct (time e - last_rate_update st ?= 3600); simpl; split; congruence. }
  split; [intros [->|?]; auto|intros [?|[[= ->]|?]]; auto; done].
Qed.

(** C9: [_update_exchange_rates] refreshes the cache exactly when the
    cache is unset or empty or older than 3600 seconds.  Then it asks the
    providers, and on return [exchange_rates] holds the rates they gave
    and [last_rate_update] is the current time; nothing else of the
    analyzer changes but the request log.  Otherwise it leaves the
    analyzer (rates, time of the last update and the request log) as it
    was.  The providers are requested if and only if the cache is
    stale. *)
Theorem C9_update_exchange_rates_ttl (e : env) (st : state) :
  let stale :=
    exchange_rates st = None ∨ exchange_rates st = Some ∅ ∨
    3600 < time e - last_rate_update st in
  ∃ st', _update_exchange_rates e st = (st', Ok ()) ∧
    (stale →
       ∃ st1 rates, _get_exchange_rates e st = (st1, Ok rates) ∧
         exchange_rates st' = Some rates ∧
         last_rate_update st' = time e ∧
         predictions st' = predictions st ∧
         heap st' = heap st ∧
         requests st' = requests st1 ∧
         primary_url ∈ drop (length (requests st)) (requests st')) ∧
    (¬ stale →
       st' = st ∧
       exchange_rates st' = exchange_rates st ∧
       last_rate_update st' = last_rate_update st) ∧
    (requests st' ≠ requests st ↔ stale).
Proof.
  intros stale.
  pose proof (cache_stale_spec e st) as Hspec. fold stale in Hspec.
  unfold _update_exchange_rates, get. unfold mbind at 1. unfold M_bind.
  destruct (cache_stale e st) eqn:Hs.
  - assert stale as Hstale. { apply Hspec. done. }
    destruct (get_exchange_rates_total e st) as (log & rates & Hget).
    unfold mbind, M_bind. rewrite Hget.
    exists (set_rates (Some rates) (time e)
              (set_requests (requests st ++ primary_url :: log) st)).
    split; [done|].
    split; [|split].
    + intros _. do 2 eexists. split; [done|].
      repeat split.
      simpl. rewrite drop_app_length. apply list_elem_of_here.
    + done.
    + split; [done|]. intros _. simpl.
      intros Heq. apply (f_equal length) in Heq.
      rewrite length_app in Heq. simpl in Heq. lia.
  - assert (¬ stale) as Hfresh by (rewrite <- Hspec; done).
    exists st. simpl. split; [done|].
    split; [done|]. split; [done|]. split; [done|]. intros ?; done.
Qed.
End ExchangeRates.

(** ** Portfolio totals *)

Section Portfolio.
Import Pandas.
#[local] Arguments Nat.leb : simpl never.
#[local] Arguments Nat.ltb : simpl never.

Lemma iloc_last (s : series) x :
  last s = Some x → App.iloc s 1 = Ok x.
Proof.
  intros Hl. unfold App.iloc, iloc_neg.
  assert (0 < length s)%nat by (destruct s; [done|simpl; lia]).
  rewrite decide_True by lia.
  rewrite last_lookup in Hl.
  replace (length s - 1)%nat with (pred (length s)) by lia.
  by rewrite Hl.
Qed.

Lemma iloc_short (s : series) k :
  (length s < k)%nat → App.iloc s k = Raise IndexError.
Proof.
  intros. unfold App.iloc, iloc_neg. by rewrite decide_False by lia.
Qed.

Lemma iloc_is_Some (s : series) k :
  (1 ≤ k ≤ length s)%nat → ∃ x, App.iloc s k = Ok x.
Proof.
  intros. unfold App.iloc, iloc_neg. rewrite decide_True by done.
  destruct (lookup_lt_is_Some_2 s (length s - k)%nat) as [x ->]; [lia|eauto].
Qed.

(** The first branch of [app.py]'s loop is taken, and succeeds, exactly
    for the holdings that have a price. *)
Lemma app_priced eur_rate data c :
  match App.has_data data c with
  | Some df =>
      match App.priced_row eur_rate c df with
      | Ok row => app_value eur_rate data c = Some (App.value_eur row)
      | Raise _ => app_value eur_rate data c = None
      end
  | None => app_value eur_rate data c = None
  end.
Proof.
  unfold App.has_data, app_value, app_price, App.priced_row, getitem.
  destruct (dict_get data (App.symbol c)) as [df|]; simpl; [|done].
  rewrite Nat.ltb_antisym.
  destruct (empty df); simpl; [done|].
  destruct (2 <=? len df)%nat; simpl; [|done].
  destruct (columns df !! "Close") as [close|]; simpl; [|done].
  destruct (Nat.ltb_spec (length close) 2) as [Hc|Hc].
  - destruct (App.iloc close 1) as [x|] eqn:H1; simpl; [|done].
    by rewrite iloc_short.
  - destruct (iloc_is_Some close 2) as [y Hy]; [lia|].
    destruct (last close) as [x|] eqn:Hl.
    + rewrite (iloc_last _ _ Hl). simpl. rewrite Hy. done.
    + destruct close; [simpl in *; lia|].
      by rewrite last_cons in Hl; destruct (last close).
Qed.

Lemma app_loop eur_rate data coins : ∀ a : App.acc,
  (fold_left (App.step eur_rate data) coins a).1.2 =
    fold_left xadd (omap (app_value eur_rate data) coins) a.1.2 ∧
  (fold_left (App.step eur_rate data) coins a).2 =
    fold_left Qplus (App.invested_eur <$> coins) a.2.
Proof.
  induction coins as [|c coins IH]; intros a; [done|].
  change (fold_left (App.step eur_rate data) (c :: coins) a)
    with (fold_left (App.step eur_rate data) coins (App.step eur_rate data a c)).
  destruct (IH (App.step eur_rate data a c)) as [-> ->]. clear IH.
  pose proof (app_priced eur_rate data c) as Hp.
  destruct a as [[s te] ti]. unfold App.step. simpl.
  destruct (App.has_data data c) as [df|].
  - destruct (App.priced_row eur_rate c df) as [row|]; rewrite Hp; done.
  - rewrite Hp; done.
Qed.

(** A page prices exactly the holdings that have a price there. *)
Lemma page_priced data h :
  match Pages.has_data data h with
  | Some df =>
      match Pages.last_close df with
      | Ok x => page_price data h = Some x
      | Raise _ => page_price data h = None
      end
  | None => page_price data h = None
  end.
Proof.
  unfold Pages.has_data, page_price, Pages.last_close, getitem.
  destruct (dict_get data (Pages.symbol h)) as [df|]; simpl; [|done].
  destruct (empty df); simpl; [done|].
  destruct (columns df !! "Close") as [close|]; simpl; [|done].
  destruct (last close) as [x|] eqn:Hl.
  - by rewrite (iloc_last _ _ Hl).
  - destruct close; [|by rewrite last_cons in Hl; destruct (last close)].
    by rewrite iloc_short by (simpl; lia).
Qed.

Lemma dict_get_elem {V} (d : list (string * V)) k v :
  dict_get d k = Some v → ∃ k', (k', v) ∈ d.
Proof.
  unfold dict_get. destruct (List.find _ d) as [[k' v']|] eqn:Hf; [|done].
  intros [= <-]. apply List.find_some in Hf as [Hin _].
  exists k'. by apply list_elem_of_In.
Qed.

(** On tables with closes a non-empty table has a last close. *)
Lemma page_has_price data h df :
  (∀ symbol df, (symbol, df) ∈ data → close_ok df) →
  Pages.has_data data h = Some df →
  ∃ x, Pages.last_close df = Ok x.
Proof.
  intros Hok. unfold Pages.has_data.
  destruct (dict_get data (Pages.symbol h)) as [df'|] eqn:Hd; [|done].
  destruct (empty df') eqn:He; [done|]. intros [= <-].
  destruct (dict_get_elem _ _ _ Hd) as [k Hin].
  destruct (Hok _ _ Hin) as (close & Hc & Hlen).
  unfold Pages.last_close, getitem. rewrite Hc. simpl.
  apply iloc_is_Some. rewrite Hlen. unfold empty, len in *.
  apply orb_false_iff in He as [He _]. apply bool_decide_eq_false in He.
  destruct (index df'); [done|simpl; lia].
Qed.

Lemma page_loop data holdings :
  (∀ symbol df, (symbol, df) ∈ data → close_ok df) →
  ∀ a : Pages.acc, ∃ a',
    Pages.loop data holdings a = Ok a' ∧
    a'.1.2 = fold_left Qplus (omap (page_invested data) holdings) a.1.2 ∧
    a'.2 = fold_left xadd (omap (page_value data) holdings) a.2.
Proof.
  intros Hok. induction holdings as [|h holdings IH]; intros [[rows ti] tc].
  { eexists. done. }
  simpl Pages.loop. pose proof (page_priced data h) as Hp.
  unfold page_invested, page_value. simpl omap.
  destruct (Pages.has_data data h) as [df|] eqn:Hd.
  - destruct (page_has_price _ _ _ Hok Hd) as [x Hx]. rewrite Hx in Hp |- *.
    rewrite Hp. simpl.
    destruct (IH (rows ++ [Pages.priced_row h x],
                  ti + Pages.quantity h * Pages.avg_price h,
                  xadd tc (xmul (Fin (Pages.quantity h)) x))) as (a' & -> & ? & ?).
    eexists. done.
  - rewrite Hp. simpl. apply IH.
Qed.

(** C2 (amended): [app.py]'s [get_portfolio_summary] totals the invested
    amount of every holding, priced or not; the pages'
    [create_portfolio_summary] totals the invested amount (quantity times
    average price) of the priced holdings only.  At both the total
    current value is the sum of quantity times current price over the
    priced holdings.  (A holding is priced when its table has a row, two
    rows in [app.py], where the price is the last close times the EUR
    rate.) *)
Theorem C2_portfolio_totals (eur_rate : xfloat) (coins : list App.coin)
    (holdings : list Pages.holding) (data : list (string * DataFrame)) :
  (∀ symbol df, (symbol, df) ∈ data → close_ok df) →
  let a := App.get_portfolio_summary eur_rate coins data in
  App.total_invested a = fold_left Qplus (App.invested_eur <$> coins) 0 ∧
  App.total_eur a = fold_left xadd (omap (app_value eur_rate data) coins) (of_Z 0) ∧
  ∃ p, Pages.create_portfolio_summary holdings data = Ok p ∧
    Pages.total_invested p = fold_left Qplus (omap (page_invested data) holdings) 0 ∧
    Pages.total_current p = fold_left xadd (omap (page_value data) holdings) (of_Z 0).
Proof.
  intros Hok a. subst a. unfold App.get_portfolio_summary.
  destruct (app_loop eur_rate data coins ([], of_Z 0, 0)) as [Hte Hti].
  destruct (fold_left _ coins _) as [[s te] ti]. simpl in *.
  split; [done|]. split; [done|].
  unfold Pages.create_portfolio_summary.
  destruct (page_loop data holdings Hok ([], 0, of_Z 0)) as ([[rows ti'] tc'] & -> & ? & ?).
  simpl in *. eexists. done.
Qed.
End Portfolio.

(** C2 (as stated, refuted on a page): with no data fetched for the one
    holding, bought for 10 × 5 = 50, the page's total invested is 0, not
    50. *)
Lemma C2_counterexample_unpriced_holding :
  ∃ p, Pages.create_portfolio_summary [Sample.bitcoin] [] = Ok p ∧
    ¬ Pages.total_invested p ==
      fold_left Qplus ((λ h, Pages.quantity h * Pages.avg_price h) <$> [Sample.bitcoin]) 0.
Proof. eexists. split; [reflexivity|]. by vm_compute. Qed.

(** The totals of C2 on the sample portfolio: one holding priced at both
    sites, one priced on the pages only, one without data. *)
Lemma C2_portfolio_totals_witness :
  let a := App.get_portfolio_summary (Fin 0.93) Sample.coins Sample.data in
  App.total_invested a = fold_left Qplus (App.invested_eur <$> Sample.coins) 0 ∧
  App.total_eur a =
    fold_left xadd (omap (app_value (Fin 0.93) Sample.data) Sample.coins) (of_Z 0) ∧
  ∃ p, Pages.create_portfolio_summary [Sample.bitcoin; Sample.airdrop] Sample.data = Ok p ∧
    Pages.total_invested p =
      fold_left Qplus (omap (page_invested Sample.data) [Sample.bitcoin; Sample.airdrop]) 0 ∧
    Pages.total_current p =
      fold_left xadd (omap (page_value Sample.data) [Sample.bitcoin; Sample.airdrop]) (of_Z 0).
Proof.
  apply (C2_portfolio_totals (Fin 0.93) Sample.coins
           [Sample.bitcoin; Sample.airdrop] Sample.data).
  intros symbol df Hin.
  apply list_elem_of_In in Hin.
  destruct Hin as [[= <- <-]|[[= <- <-]|[]]]; eexists; split; reflexivity.
Defined.

(** The percentages that are guarded: the return of a priced holding and
    the total return in [app.py], and the total return on the pages, are 0
    when the amount they divide by is not positive. *)
Lemma percentages_guarded eur_rate (c : App.coin) df row coins holdings data p :
  (App.priced_row eur_rate c df = Ok row → App.invested_eur c <= 0 →
   App.profit_percentage row = of_Z 0) ∧
  (App.total_invested (App.get_portfolio_summary eur_rate coins data) <= 0 →
   App.total_profit_percentage (App.get_portfolio_summary eur_rate coins data) = of_Z 0) ∧
  (Pages.create_portfolio_summary holdings data = Ok p →
   Pages.total_invested p <= 0 → Pages.total_change_pct p = of_Z 0).
Proof.
  assert (Hg : ∀ x, x <= 0 → Qgtb x 0 = false).
  { intros x Hx. unfold Qgtb. destruct (x ?= 0) eqn:Hc; try reflexivity.
    apply Qgt_alt in Hc. lra. }
  split; [|split].
  - unfold App.priced_row, mbind, exc_bind.
    destruct (getitem _ _); [|done]. destruct (App.iloc _ 1); [|done].
    destruct (App.iloc _ 2); [|done]. simpl. intros [= <-] Hx. simpl.
    by rewrite Hg.
  - unfold App.get_portfolio_summary.
    destruct (fold_left _ _ _) as [[s te] ti]. simpl. intros Hx. by rewrite Hg.
  - unfold Pages.create_portfolio_summary, mbind, exc_bind.
    destruct (Pages.loop _ _ _) as [[[rows ti] tc]|]; [|done].
    simpl. intros [= <-] Hx. simpl. by rewrite Hg.
Qed.

(** C3 (evaluated on a page at a holding received for nothing): the
    holding's average price is 0 / 10 = 0 and its invested amount 0; with
    a last close of 5 the page computes the holding's percentage as
    (5 − 0) / 0 × 100 with no test of the divisor, which is an infinity
    and not 0. *)
Theorem C3_page_percentage_divides_by_zero :
  Pages.crypto_holding "AIR" "Airdrop" 10 0 = Ok Sample.airdrop ∧
  ∃ p row,
    Pages.create_portfolio_summary [Sample.airdrop] Sample.data = Ok p ∧
    Pages.portfolio_data p = [row] ∧
    Pages.invested row == 0 ∧
    Pages.change_pct row = PInf.
Proof.
  split; [reflexivity|].
  do 2 eexists. split; [vm_compute; reflexivity|].
  split; [reflexivity|]. split; reflexivity.
Qed.

(** ** The currency normaliser *)

Section Normaliser.
Import Pandas StockAnalyzer.

Lemma bind_ok {A B} (m : M A) (k : A → M B) st st' a :
  m st = (st', Ok a) → (m ≫= k) st = k a st'.
Proof. unfold mbind, M_bind. by intros ->. Qed.

Lemma bind_raise {A B} (m : M A) (k : A → M B) st st' ex :
  m st = (st', Raise ex) → (m ≫= k) st = (st', Raise ex).
Proof. unfold mbind, M_bind. by intros ->. Qed.

Lemma set_heap_id st : set_heap (heap st) st = st.
Proof. by destruct st. Qed.

Lemma rates_of_has_rates data r : rates_of data = Ok r → has_rates r.
Proof.
  unfold rates_of, mbind, exc_bind, mret, exc_ret.
  repeat (match goal with |- context [match ?x with Ok _ => _ | Raise _ => _ end] =>
            destruct x; [|done] end).
  intros [= <-]. split; [by rewrite lookup_insert_eq|].
  rewrite lookup_insert_ne by done. by rewrite lookup_singleton_eq.
Qed.

Lemma hardcoded_has_rates : has_rates hardcoded_rates.
Proof. split; eexists; vm_compute; reflexivity. Qed.

Lemma primary_attempt_rates e st r :
  (primary_attempt e st).2 = Ok (Some r) → has_rates r.
Proof.
  unfold primary_attempt, http_get, mbind, M_bind, lift, mret, M_ret.
  destruct (requests_get e primary_url) as [ex|code body]; simpl; [done|].
  destruct (code =? 200)%Z; simpl; [|done].
  destruct body as [data|ex]; simpl; [|done].
  destruct (py_get data "success" (JBool false)) as [flag|ex]; simpl; [|done].
  destruct (truthy flag); simpl; [|done].
  destruct (rates_of data) eqn:Hr; simpl; [|done].
  intros [= <-]. by eapply rates_of_has_rates.
Qed.

Lemma fallback_attempt_rates e st r :
  (fallback_attempt e st).2 = Ok (Some r) → has_rates r.
Proof.
  unfold fallback_attempt, http_get, mbind, M_bind, lift, mret, M_ret.
  destruct (requests_get e fallback_url) as [ex|code body]; simpl; [done|].
  destruct (code =? 200)%Z; simpl; [|done].
  destruct body as [data|ex]; simpl; [|done].
  destruct (rates_of data) eqn:Hr; simpl; [|done].
  intros [= <-]. by eapply rates_of_has_rates.
Qed.

Lemma get_exchange_rates_has_rates e st st' r :
  _get_exchange_rates e st = (st', Ok r) → has_rates r.
Proof.
  unfold _get_exchange_rates, try_except, _get_exchange_rates_try.
  unfold mbind at 1 2. unfold M_bind.
  pose proof (primary_attempt_rates e st) as Hp.
  destruct (primary_attempt e st) as [st1 [[r1|]|ex]]; simpl in *.
  - intros [= _ <-]. by apply Hp.
  - pose proof (fallback_attempt_rates e st1) as Hf.
    destruct (fallback_attempt e st1) as [st2 [[r2|]|ex]]; simpl in *.
    + intros [= _ <-]. by apply Hf.
    + intros [= _ <-]. apply hardcoded_has_rates.
    + intros [= _ <-]. apply hardcoded_has_rates.
  - intros [= _ <-]. apply hardcoded_has_rates.
Qed.

(** [_update_exchange_rates] never raises and touches neither the store
    of tables nor the forecasts; it keeps the cache filled. *)
Lemma update_exchange_rates_frame e st :
  ∃ st1, _update_exchange_rates e st = (st1, Ok ()) ∧
    heap st1 = heap st ∧ predictions st1 = predictions st ∧
    (rates_inv st → ∃ r, exchange_rates st1 = Some r ∧ has_rates r).
Proof.
  unfold _update_exchange_rates, get. unfold mbind at 1. unfold M_bind.
  destruct (cache_stale e st) eqn:Hs.
  - destruct (get_exchange_rates_total e st) as (log & rates & Hget).
    unfold mbind, M_bind. rewrite Hget. simpl.
    eexists. split; [done|]. simpl. split; [done|]. split; [done|].
    intros _. exists rates. split; [done|]. by eapply get_exchange_rates_has_rates.
  - exists st. simpl. split; [done|]. split; [done|]. split; [done|].
    intros Hinv. unfold cache_stale, cache_unset in Hs.
    apply orb_false_iff in Hs as [Hs _].
    destruct (exchange_rates st) as [r|] eqn:Hr; [|done].
    apply bool_decide_eq_false in Hs. exists r. split; [done|]. by apply Hinv.
Qed.

Lemma insert_alter_same {A} (f : A → A) (h : list A) l x :
  <[l := x]> (alter f l h) = <[l := x]> h.
Proof. by rewrite !list_insert_alter, list_alter_alter_eq. Qed.

(** The cache invariant holds after [__init__] and is kept by every
    refresh. *)
Lemma rates_inv_init e : rates_inv (__init__ e).
Proof.
  unfold __init__.
  destruct (update_exchange_rates_frame e (mkState None 0 ∅ [] []))
    as (st1 & -> & _ & _ & Hr).
  destruct Hr as (r & Hr & ?); [by intros r' [=]|].
  simpl. intros r' Hr' _. congruence.
Qed.

Lemma rates_inv_update e st : rates_inv st → rates_inv (_update_exchange_rates e st).1.
Proof.
  intros Hinv.
  destruct (update_exchange_rates_frame e st) as (st1 & -> & _ & _ & Hr).
  destruct (Hr Hinv) as (r & Hr1 & ?). simpl. intros r' Hr' _. congruence.
Qed.

(** The loop over the price columns rewrites the copy in the store. *)
Lemma scale_loop rate l cols : ∀ st t,
  heap st !! l = Some t →
  for_each cols (λ col,
    t ← df_read l;
    match columns t !! col with
    | Some s => df_setitem l col (map (λ x, xmul x rate) s)
    | None => mret ()
    end) st
  = (set_heap (<[l := fold_left (scale_column rate) cols t]> (heap st)) st, Ok ()).
Proof.
  induction cols as [|col cols IH]; intros st t Hl; simpl.
  { rewrite list_insert_id by done. by rewrite set_heap_id. }
  unfold mbind at 1. unfold M_bind.
  unfold mbind at 1. unfold M_bind, df_read. rewrite Hl.
  unfold scale_column at 2.
  destruct (columns t !! col) as [s|] eqn:Hc.
  - unfold df_setitem, modify.
    rewrite (IH _ (setitem col (map (λ x, xmul x rate) s) t)); simpl.
    + by rewrite insert_alter_same.
    + by rewrite list_lookup_alter_eq, Hl.
  - unfold mret, M_ret. by apply IH.
Qed.

(** [_convert_to_eur], step by step: it refreshes the cache, reads the
    rate, copies the table to a new location and rewrites the copy. *)
Lemma convert_spec e st df symbol table :
  heap st !! df = Some table →
  ∃ st1, _update_exchange_rates e st = (st1, Ok ()) ∧
    heap st1 = heap st ∧ predictions st1 = predictions st ∧
    (rates_inv st → ∃ r, exchange_rates st1 = Some r ∧ has_rates r) ∧
    _convert_to_eur e df symbol st =
    match (if endswith symbol ".L" then rate_of st1 "GBP" else rate_of st1 "USD") with
    | Raise ex => (st1, Raise ex)
    | Ok rate =>
        let t1 := scaled rate table in
        match columns t1 !! "Volume" with
        | Some v =>
            match astype_int v with
            | Ok v' =>
                (set_heap (heap st ++ [setitem "Volume" v' t1]) st1,
                 Ok (length (heap st)))
            | Raise ex => (set_heap (heap st ++ [t1]) st1, Raise ex)
            end
        | None => (set_heap (heap st ++ [t1]) st1, Ok (length (heap st)))
        end
    end.
Proof.
  intros Hdf.
  destruct (update_exchange_rates_frame e st) as (st1 & Hup & Hheap & Hpred & Hinv).
  exists st1. split; [done|]. split; [done|]. split; [done|]. split; [done|].
  unfold _convert_to_eur.
  rewrite (bind_ok _ _ _ _ _ Hup).
  rewrite (bind_ok get _ st1 st1 st1 eq_refl).
  destruct (if endswith symbol ".L" then rate_of st1 "GBP" else rate_of st1 "USD")
    as [rate|ex]; [|done].
  rewrite (bind_ok (lift (Ok rate)) _ st1 st1 rate eq_refl).
  assert (Hcopy : df_copy df st1 =
            (set_heap (heap st ++ [table]) st1, Ok (length (heap st)))).
  { unfold df_copy.
    rewrite (bind_ok (df_read df) _ st1 st1 table)
      by (unfold df_read; by rewrite Hheap, Hdf).
    unfold df_alloc. by rewrite Hheap. }
  rewrite (bind_ok _ _ _ _ _ Hcopy).
  set (st2 := set_heap (heap st ++ [table]) st1).
  assert (Hl : heap st2 !! length (heap st) = Some table).
  { simpl. by rewrite list_lookup_middle. }
  rewrite (bind_ok _ _ _ _ _ (scale_loop rate _ price_columns st2 table Hl)).
  fold (scaled rate table). simpl heap.
  assert (Hins : ∀ t, <[length (heap st) := t]> (heap st ++ [table]) = heap st ++ [t]).
  { intros t. replace (length (heap st)) with (length (heap st) + 0)%nat at 1 by lia.
    by rewrite insert_app_r. }
  rewrite Hins.
  assert (set_heap (heap st ++ [scaled rate table]) st2 =
          set_heap (heap st ++ [scaled rate table]) st1) as -> by done.
  set (st3 := set_heap (heap st ++ [scaled rate table]) st1).
  assert (Hl3 : heap st3 !! length (heap st) = Some (scaled rate table)).
  { simpl. by rewrite list_lookup_middle. }
  rewrite (bind_ok (df_read _) _ st3 st3 (scaled rate table))
    by (unfold df_read; by rewrite Hl3).
  destruct (columns (scaled rate table) !! "Volume") as [v|]; [|done].
  destruct (astype_int v) as [v'|ex]; [|done].
  unfold mbind, M_bind, lift, df_setitem, modify, mret, M_ret. simpl.
  f_equal. unfold set_heap. simpl. f_equal.
  rewrite <- (Hins (scaled rate table)).
  rewrite <- (Hins (setitem "Volume" v' (scaled rate table))).
  rewrite !list_insert_alter, list_alter_alter_eq.
  apply list_alter_ext; [|done]. intros x Hx. simpl. done.
Qed.

Lemma scale_column_lookup rate t col c :
  columns (scale_column rate t col) !! c =
  if decide (c = col) then map (λ x, xmul x rate) <$> columns t !! c
  else columns t !! c.
Proof.
  unfold scale_column.
  destruct (columns t !! col) as [s|] eqn:Hc; simpl; case_decide; subst.
  - by rewrite lookup_insert_eq, Hc.
  - by rewrite lookup_insert_ne.
  - by rewrite Hc.
  - done.
Qed.

Lemma scale_fold_lookup rate cols :
  NoDup cols → ∀ t c,
  columns (fold_left (scale_column rate) cols t) !! c =
  if decide (c ∈ cols) then map (λ x, xmul x rate) <$> columns t !! c
  else columns t !! c.
Proof.
  induction 1 as [|col cols Hnin Hnd IH]; intros t c; simpl.
  { done. }
  rewrite IH, scale_column_lookup.
  destruct (decide (c = col)) as [->|Hne].
  - rewrite decide_False by done. by rewrite decide_True by apply list_elem_of_here.
  - destruct (decide (c ∈ cols)) as [Hin|Hnin'].
    + by rewrite decide_True by by apply list_elem_of_further.
    + rewrite decide_False; [done|]. by intros [?|?]%elem_of_cons.
Qed.

Lemma scale_fold_index rate cols : ∀ t,
  index (fold_left (scale_column rate) cols t) = index t.
Proof.
  induction cols as [|col cols IH]; intros t; simpl; [done|].
  rewrite IH. unfold scale_column. by destruct (columns t !! col).
Qed.

Lemma price_columns_NoDup : NoDup price_columns.
Proof. compute_done. Qed.

Lemma finite_values_Some (s : series) qs :
  finite_values s = Some qs → s = Fin <$> qs.
Proof.
  revert qs. induction s as [|x s IH]; intros qs; simpl.
  { by intros [= <-]. }
  destruct x as [q| | |]; try done.
  destruct (finite_values s) as [qs'|]; [|done].
  intros [= <-]. simpl. f_equal. by apply IH.
Qed.

Lemma finite_values_fmap qs : finite_values (Fin <$> qs) = Some qs.
Proof.
  induction qs as [|q qs IH]; [done|].
  rewrite fmap_cons. cbn [finite_values]. by rewrite IH.
Qed.

Lemma int64_of_double_fits q :
  fits_int64 q → int64_of_double q = Qtrunc q.
Proof.
  unfold fits_int64, int64_of_double. intros [Hlo Hhi].
  apply Z.leb_le in Hlo, Hhi. by rewrite Hlo, Hhi.
Qed.

Lemma astype_int_fits (v : series) qs :
  finite_values v = Some qs → Forall fits_int64 qs →
  astype_int v = Ok ((λ q, of_Z (Qtrunc q)) <$> qs).
Proof.
  intros Hqs Hfit. unfold astype_int. rewrite Hqs. f_equal.
  apply Forall_fmap_ext_1. eapply Forall_impl; [exact Hfit|].
  intros q Hq. simpl. by rewrite int64_of_double_fits.
Qed.

(** A volume beyond 64 bits is not refused: the conversion returns
    [-2^63] for it. *)
Lemma astype_int_out_of_range :
  astype_int [Fin 100000000000000000000; Fin 12.75] =
  Ok [of_Z (-9223372036854775808); of_Z 12].
Proof. reflexivity. Qed.

(** C5 (amended): on a table whose Volume column, if it has one, holds
    no missing or infinite value and no value beyond the 64-bit integers,
    [_convert_to_eur] returns a new table in which each Open, High, Low
    and Close value is the raw value times one rate (the cached GBP rate
    when the symbol ends with ".L", the USD rate otherwise), each volume
    is truncated to an integer, and every other column and the index are
    as in the original; the original table, and every other table of the
    store, is left as it was. *)
Theorem C5_convert_to_eur_scales (e : env) (st : state) (df : nat)
    (symbol : string) (table : DataFrame) :
  rates_inv st →
  heap st !! df = Some table →
  (∀ v, columns table !! "Volume" = Some v → int64_volumes v) →
  ∃ st' df' rates rate table',
    _convert_to_eur e df symbol st = (st', Ok df') ∧
    exchange_rates st' = Some rates ∧
    rates !! (if endswith symbol ".L" then "GBP" else "USD") = Some rate ∧
    (∀ l t, heap st !! l = Some t → heap st' !! l = Some t) ∧
    df' ≠ df ∧
    heap st' !! df' = Some table' ∧
    index table' = index table ∧
    (∀ c, c ∈ price_columns →
       columns table' !! c = map (λ x, xmul x rate) <$> columns table !! c) ∧
    (∀ v, columns table !! "Volume" = Some v →
       ∃ qs, v = Fin <$> qs ∧
         columns table' !! "Volume" = Some ((λ q, of_Z (Qtrunc q)) <$> qs)) ∧
    (∀ c, c ∉ price_columns →
       c ≠ "Volume" ∨ columns table !! "Volume" = None →
       columns table' !! c = columns table !! c).
Proof.
  intros Hinv Hdf Hvol.
  destruct (convert_spec e st df symbol table Hdf)
    as (st1 & _ & Hheap & _ & Hr & Heq).
  destruct (Hr Hinv) as (rates & Hrates & [[usd Husd] [gbp Hgbp]]).
  set (k := if endswith symbol ".L" then "GBP" else "USD").
  assert (∃ rate, rates !! k = Some rate ∧
            (if endswith symbol ".L" then rate_of st1 "GBP" else rate_of st1 "USD")
            = Ok rate) as (rate & Hk & Hrate).
  { unfold rate_of, getitem, k. rewrite Hrates.
    destruct (endswith symbol ".L"); [rewrite Hgbp|rewrite Husd]; eauto. }
  rewrite Hrate in Heq. simpl in Heq.
  assert (Hsv : columns (scaled rate table) !! "Volume" = columns table !! "Volume").
  { unfold scaled. rewrite (scale_fold_lookup _ _ price_columns_NoDup).
    rewrite decide_False; [done|]. compute_done. }
  assert (Hlt : (df < length (heap st))%nat) by by eapply lookup_lt_Some.
  rewrite Hsv in Heq.
  destruct (columns table !! "Volume") as [v|] eqn:Hv.
  - destruct (Hvol v eq_refl) as (qs & Hqs & Hfit).
    rewrite (astype_int_fits v qs Hqs Hfit) in Heq.
    eexists _, _, rates, rate, _. split; [exact Heq|]. simpl.
    split; [done|]. split; [done|].
    split; [intros l t Hl; by apply lookup_app_l_Some|].
    split; [lia|]. split; [by rewrite list_lookup_middle|].
    split; [apply scale_fold_index|].
    split; [|split].
    + intros c Hc. unfold setitem. cbn [columns]. rewrite lookup_insert_ne.
      * unfold scaled. rewrite (scale_fold_lookup _ _ price_columns_NoDup).
        by rewrite decide_True.
      * intros <-. revert Hc. compute_done.
    + intros v0 [= <-]. exists qs. split; [by apply finite_values_Some|].
      unfold setitem. cbn [columns]. by rewrite lookup_insert_eq.
    + intros c Hc [Hne|?]; [|done]. unfold setitem. cbn [columns].
      rewrite lookup_insert_ne by done.
      unfold scaled. rewrite (scale_fold_lookup _ _ price_columns_NoDup).
      by rewrite decide_False.
  - eexists _, _, rates, rate, _. split; [exact Heq|]. simpl.
    split; [done|]. split; [done|].
    split; [intros l t Hl; by apply lookup_app_l_Some|].
    split; [lia|]. split; [by rewrite list_lookup_middle|].
    split; [apply scale_fold_index|].
    split; [|split].
    + intros c Hc. unfold scaled. rewrite (scale_fold_lookup _ _ price_columns_NoDup).
      by rewrite decide_True.
    + done.
    + intros c Hc _. unfold scaled.
      rewrite (scale_fold_lookup _ _ price_columns_NoDup).
      by rewrite decide_False.
Qed.
End Normaliser.

(** C5 (as stated, refuted): on a table whose one volume is missing the
    call raises instead of returning a table with integer volumes. *)
Lemma C5_counterexample_missing_volume :
  StockAnalyzer.heap (Sample.analyzer Sample.nan_volume) !! 0%nat = Some Sample.nan_volume ∧
  (StockAnalyzer._convert_to_eur Sample.env_down 0 "AAPL"
     (Sample.analyzer Sample.nan_volume)).2 = Raise IntCastingNaNError.
Proof. split; [reflexivity|]. vm_compute. reflexivity. Qed.

(** C5 on a two-bar table of a London listing, before the first refresh
    and with every provider down. *)
Lemma C5_convert_to_eur_witness :
  ∃ st' df' rates rate table',
    StockAnalyzer._convert_to_eur Sample.env_down 0 "CNDX.L"
      (Sample.analyzer (Sample.table [100; 110])) = (st', Ok df') ∧
    StockAnalyzer.exchange_rates st' = Some rates ∧
    rates !! (if endswith "CNDX.L" ".L" then "GBP" else "USD") = Some rate ∧
    (∀ l t, StockAnalyzer.heap (Sample.analyzer (Sample.table [100; 110])) !! l = Some t →
            StockAnalyzer.heap st' !! l = Some t) ∧
    df' ≠ 0%nat ∧
    StockAnalyzer.heap st' !! df' = Some table' ∧
    Pandas.index table' = Pandas.index (Sample.table [100; 110]) ∧
    (∀ c, c ∈ StockAnalyzer.price_columns →
       Pandas.columns table' !! c =
       map (λ x, xmul x rate) <$> Pandas.columns (Sample.table [100; 110]) !! c) ∧
    (∀ v, Pandas.columns (Sample.table [100; 110]) !! "Volume" = Some v →
       ∃ qs, v = Fin <$> qs ∧
         Pandas.columns table' !! "Volume" =
         Some ((λ q, of_Z (StockAnalyzer.Qtrunc q)) <$> qs)) ∧
    (∀ c, c ∉ StockAnalyzer.price_columns →
       c ≠ "Volume" ∨ Pandas.columns (Sample.table [100; 110]) !! "Volume" = None →
       Pandas.columns table' !! c = Pandas.columns (Sample.table [100; 110]) !! c).
Proof.
  apply (C5_convert_to_eur_scales Sample.env_down
           (Sample.analyzer (Sample.table [100; 110])) 0 "CNDX.L"
           (Sample.table [100; 110])).
  - intros r Hr. discriminate Hr.
  - reflexivity.
  - intros v Hv. vm_compute in Hv. injection Hv as <-.
    eexists. split; [reflexivity|].
    repeat (apply Forall_cons_2;
            [unfold fits_int64; vm_compute; split; discriminate|]).
    apply Forall_nil_2.
Defined.

(** ** The forecast engine *)

Section Forecasts.
Import Pandas StockAnalyzer.

(** Scaling the closes keeps the missing ones missing: no observation
    is gained. *)
Lemma dropna_scale_le rate : ∀ (idx : list Z) (close : series),
  (length (dropna (zip idx (map (λ x, xmul x rate) close))) ≤
   length (dropna (zip idx close)))%nat.
Proof.
  unfold dropna.
  induction idx as [|d idx IH]; intros [|x close]; simpl; try lia.
  rewrite !filter_cons. simpl. specialize (IH close).
  destruct x; repeat case_decide; simpl in *; try done; lia.
Qed.

Lemma crypto_no_forecast e symbol days self hist :
  history e (CryptoAnalyzer.predict_price_ticker symbol) "2y" "1d" = Ok hist →
  empty hist = true ∨ (valid_observations hist < 30)%nat →
  CryptoAnalyzer.predict_price e symbol days self = (self, None).
Proof.
  intros Hh Hshort.
  unfold CryptoAnalyzer.predict_price, CryptoAnalyzer.predict_price_try.
  rewrite Hh. unfold mbind at 1. unfold exc_bind at 1.
  destruct (empty hist) eqn:He; [done|].
  destruct Hshort as [?|Hshort]; [done|].
  destruct (len hist <? 30)%nat; [done|].
  unfold valid_observations in Hshort. unfold getitem.
  destruct (columns hist !! "Close") as [close|]; [|done].
  unfold mbind at 1. unfold exc_bind at 1.
  apply Nat.ltb_lt in Hshort. by rewrite Hshort.
Qed.

(** What [_convert_to_eur] leaves behind: an exception, or a new table
    with the index of the original and its closes, scaled; the forecasts
    are untouched. *)
Lemma convert_outcome e st df symbol table :
  heap st !! df = Some table →
  (∃ st2 ex, _convert_to_eur e df symbol st = (st2, Raise ex) ∧
             predictions st2 = predictions st) ∨
  (∃ st2 l t rate, _convert_to_eur e df symbol st = (st2, Ok l) ∧
     predictions st2 = predictions st ∧
     heap st2 !! l = Some t ∧
     index t = index table ∧
     columns t !! "Close" = map (λ x, xmul x rate) <$> columns table !! "Close").
Proof.
  intros Hl.
  destruct (convert_spec e st df symbol table Hl) as (st1 & _ & Hheap & Hpred & _ & Heq).
  destruct (if endswith symbol ".L" then rate_of st1 "GBP" else rate_of st1 "USD")
    as [rate|ex]; [|left; eauto].
  simpl in Heq.
  assert (Hsc : columns (scaled rate table) !! "Close" =
                map (λ x, xmul x rate) <$> columns table !! "Close").
  { unfold scaled. rewrite (scale_fold_lookup _ _ price_columns_NoDup).
    rewrite decide_True; [done|]. compute_done. }
  assert (Hsi : index (scaled rate table) = index table) by apply scale_fold_index.
  destruct (columns (scaled rate table) !! "Volume") as [v|] eqn:Hv.
  - destruct (astype_int v) as [v'|ex].
    + right. eexists _, _, _, rate. split; [exact Heq|]. simpl.
      split; [done|]. split; [by rewrite list_lookup_middle|]. split; [done|].
      unfold setitem. cbn [columns]. by rewrite lookup_insert_ne.
    + left. eexists _, _. split; [exact Heq|]. done.
  - right. eexists _, _, _, rate. split; [exact Heq|]. simpl.
    split; [done|]. split; [by rewrite list_lookup_middle|]. done.
Qed.

Lemma stock_no_forecast e symbol days st hist :
  history e symbol "2y" "1d" = Ok hist →
  empty hist = true ∨ (valid_observations hist < 30)%nat →
  ∃ st', StockAnalyzer.predict_price e symbol days st = (st', None) ∧
         predictions st' = predictions st.
Proof.
  intros Hh Hshort.
  unfold StockAnalyzer.predict_price, predict_price_try.
  rewrite Hh.
  rewrite (bind_ok (lift (Ok hist)) _ st st hist eq_refl).
  rewrite (bind_ok (df_alloc hist) _ st _ _ eq_refl).
  set (st0 := set_heap (heap st ++ [hist]) st).
  destruct (empty hist) eqn:He.
  { eexists. split; [done|]. done. }
  destruct Hshort as [?|Hshort]; [done|].
  assert (Hl : heap st0 !! length (heap st) = Some hist).
  { simpl. by rewrite list_lookup_middle. }
  destruct (convert_outcome e st0 _ symbol hist Hl)
    as [(st2 & ex & Hc & Hp)|(st2 & l & t & rate & Hc & Hp & Ht & Hidx & Hclose)].
  { rewrite (bind_raise _ _ _ _ _ Hc). eexists. split; [done|]. done. }
  rewrite (bind_ok _ _ _ _ _ Hc).
  rewrite (bind_ok (df_read l) _ st2 st2 t) by (unfold df_read; by rewrite Ht).
  destruct (len t <? 30)%nat; [by eexists|].
  unfold getitem. rewrite Hclose.
  unfold valid_observations in Hshort.
  destruct (columns hist !! "Close") as [close|]; simpl; [|by eexists].
  rewrite (bind_ok (lift (Ok _)) _ st2 st2 _ eq_refl).
  rewrite Hidx.
  pose proof (dropna_scale_le rate (index hist) close) as Hle.
  assert ((length (dropna (zip (index hist) (map (λ x, xmul x rate) close))) <? 30)%nat
          = true) as -> by (apply Nat.ltb_lt; lia).
  by eexists.
Qed.

(** C7: when the two-year daily history fetched for a symbol is empty
    or has fewer than 30 rows with a close, [predict_price] returns
    [None] and records no forecast, in the crypto analyzer and in the
    stock analyzer; it does not raise. *)
Theorem C7_no_forecast_on_short_history (e : env) (symbol : string) (days : Z)
    (hist : DataFrame) :
  empty hist = true ∨ (valid_observations hist < 30)%nat →
  (∀ self, history e (CryptoAnalyzer.predict_price_ticker symbol) "2y" "1d" = Ok hist →
     CryptoAnalyzer.predict_price e symbol days self = (self, None)) ∧
  (∀ st, history e symbol "2y" "1d" = Ok hist →
     ∃ st', StockAnalyzer.predict_price e symbol days st = (st', None) ∧
            predictions st' = predictions st).
Proof.
  intros Hshort. split.
  - intros self Hh. by apply crypto_no_forecast with hist.
  - intros st Hh. by apply stock_no_forecast with hist.
Qed.
End Forecasts.

(** C7 on a history of three bars. *)
Lemma C7_no_forecast_witness :
  CryptoAnalyzer.predict_price Sample.env_short "BTC" 30 (CryptoAnalyzer.mkState [] [] ∅)
    = (CryptoAnalyzer.mkState [] [] ∅, None) ∧
  ∃ st', StockAnalyzer.predict_price Sample.env_short "BTC" 30
           (Sample.analyzer (Sample.table [1])) = (st', None) ∧
         StockAnalyzer.predictions st' = ∅.
Proof.
  destruct (C7_no_forecast_on_short_history Sample.env_short "BTC" 30
              (Sample.table (Sample.rising 3))) as [Hc Hs].
  - right. vm_compute. lia.
  - split; [apply Hc; reflexivity|apply Hs; reflexivity].
Defined.

(** ** The indicator engine *)

Section Rolling.
Import Pandas.

Lemma rolling_lookup agg w (xs : series) i :
  rolling agg w xs !! i =
  (λ _, match window w xs i with
        | Some win =>
            match finite_values win with
            | Some qs => agg qs
            | None => NaN
            end
        | None => NaN
        end) <$> xs !! i.
Proof. unfold rolling. by rewrite list_lookup_imap. Qed.

Lemma length_rolling agg w (xs : series) : length (rolling agg w xs) = length xs.
Proof. unfold rolling. by rewrite length_imap. Qed.

(** Before the window is full a rolling aggregate has no value. *)
Lemma rolling_early agg w (xs : series) i x :
  (S i < w)%nat → rolling agg w xs !! i = Some x → x = NaN.
Proof.
  intros Hi. rewrite rolling_lookup. unfold window.
  rewrite decide_False by lia. destruct (xs !! i); by intros [= <-].
Qed.

(** On a series without gaps the aggregate is taken over the [w] values
    that end at the index, once there are that many. *)
Lemma rolling_finite agg w (qs : list Q) i :
  (i < length qs)%nat → (w ≤ S i)%nat →
  rolling agg w (Fin <$> qs) !! i = Some (agg (take w (drop (S i - w) qs))) ∧
  length (take w (drop (S i - w) qs)) = w.
Proof.
  intros Hi Hw. rewrite rolling_lookup. unfold window.
  rewrite decide_True by done.
  rewrite <- fmap_drop, <- fmap_take, finite_values_fmap.
  destruct (lookup_lt_is_Some_2 (Fin <$> qs) i) as [x ->];
    [by rewrite length_fmap|].
  split; [done|]. rewrite length_take, length_drop. lia.
Qed.

Lemma Qsum_nonneg qs : (∀ q, q ∈ qs → 0 <= q) → 0 <= Qsum qs.
Proof.
  induction qs as [|q qs IH]; intros H; simpl; [lra|].
  pose proof (H q (list_elem_of_here _ _)).
  assert (0 <= Qsum qs) by (apply IH; intros; apply H; by apply list_elem_of_further).
  unfold Qsum in *. lra.
Qed.

Lemma Qdiv_nonneg a b : 0 <= a → 0 <= b → 0 <= a / b.
Proof.
  intros. unfold Qdiv. apply Qmult_le_0_compat; [done|].
  by apply Qinv_le_0_compat.
Qed.

Lemma inject_nat_nonneg n : 0 <= inject_Z (Z.of_nat n).
Proof. change 0 with (inject_Z 0). rewrite <- Zle_Qle. lia. Qed.

Lemma Qmean_nonneg qs : (∀ q, q ∈ qs → 0 <= q) → 0 <= Qmean qs.
Proof.
  intros. unfold Qmean. apply Qdiv_nonneg; [by apply Qsum_nonneg|].
  apply inject_nat_nonneg.
Qed.

(** A sum of non-negative values is zero exactly when each is. *)
Lemma Qsum_zero qs :
  (∀ q, q ∈ qs → 0 <= q) → (Qsum qs == 0 ↔ ∀ q, q ∈ qs → q == 0).
Proof.
  induction qs as [|q qs IH]; intros H; simpl.
  { split; [intros _ q Hq; by apply not_elem_of_nil in Hq|reflexivity]. }
  pose proof (H q (list_elem_of_here _ _)) as Hq.
  assert (Hqs : ∀ q, q ∈ qs → 0 <= q) by (intros; apply H; by apply list_elem_of_further).
  pose proof (Qsum_nonneg qs Hqs) as Hs. specialize (IH Hqs).
  unfold Qsum in *. split.
  - intros Hz q' [->|Hin]%elem_of_cons; [lra|]. apply IH; [lra|done].
  - intros Hall.
    assert (q == 0) by apply Hall, list_elem_of_here.
    assert (fold_right Qplus 0 qs == 0)
      by (apply IH; intros; apply Hall; by apply list_elem_of_further).
    lra.
Qed.

Lemma Qmean_zero qs :
  (0 < length qs)%nat → (∀ q, q ∈ qs → 0 <= q) →
  (Qmean qs == 0 ↔ ∀ q, q ∈ qs → q == 0).
Proof.
  intros Hlen H. rewrite <- (Qsum_zero qs H). unfold Qmean.
  assert (0 < inject_Z (Z.of_nat (length qs))).
  { change 0 with (inject_Z 0). rewrite <- Zlt_Qlt. lia. }
  split; intros Hz.
  - assert (Qsum qs == Qsum qs / inject_Z (Z.of_nat (length qs))
                       * inject_Z (Z.of_nat (length qs))) as -> by (field; lra).
    rewrite Hz. lra.
  - rewrite Hz. field. lra.
Qed.

Lemma Qsquare_nonneg a : 0 <= a * a.
Proof.
  destruct (Qlt_le_dec a 0).
  - assert (a * a == (- a) * (- a)) as -> by ring.
    apply Qmult_le_0_compat; lra.
  - apply Qmult_le_0_compat; lra.
Qed.

Lemma sample_var_nonneg qs v : sample_var qs = Some v → 0 <= v.
Proof.
  unfold sample_var. destruct (length qs) as [|[|n]]; try done.
  intros [= <-]. apply Qdiv_nonneg; [|apply inject_nat_nonneg].
  apply Qsum_nonneg. intros q [x [-> _]]%list_elem_of_fmap.
  apply Qsquare_nonneg.
Qed.
End Rolling.

Section Engine.
Import Pandas Indicators.
Variable sqrtQ : Q → Q.

(** The columns [calculate_indicators] writes, from the closes and the
    volumes of the table. *)
Lemma indicator_columns df close :
  columns df !! "Close" = Some close →
  let r := calculate_indicators_df sqrtQ df in
  index r.1 = index df ∧
  columns r.1 !! "MA20" = Some (rolling_mean 20 close) ∧
  columns r.1 !! "BB_upper" =
    Some (zip_with xadd (rolling_mean 20 close)
            ((λ s, xmul s (of_Z 2)) <$> rolling_std sqrtQ 20 close)) ∧
  columns r.1 !! "BB_lower" =
    Some (zip_with xsub (rolling_mean 20 close)
            ((λ s, xmul s (of_Z 2)) <$> rolling_std sqrtQ 20 close)) ∧
  columns r.1 !! "RSI" =
    Some (rsi_of_rs <$> zip_with xdiv (rsi_gain close) (rsi_loss close)) ∧
  match columns df !! "Volume" with
  | Some volume =>
      r.2 = None ∧ columns r.1 !! "Volume_MA20" = Some (rolling_mean 20 volume)
  | None => r.2 = Some KeyError
  end.
Proof.
  intros Hc r. subst r. unfold calculate_indicators_df. rewrite Hc.
  unfold setitem. cbn [columns index].
  rewrite !(lookup_insert_ne _ _ "Volume") by done.
  destruct (columns df !! "Volume") as [volume|]; cbn [fst snd columns index].
  - rewrite !lookup_insert_ne by done. rewrite !lookup_insert_eq.
    repeat split; try done.
    + by rewrite !lookup_insert_ne, lookup_insert_eq by done.
    + by rewrite !lookup_insert_ne, lookup_insert_eq by done.
    + by rewrite !lookup_insert_ne, lookup_insert_eq by done.
  - rewrite lookup_insert_eq.
    repeat split; try done.
    + by rewrite !lookup_insert_ne, lookup_insert_eq by done.
    + by rewrite !lookup_insert_ne, lookup_insert_eq by done.
    + by rewrite !lookup_insert_ne, lookup_insert_eq by done.
Qed.

(** The averaged gains and losses are not negative. *)
Lemma gain_nonneg (xs : series) q :
  Fin q ∈ where_ (λ d, xgtb d (of_Z 0)) (of_Z 0) xs → 0 <= q.
Proof.
  unfold where_. intros [d [Hd _]]%list_elem_of_fmap.
  destruct (xgtb d (of_Z 0)) eqn:Hg.
  - subst d. unfold xgtb, of_Z in Hg.
    destruct (q ?= inject_Z 0) eqn:Hc; try done.
    apply Qgt_alt in Hc. unfold inject_Z in Hc. lra.
  - unfold of_Z in Hd. injection Hd as ->. unfold inject_Z. lra.
Qed.

Lemma loss_nonneg (xs : series) q :
  Fin q ∈ xneg <$> where_ (λ d, xltb d (of_Z 0)) (of_Z 0) xs → 0 <= q.
Proof.
  unfold where_. rewrite <- list_fmap_compose.
  intros [d [Hd _]]%list_elem_of_fmap. unfold compose in Hd.
  destruct (xltb d (of_Z 0)) eqn:Hg.
  - destruct d as [a| | |]; try done. injection Hd as ->.
    unfold xltb, xgtb, of_Z in Hg.
    destruct (inject_Z 0 ?= a) eqn:Hc; try done.
    apply Qgt_alt in Hc. unfold inject_Z in Hc. lra.
  - unfold of_Z in Hd. simpl in Hd. injection Hd as ->. unfold inject_Z. simpl. lra.
Qed.

Lemma window_subseteq w (xs win : series) i :
  window w xs i = Some win → win ⊆ xs.
Proof.
  unfold window. case_decide; [|done]. intros [= <-].
  etrans; [apply subseteq_take|apply subseteq_drop].
Qed.

Lemma rolling_mean_nonneg w (xs : series) i x :
  (∀ q, Fin q ∈ xs → 0 <= q) →
  rolling_mean w xs !! i = Some x →
  x = NaN ∨ ∃ m, x = Fin m ∧ 0 <= m.
Proof.
  intros Hxs. unfold rolling_mean. rewrite rolling_lookup.
  destruct (xs !! i); [|done]. simpl.
  destruct (window w xs i) as [win|] eqn:Hw; [|intros [= <-]; by left].
  destruct (finite_values win) as [qs|] eqn:Hf; [|intros [= <-]; by left].
  intros [= <-]. right. eexists. split; [done|].
  apply Qmean_nonneg. intros q Hq. apply Hxs.
  apply (window_subseteq _ _ _ _ Hw).
  apply finite_values_Some in Hf. subst win. by apply list_elem_of_fmap_2.
Qed.

(** The index from averaged gains and losses: no value when both are
    zero, a value between 0 and 100 otherwise. *)
Lemma rsi_cases g l :
  0 <= g → 0 <= l →
  (g == 0 ∧ l == 0 ∧ rsi_of_rs (xdiv (Fin g) (Fin l)) = NaN) ∨
  (¬ (g == 0 ∧ l == 0) ∧
   ∃ q, rsi_of_rs (xdiv (Fin g) (Fin l)) = Fin q ∧ 0 <= q ∧ q <= 100).
Proof.
  intros Hg Hl. unfold rsi_of_rs, xdiv, Qsign.
  destruct (l ?= 0) eqn:Hlc.
  - apply Qeq_alt in Hlc.
    destruct (g ?= 0) eqn:Hgc.
    + apply Qeq_alt in Hgc. left. done.
    + apply Qlt_alt in Hgc. lra.
    + apply Qgt_alt in Hgc. right. split; [intros [? _]; lra|].
      eexists. split; [reflexivity|]. unfold inject_Z. split; lra.
  - apply Qlt_alt in Hlc. lra.
  - apply Qgt_alt in Hlc.
    assert (0 <= g / l) by (apply Qdiv_nonneg; lra).
    unfold xadd, of_Z, xdiv, Qsign.
    assert (0 < inject_Z 1 + g / l) as Hpos by (unfold inject_Z; lra).
    destruct (inject_Z 1 + g / l ?= 0) eqn:Hd.
    + apply Qeq_alt in Hd. lra.
    + apply Qlt_alt in Hd. lra.
    + right. split; [intros [_ ?]; lra|].
      eexists. split; [reflexivity|].
      assert (0 <= inject_Z 100 / (inject_Z 1 + g / l))
        by (apply Qdiv_nonneg; unfold inject_Z; lra).
      assert (inject_Z 100 / (inject_Z 1 + g / l) <= inject_Z 100).
      { apply Qle_shift_div_r; [done|]. unfold inject_Z in *. lra. }
      unfold inject_Z in *. split; lra.
Qed.

(** The cell of the RSI column, from the averaged gain and loss at the
    same row. *)
Lemma rsi_cell df close i v :
  columns df !! "Close" = Some close →
  cell (calculate_indicators_df sqrtQ df).1 "RSI" i = Some v →
  ∃ g l, rsi_gain close !! i = Some g ∧ rsi_loss close !! i = Some l ∧
         v = rsi_of_rs (xdiv g l).
Proof.
  intros Hc. destruct (indicator_columns df close Hc) as (_ & _ & _ & _ & Hrsi & _).
  unfold cell. rewrite Hrsi. simpl.
  rewrite list_lookup_fmap, lookup_zip_with.
  destruct (rsi_gain close !! i) as [g|]; [|done].
  destruct (rsi_loss close !! i) as [l|]; [|done].
  simpl. intros [= <-]. eauto.
Qed.

(** In the rational model, where no sum is rounded, the RSI stays in
    range: at every row where the column, computed as
    100 − 100 / (1 + rs) with rs the 14-bar mean of the gains over the
    14-bar mean of the losses, has a value, the value lies between 0 and
    100.  (The running sums of pandas do round, and break the bound: see
    the indicators on doubles below.) *)
Lemma rsi_bounded_without_rounding (df : DataFrame) (close : series) (i : nat) (v : xfloat) :
  columns df !! "Close" = Some close →
  cell (calculate_indicators_df sqrtQ df).1 "RSI" i = Some v →
  v ≠ NaN →
  ∃ g l q,
    rsi_gain close !! i = Some (Fin g) ∧
    rsi_loss close !! i = Some (Fin l) ∧
    v = xsub (of_Z 100) (xdiv (of_Z 100) (xadd (of_Z 1) (xdiv (Fin g) (Fin l)))) ∧
    v = Fin q ∧ 0 <= q ∧ q <= 100.
Proof.
  intros Hc Hcell Hv.
  destruct (rsi_cell df close i v Hc Hcell) as (g & l & Hg & Hl & ->).
  destruct (rolling_mean_nonneg _ _ _ _ (gain_nonneg _) Hg) as [->|(gq & -> & Hgq)];
    [done|].
  destruct (rolling_mean_nonneg _ _ _ _ (loss_nonneg _) Hl) as [->|(lq & -> & Hlq)].
  { by destruct Hv. }
  destruct (rsi_cases gq lq Hgq Hlq) as [(_ & _ & Hnan)|(_ & q & Hq & ? & ?)];
    [done|].
  exists gq, lq, q. done.
Qed.
End Engine.

Section Loop.
Import Pandas Indicators.
Variable sqrtQ : Q → Q.

(** The loop of [calculate_indicators] over tables that all have closes
    and volumes: no exception, every table that is not empty gets its
    indicator columns, in place. *)
Lemma calculate_indicators_tables (data : list (string * DataFrame)) :
  (∀ symbol df, (symbol, df) ∈ data → empty df = false →
     is_Some (columns df !! "Close") ∧ is_Some (columns df !! "Volume")) →
  calculate_indicators sqrtQ data =
    ((λ p, (p.1, if empty p.2 then p.2 else (calculate_indicators_df sqrtQ p.2).1))
       <$> data, None).
Proof.
  induction data as [|[symbol df] data IH]; intros Hok; [done|].
  simpl. rewrite IH by (intros; eapply Hok; [by apply list_elem_of_further|done]).
  destruct (empty df) eqn:He; [done|].
  destruct (Hok symbol df (list_elem_of_here _ _) He) as [[close Hc] [volume Hv]].
  destruct (indicator_columns sqrtQ df close Hc) as (_ & _ & _ & _ & _ & Hvol).
  rewrite Hv in Hvol. destruct Hvol as [Hnone _].
  destruct (calculate_indicators_df sqrtQ df) as [df' ex]. simpl in *. by subst ex.
Qed.
End Loop.

Section Bollinger.
Import Pandas Indicators.
Variable sqrtQ : Q → Q.
Hypothesis sqrtQ_nonneg : ∀ x, 0 <= x → 0 <= sqrtQ x.

Lemma rolling_std_nonneg w (xs : series) i x :
  rolling_std sqrtQ w xs !! i = Some x →
  x = NaN ∨ ∃ sd, x = Fin sd ∧ 0 <= sd.
Proof.
  unfold rolling_std. rewrite rolling_lookup.
  destruct (xs !! i); [|done]. simpl.
  destruct (window w xs i) as [win|]; [|intros [= <-]; by left].
  destruct (finite_values win) as [qs|]; [|intros [= <-]; by left].
  destruct (sample_var qs) as [v|] eqn:Hv; [|intros [= <-]; by left].
  intros [= <-]. right. eexists. split; [done|].
  apply sqrtQ_nonneg. by eapply sample_var_nonneg.
Qed.

(** C8: at every row where MA20, BB_upper and BB_lower all have a
    value, BB_upper is MA20 plus twice the 20-bar standard deviation of
    the closes, BB_lower is MA20 minus twice that deviation, and
    BB_lower ≤ MA20 ≤ BB_upper. *)
Theorem C8_bollinger_order (df : DataFrame) (close : series) (i : nat) (m u l : Q) :
  columns df !! "Close" = Some close →
  cell (calculate_indicators_df sqrtQ df).1 "MA20" i = Some (Fin m) →
  cell (calculate_indicators_df sqrtQ df).1 "BB_upper" i = Some (Fin u) →
  cell (calculate_indicators_df sqrtQ df).1 "BB_lower" i = Some (Fin l) →
  ∃ sd,
    rolling_mean 20 close !! i = Some (Fin m) ∧
    rolling_std sqrtQ 20 close !! i = Some (Fin sd) ∧
    Fin u = xadd (Fin m) (xmul (Fin sd) (of_Z 2)) ∧
    Fin l = xsub (Fin m) (xmul (Fin sd) (of_Z 2)) ∧
    l <= m ∧ m <= u.
Proof.
  intros Hc.
  destruct (indicator_columns sqrtQ df close Hc) as (_ & Hma & Hup & Hlo & _).
  unfold cell. rewrite Hma, Hup, Hlo. simpl.
  rewrite !lookup_zip_with, !list_lookup_fmap.
  intros ->. simpl.
  destruct (rolling_std sqrtQ 20 close !! i) as [s|] eqn:Hs; [|done]. simpl.
  intros [= Hu] [= Hl].
  destruct (rolling_std_nonneg _ _ _ _ Hs) as [->|(sd & -> & Hsd)]; [done|].
  exists sd. split; [done|]. split; [done|].
  split; [done|]. split; [done|].
  unfold xmul, of_Z, xsub, xadd, xneg in Hu, Hl.
  injection Hu as <-. injection Hl as <-.
  unfold inject_Z. split; lra.
Qed.
End Bollinger.

Section Definedness.
Import Pandas Indicators.
Variable sqrtQ : Q → Q.

Lemma rolling_is_Some agg w (xs : series) i :
  (i < length xs)%nat → ∃ x, rolling agg w xs !! i = Some x.
Proof.
  intros Hi. rewrite rolling_lookup.
  destruct (lookup_lt_is_Some_2 xs i Hi) as [x ->]. simpl. eauto.
Qed.

(** A 20-bar mean over a series without gaps. *)
Lemma mean20_defined (qs : list Q) i :
  (i < length qs)%nat →
  ∃ x, rolling_mean 20 (Fin <$> qs) !! i = Some x ∧
       ((i < 19)%nat → x = NaN) ∧ ((19 ≤ i)%nat → is_finite x = true).
Proof.
  intros Hi. unfold rolling_mean.
  destruct (rolling_is_Some (λ qs, Fin (Qmean qs)) 20 (Fin <$> qs) i) as [x Hx];
    [by rewrite length_fmap|].
  exists x. split; [done|]. split.
  - intros. eapply rolling_early; [|done]. lia.
  - intros. destruct (rolling_finite (λ qs, Fin (Qmean qs)) 20 qs i) as [Hr _];
      [done|lia|]. rewrite Hr in Hx. by injection Hx as <-.
Qed.

Lemma std20_defined (qs : list Q) i :
  (i < length qs)%nat →
  ∃ x, rolling_std sqrtQ 20 (Fin <$> qs) !! i = Some x ∧
       ((i < 19)%nat → x = NaN) ∧ ((19 ≤ i)%nat → is_finite x = true).
Proof.
  intros Hi. unfold rolling_std.
  destruct (rolling_is_Some
    (λ qs, match sample_var qs with Some v => Fin (sqrtQ v) | None => NaN end)
    20 (Fin <$> qs) i) as [x Hx]; [by rewrite length_fmap|].
  exists x. split; [done|]. split.
  - intros. eapply rolling_early; [|done]. lia.
  - intros. destruct (rolling_finite
      (λ qs, match sample_var qs with Some v => Fin (sqrtQ v) | None => NaN end)
      20 qs i) as [Hr Hlen]; [done|lia|].
    rewrite Hr in Hx. injection Hx as <-.
    destruct (sample_var _) eqn:Hsv; [done|].
    unfold sample_var in Hsv. by rewrite Hlen in Hsv.
Qed.

(** The band columns at a row, from the mean and the deviation. *)
Lemma band_defined (op : xfloat → xfloat → xfloat) (qs : list Q) i :
  (∀ a b, is_finite (op (Fin a) (Fin b)) = true) →
  (∀ y, op NaN y = NaN) →
  (i < length qs)%nat →
  ∃ x, zip_with op (rolling_mean 20 (Fin <$> qs))
         ((λ s, xmul s (of_Z 2)) <$> rolling_std sqrtQ 20 (Fin <$> qs)) !! i = Some x ∧
       ((i < 19)%nat → x = NaN) ∧ ((19 ≤ i)%nat → is_finite x = true).
Proof.
  intros Hfin Hnan Hi.
  destruct (mean20_defined qs i Hi) as (m & Hm & Hm1 & Hm2).
  destruct (std20_defined qs i Hi) as (s & Hs & Hs1 & Hs2).
  rewrite lookup_zip_with, list_lookup_fmap, Hm, Hs. simpl.
  eexists. split; [done|]. split.
  - intros. rewrite Hm1 by done. apply Hnan.
  - intros. specialize (Hm2 ltac:(done)). specialize (Hs2 ltac:(done)).
    destruct m, s; try done. apply Hfin.
Qed.

Lemma length_diff (xs : series) : length (diff xs) = length xs.
Proof.
  destruct xs as [|x rest]; simpl; [done|].
  rewrite length_zip_with. simpl. lia.
Qed.

Lemma diff_lookup_0 (xs : series) x : xs !! 0%nat = Some x → diff xs !! 0%nat = Some NaN.
Proof. by destruct xs. Qed.

Lemma diff_lookup_S (xs : series) k a b :
  xs !! S k = Some a → xs !! k = Some b → diff xs !! S k = Some (xsub a b).
Proof.
  destruct xs as [|x rest]; [done|]. simpl. intros Ha Hb.
  rewrite lookup_zip_with, Ha. simpl. by rewrite Hb.
Qed.

(** The gain and the loss of one step: neither is negative, and both
    are zero exactly when the close did not change. *)
Lemma up_down (d : Q) :
  ∃ g l,
    (if xgtb (Fin d) (of_Z 0) then Fin d else of_Z 0) = Fin g ∧
    xneg (if xltb (Fin d) (of_Z 0) then Fin d else of_Z 0) = Fin l ∧
    0 <= g ∧ 0 <= l ∧ (g == 0 ∧ l == 0 ↔ d == 0).
Proof.
  unfold xltb, xgtb, of_Z.
  rewrite <- (Qcompare_antisym d (inject_Z 0)).
  destruct (d ?= inject_Z 0) eqn:Hc; simpl.
  - apply Qeq_alt in Hc. unfold inject_Z in *.
    eexists _, _. split; [done|]. split; [done|]. simpl. lra.
  - apply Qlt_alt in Hc. unfold inject_Z in *.
    eexists _, _. split; [done|]. split; [done|]. simpl. lra.
  - apply Qgt_alt in Hc. unfold inject_Z in *.
    eexists _, _. split; [done|]. split; [done|]. simpl. lra.
Qed.

Lemma gain_loss_at (cq : list Q) j :
  (j < length cq)%nat →
  ∃ g l,
    where_ (λ d, xgtb d (of_Z 0)) (of_Z 0) (diff (Fin <$> cq)) !! j = Some (Fin g) ∧
    (xneg <$> where_ (λ d, xltb d (of_Z 0)) (of_Z 0) (diff (Fin <$> cq))) !! j
      = Some (Fin l) ∧
    0 <= g ∧ 0 <= l ∧
    (g == 0 ∧ l == 0 ↔
     ∀ a b, (1 ≤ j)%nat → cq !! j = Some a → cq !! (j - 1)%nat = Some b → a == b).
Proof.
  intros Hj. unfold where_. rewrite !list_lookup_fmap.
  destruct j as [|k].
  - destruct (lookup_lt_is_Some_2 cq 0 Hj) as [a Ha].
    rewrite (diff_lookup_0 _ (Fin a)) by (by rewrite list_lookup_fmap, Ha).
    simpl. unfold of_Z. simpl.
    eexists _, _. split; [done|]. split; [done|].
    unfold inject_Z. simpl. split; [lra|]. split; [lra|].
    split; [intros; lia|]. intros _. split; lra.
  - destruct (lookup_lt_is_Some_2 cq (S k) Hj) as [a Ha].
    destruct (lookup_lt_is_Some_2 cq k) as [b Hb]; [lia|].
    rewrite (diff_lookup_S _ _ (Fin a) (Fin b))
      by (by rewrite list_lookup_fmap, ?Ha, ?Hb).
    change (xsub (Fin a) (Fin b)) with (Fin (a + - b)).
    cbn [fmap option_fmap option_map].
    destruct (up_down (a + - b)) as (g & l & -> & -> & Hg & Hl & Hz).
    exists g, l. split; [done|]. split; [done|]. split; [done|]. split; [done|].
    rewrite Hz. replace (S k - 1)%nat with k by lia. split.
    + intros Hd a' b' _. rewrite Ha, Hb. intros [= <-] [= <-]. lra.
    + intros Hall. specialize (Hall a b ltac:(lia) Ha Hb). lra.
Qed.

Lemma all_finite_fmap (xs : series) :
  (∀ j, (j < length xs)%nat → ∃ q, xs !! j = Some (Fin q)) →
  ∃ qs, xs = Fin <$> qs.
Proof.
  induction xs as [|x xs IH]; intros H.
  { by exists []. }
  destruct (H 0%nat) as [q Hq]; [simpl; lia|]. simpl in Hq. injection Hq as ->.
  destruct IH as [qs ->].
  { intros j Hj. apply (H (S j)). simpl. lia. }
  by exists (q :: qs).
Qed.

Lemma window_elem {A} (xs : list A) w i x :
  (w ≤ S i)%nat →
  x ∈ take w (drop (S i - w) xs) ↔
  ∃ j, (S i - w ≤ j ≤ i)%nat ∧ xs !! j = Some x.
Proof.
  intros Hw. rewrite elem_of_take. setoid_rewrite lookup_drop. split.
  - intros (k & Hk & ?). exists (S i - w + k)%nat. split; [lia|done].
  - intros (j & Hj & Hx). exists (j - (S i - w))%nat.
    split; [|lia]. by replace (S i - w + (j - (S i - w)))%nat with j by lia.
Qed.

(** The RSI column over closes without gaps. *)
Lemma rsi_defined (cq : list Q) i :
  (i < length cq)%nat →
  ∃ x,
    (rsi_of_rs <$> zip_with xdiv (rsi_gain (Fin <$> cq)) (rsi_loss (Fin <$> cq))) !! i
      = Some x ∧
    ((i < 13)%nat → x = NaN) ∧
    ((13 ≤ i)%nat →
       (x = NaN ↔ flat_window cq i) ∧
       (x ≠ NaN → ∃ q, x = Fin q ∧ 0 <= q ∧ q <= 100)).
Proof.
  intros Hi. unfold rsi_gain, rsi_loss.
  set (G := where_ (λ d, xgtb d (of_Z 0)) (of_Z 0) (diff (Fin <$> cq))).
  set (L := xneg <$> where_ (λ d, xltb d (of_Z 0)) (of_Z 0) (diff (Fin <$> cq))).
  assert (HlenG : length G = length cq).
  { unfold G, where_. by rewrite length_fmap, length_diff, length_fmap. }
  assert (HlenL : length L = length cq).
  { unfold L, where_. by rewrite !length_fmap, length_diff, length_fmap. }
  destruct (all_finite_fmap G) as [gq HG].
  { intros j Hj. destruct (gain_loss_at cq j) as (g & _ & Hg & _); [lia|]. eauto. }
  destruct (all_finite_fmap L) as [lq HL].
  { intros j Hj. destruct (gain_loss_at cq j) as (_ & l & _ & Hl & _); [lia|]. eauto. }
  assert (Hgq : length gq = length cq) by (by rewrite <- HlenG, HG, length_fmap).
  assert (Hlq : length lq = length cq) by (by rewrite <- HlenL, HL, length_fmap).
  assert (Hat : ∀ j, (j < length cq)%nat → ∃ g l,
            gq !! j = Some g ∧ lq !! j = Some l ∧ 0 <= g ∧ 0 <= l ∧
            (g == 0 ∧ l == 0 ↔
             ∀ a b, (1 ≤ j)%nat → cq !! j = Some a → cq !! (j - 1)%nat = Some b →
                    a == b)).
  { intros j Hj. destruct (gain_loss_at cq j Hj) as (g & l & Hg & Hl & ? & ? & ?).
    fold G in Hg. fold L in Hl. rewrite HG, list_lookup_fmap in Hg.
    rewrite HL, list_lookup_fmap in Hl.
    destruct (gq !! j) as [g'|]; [|done]. destruct (lq !! j) as [l'|]; [|done].
    simpl in *. injection Hg as ->. injection Hl as ->. exists g, l. done. }
  clearbody G L. subst G L.
  rewrite list_lookup_fmap, lookup_zip_with. unfold rolling_mean.
  destruct (Nat.lt_ge_cases i 13) as [Hearly|Hlate].
  - destruct (rolling_is_Some (λ qs, Fin (Qmean qs)) 14 (Fin <$> gq) i) as [g Hg];
      [rewrite length_fmap; lia|].
    destruct (rolling_is_Some (λ qs, Fin (Qmean qs)) 14 (Fin <$> lq) i) as [l Hl];
      [rewrite length_fmap; lia|].
    rewrite Hg, Hl. simpl.
    apply rolling_early in Hg; [|lia]. subst g.
    eexists. split; [done|]. split; [done|]. lia.
  - destruct (rolling_finite (λ qs, Fin (Qmean qs)) 14 gq i) as [-> Hgl]; [lia..|].
    destruct (rolling_finite (λ qs, Fin (Qmean qs)) 14 lq i) as [-> Hll]; [lia..|].
    set (gw := take 14 (drop (S i - 14) gq)) in *.
    set (lw := take 14 (drop (S i - 14) lq)) in *.
    exists (rsi_of_rs (xdiv (Fin (Qmean gw)) (Fin (Qmean lw)))).
    split; [done|]. split; [lia|]. intros _.
    assert (Hgw : ∀ q, q ∈ gw → 0 <= q).
    { intros q (j & Hj & Hq)%window_elem; [|lia].
      destruct (Hat j) as (g & l & Hg & _ & ? & _);
        [apply lookup_lt_Some in Hq; lia|]. congruence. }
    assert (Hlw : ∀ q, q ∈ lw → 0 <= q).
    { intros q (j & Hj & Hq)%window_elem; [|lia].
      destruct (Hat j) as (g & l & _ & Hl & _ & ? & _);
        [apply lookup_lt_Some in Hq; lia|]. congruence. }
    assert (Hflat : (Qmean gw == 0 ∧ Qmean lw == 0) ↔ flat_window cq i).
    { rewrite (Qmean_zero gw) by (done || lia).
      rewrite (Qmean_zero lw) by (done || lia).
      unfold flat_window. split.
      - intros [Hg0 Hl0] j a b Hj H1 Ha Hb.
        destruct (Hat j) as (g & l & Hg & Hl & _ & _ & Hz); [lia|].
        apply Hz; [|done..]. split.
        + apply Hg0. apply window_elem; [lia|]. exists j. split; [lia|done].
        + apply Hl0. apply window_elem; [lia|]. exists j. split; [lia|done].
      - intros Hfl. split.
        + intros q (j & Hj & Hq)%window_elem; [|lia].
          destruct (Hat j) as (g & l & Hg & Hl & _ & _ & Hz);
            [apply lookup_lt_Some in Hq; lia|].
          assert (g == 0 ∧ l == 0) as [? _].
          { apply Hz. intros a b ? ? ?. apply (Hfl j); [lia|done..]. }
          congruence.
        + intros q (j & Hj & Hq)%window_elem; [|lia].
          destruct (Hat j) as (g & l & Hg & Hl & _ & _ & Hz);
            [apply lookup_lt_Some in Hq; lia|].
          assert (g == 0 ∧ l == 0) as [_ ?].
          { apply Hz. intros a b ? ? ?. apply (Hfl j); [lia|done..]. }
          congruence. }
    destruct (rsi_cases (Qmean gw) (Qmean lw)) as [(Hg0 & Hl0 & ->)|(Hnz & q & -> & Hq)];
      [by apply Qmean_nonneg..| |].
    + split; [|done]. split; [intros _; by apply Hflat|done].
    + split; [|by eauto]. split; [done|]. intros Hfl. destruct Hnz. by apply Hflat.
Qed.

(** In the rational model, on a table whose closes and volumes are all
    present, each 20-bar column (MA20, BB_upper, BB_lower, Volume_MA20)
    has no value at the rows before row 19 and a value from row 19 on;
    the RSI column has no value before row 13, and from row 13 on it has
    a value unless the closes did not change over the 14 steps that end
    at the row.  (On doubles only the rows without a value carry over:
    see the indicators on doubles below.) *)
Lemma definedness_without_rounding (df : DataFrame) (cq vq : list Q) :
  columns df !! "Close" = Some (Fin <$> cq) →
  columns df !! "Volume" = Some (Fin <$> vq) →
  length cq = len df →
  length vq = len df →
  (calculate_indicators_df sqrtQ df).2 = None ∧
  ∀ i, (i < len df)%nat →
    (∀ c, c ∈ ["MA20"; "BB_upper"; "BB_lower"; "Volume_MA20"] →
       ∃ x, cell (calculate_indicators_df sqrtQ df).1 c i = Some x ∧
            ((i < 19)%nat → x = NaN) ∧ ((19 ≤ i)%nat → is_finite x = true)) ∧
    ∃ x, cell (calculate_indicators_df sqrtQ df).1 "RSI" i = Some x ∧
         ((i < 13)%nat → x = NaN) ∧
         ((13 ≤ i)%nat →
            (x = NaN ↔ flat_window cq i) ∧
            (x ≠ NaN → ∃ q, x = Fin q ∧ 0 <= q ∧ q <= 100)).
Proof.
  intros Hc Hv Hlc Hlv.
  destruct (indicator_columns sqrtQ df _ Hc) as (_ & Hma & Hup & Hlo & Hrsi & Hvol).
  rewrite Hv in Hvol. destruct Hvol as [Hnone Hvma].
  split; [done|]. intros i Hi. split.
  - intros c Hin. unfold cell.
    repeat (apply elem_of_cons in Hin as [->|Hin]).
    + rewrite Hma. simpl. apply mean20_defined. lia.
    + rewrite Hup. simpl. apply band_defined; [done|done|lia].
    + rewrite Hlo. simpl. apply band_defined; [done|done|lia].
    + rewrite Hvma. simpl. apply mean20_defined. lia.
    + by apply not_elem_of_nil in Hin.
  - unfold cell. rewrite Hrsi. simpl. apply rsi_defined. lia.
Qed.
End Definedness.

(** The sample square root is not negative. *)
Lemma isqrtQ_nonneg x : 0 <= x → 0 <= Indicators.isqrtQ x.
Proof.
  intros _. unfold Indicators.isqrtQ, Qle. simpl.
  rewrite Z.mul_1_r. apply Z.sqrt_nonneg.
Qed.

(** C8 at the last of 25 rising closes. *)
Lemma C8_bollinger_order_witness :
  ∃ m u l sd,
    Pandas.rolling_mean 20 (Fin <$> Sample.rising 25) !! 24%nat = Some (Fin m) ∧
    Pandas.rolling_std Indicators.isqrtQ 20 (Fin <$> Sample.rising 25) !! 24%nat
      = Some (Fin sd) ∧
    Fin u = xadd (Fin m) (xmul (Fin sd) (of_Z 2)) ∧
    Fin l = xsub (Fin m) (xmul (Fin sd) (of_Z 2)) ∧
    l <= m ∧ m <= u.
Proof.
  eexists _, _, _.
  eapply (C8_bollinger_order Indicators.isqrtQ isqrtQ_nonneg
            (Sample.table (Sample.rising 25)) (Fin <$> Sample.rising 25) 24).
  - reflexivity.
  - vm_compute. reflexivity.
  - vm_compute. reflexivity.
  - vm_compute. reflexivity.
Defined.

(** ** The indicators on doubles *)

Section DoubleFacts.
Import Binary64.

Lemma fadd_nan_l y : fadd nan y = nan.
Proof. done. Qed.

Lemma fsub_nan_l y : fsub nan y = nan.
Proof. done. Qed.

Lemma fdiv_nan_l y : fdiv nan y = nan.
Proof. done. Qed.

Lemma fadd_nan_r x : fadd x nan = nan.
Proof. by destruct x. Qed.

Lemma fdiv_nan_r x : fdiv x nan = nan.
Proof. by destruct x. Qed.

(** A double minus itself is [+0], or NaN when the double is not
    finite. *)
Lemma fsub_diag x : fsub x x = S754_zero false ∨ fsub x x = nan.
Proof.
  destruct x as [[]|[]| |s m e]; auto.
  left. unfold fsub, SFsub. by rewrite Z.sub_diag.
Qed.

End DoubleFacts.

(** *** Slices and fixed bounds *)

Section Slices.
Import Aggregations.

Lemma slice_nil {A} (s : nat) (values : list A) : slice s s values = [].
Proof. unfold slice. by rewrite Nat.sub_diag. Qed.

Lemma slice_snoc {A} (s e : nat) (values : list A) v :
  (s ≤ e)%nat → values !! e = Some v →
  slice s (S e) values = slice s e values ++ [v].
Proof.
  intros Hse He. unfold slice.
  replace (S e - s)%nat with (S (e - s)) by lia.
  apply take_S_r. rewrite lookup_drop.
  by replace (s + (e - s))%nat with e by lia.
Qed.

Lemma slice_cons {A} (s e : nat) (values : list A) u :
  (s < e)%nat → values !! s = Some u →
  slice s e values = u :: slice (S s) e values.
Proof.
  intros Hse Hs. unfold slice.
  replace (e - s)%nat with (S (e - S s)) by lia.
  by rewrite (drop_S _ _ _ Hs).
Qed.

Lemma slice_single {A} (j : nat) (values : list A) v :
  values !! j = Some v → slice j (S j) values = [v].
Proof.
  intros Hj. rewrite (slice_snoc j j values v) by done.
  by rewrite slice_nil.
Qed.

Lemma length_slice {A} (s e : nat) (values : list A) :
  (length (slice s e values) ≤ e - s)%nat.
Proof. unfold slice. rewrite length_take. lia. Qed.

Lemma observations_app vs ws :
  observations (vs ++ ws) = (observations vs + observations ws)%Z.
Proof.
  induction vs as [|v vs IH]; simpl; [done|].
  rewrite IH. destruct (observed v); lia.
Qed.

Lemma observations_bounds vs :
  (0 ≤ observations vs ≤ Z.of_nat (length vs))%Z.
Proof.
  induction vs as [|v vs IH]; simpl; [done|].
  destruct (observed v); lia.
Qed.

Lemma length_get_window_bounds n w : length (get_window_bounds n w) = n.
Proof. unfold get_window_bounds. by rewrite length_fmap, length_seq. Qed.

Lemma length_prep_values xs : length (_prep_values xs) = length xs.
Proof. unfold _prep_values. by rewrite length_fmap. Qed.

End Slices.

(** *** The running mean *)

Section MeanKernel.
Import Binary64 Aggregations Aggregations.Mean.

(** The loop of [roll_mean] over the bounds of a fixed window visits the
    states [mean_state_at]. *)
Lemma mean_loop_states values w minp k m :
  loop values minp
    (match k with
     | O => None
     | S j => Some ((bounds_at w j).1, (bounds_at w j).2, mean_state_at values w j)
     end)
    (bounds_at w <$> seq k m)
  = (λ i, calc_mean minp (mean_state_at values w i)) <$> seq k m.
Proof.
  revert k. induction m as [|m IH]; intros k; [done|].
  cbn [seq fmap list_fmap loop]. f_equal.
  - by destruct k.
  - rewrite <- (IH (S k)). by destruct k.
Qed.

Lemma rolling_mean_lookup (w : nat) (xs : list double) (i : nat) :
  (i < length xs)%nat →
  Pandas64.rolling_mean w xs !! i =
  Some (calc_mean (Z.of_nat w) (mean_state_at (_prep_values xs) w i)).
Proof.
  intros Hi. unfold Pandas64.rolling_mean, roll_mean, get_window_bounds.
  change (λ i0 : nat, ((i0 + 1 - w)%nat, (i0 + 1)%nat)) with (bounds_at w).
  rewrite (mean_loop_states _ w _ 0).
  rewrite list_lookup_fmap, lookup_seq_lt by done. done.
Qed.

Lemma length_rolling_mean (w : nat) (xs : list double) :
  length (Pandas64.rolling_mean w xs) = length xs.
Proof.
  unfold Pandas64.rolling_mean, roll_mean, get_window_bounds.
  change (λ i0 : nat, ((i0 + 1 - w)%nat, (i0 + 1)%nat)) with (bounds_at w).
  rewrite (mean_loop_states _ w _ 0). by rewrite length_fmap, length_seq.
Qed.

(** The three shapes of a step of a window of two or more values. *)
Lemma mean_state_at_0 values w v :
  (1 ≤ w)%nat → values !! 0%nat = Some v →
  mean_state_at values w 0 = add_mean (setup values 0) v.
Proof.
  intros Hw Hv. cbn [mean_state_at]. unfold window_state, bounds_at. cbn [fst snd].
  rewrite !Nat.add_1_r.
  replace (1 - w)%nat with 0%nat by lia.
  by rewrite (slice_single 0 values v).
Qed.

Lemma mean_state_at_early values w j v :
  (2 ≤ w)%nat → (S j < w)%nat → values !! S j = Some v →
  mean_state_at values w (S j) = add_mean (mean_state_at values w j) v.
Proof.
  intros Hw Hj Hv. cbn [mean_state_at]. unfold window_state, bounds_at. cbn [fst snd].
  rewrite !Nat.add_1_r.
  rewrite decide_False by lia.
  replace (S j - w)%nat with 0%nat by lia.
  replace (S (S j) - w)%nat with 0%nat by lia.
  by rewrite slice_nil, (slice_single (S j) values v).
Qed.

Lemma mean_state_at_late values w j v u :
  (2 ≤ w)%nat → (w ≤ S j)%nat → values !! S j = Some v →
  values !! (S j - w)%nat = Some u →
  mean_state_at values w (S j) =
  add_mean (remove_mean (mean_state_at values w j) u) v.
Proof.
  intros Hw Hj Hv Hu. cbn [mean_state_at]. unfold window_state, bounds_at. cbn [fst snd].
  rewrite !Nat.add_1_r.
  rewrite decide_False by lia.
  replace (S (S j) - w)%nat with (S (S j - w)) by lia.
  by rewrite (slice_single (S j - w) values u), (slice_single (S j) values v).
Qed.

Lemma nobs_add_mean st v :
  nobs (add_mean st v) = (if observed v then nobs st + 1 else nobs st)%Z.
Proof. unfold add_mean, observed. by destruct (feq v v). Qed.

Lemma nobs_remove_mean st v :
  nobs (remove_mean st v) = (if observed v then nobs st - 1 else nobs st)%Z.
Proof. unfold remove_mean, observed. by destruct (feq v v). Qed.

(** [nobs] is the number of counted values of the window. *)
Lemma mean_nobs values w i :
  (2 ≤ w)%nat → (i < length values)%nat →
  nobs (mean_state_at values w i) =
  observations (slice (S i - w) (S i) values).
Proof.
  intros Hw. induction i as [|j IH]; intros Hi.
  - destruct (lookup_lt_is_Some_2 values 0 Hi) as [v Hv].
    rewrite (mean_state_at_0 values w v) by (done || lia).
    replace (1 - w)%nat with 0%nat by lia.
    rewrite (slice_single 0 values v) by done.
    rewrite nobs_add_mean. simpl. by destruct (observed v).
  - destruct (lookup_lt_is_Some_2 values (S j) Hi) as [v Hv].
    specialize (IH ltac:(lia)).
    destruct (decide (S j < w)%nat) as [Hearly|Hlate].
    + rewrite (mean_state_at_early values w j v) by done.
      rewrite nobs_add_mean, IH.
      replace (S j - w)%nat with 0%nat by lia.
      replace (S (S j) - w)%nat with 0%nat by lia.
      rewrite (slice_snoc 0 (S j) values v) by (lia || done).
      rewrite observations_app. simpl. destruct (observed v); lia.
    + assert (is_Some (values !! (S j - w)%nat)) as [u Hu].
      { apply lookup_lt_is_Some_2. lia. }
      rewrite (mean_state_at_late values w j v u) by (done || lia).
      rewrite nobs_add_mean, nobs_remove_mean, IH.
      rewrite (slice_cons (S j - w) (S j) values u) by (lia || done).
      replace (S (S j) - w)%nat with (S (S j - w)) by lia.
      rewrite (slice_snoc (S (S j - w)) (S j) values v) by (lia || done).
      rewrite observations_app. simpl.
      destruct (observed u), (observed v); lia.
Qed.

(** Before the window is full the mean has no value, whatever the
    cells hold. *)
Lemma rolling_mean_warm_up (w : nat) (xs : list double) (i : nat) :
  (2 ≤ w)%nat → (i + 1 < w)%nat → (i < length xs)%nat →
  Pandas64.rolling_mean w xs !! i = Some nan.
Proof.
  intros Hw Hiw Hi. rewrite rolling_mean_lookup by done. f_equal.
  unfold calc_mean.
  rewrite mean_nobs by (done || by rewrite length_prep_values).
  pose proof (observations_bounds (slice (S i - w) (S i) (_prep_values xs))) as Hb.
  pose proof (length_slice (S i - w) (S i) (_prep_values xs)) as Hl.
  assert ((Z.of_nat w <=? observations (slice (S i - w) (S i) (_prep_values xs)))%Z
          = false) as -> by (apply Z.leb_gt; lia).
  done.
Qed.

(** A step adds the row's value to a state that has the count of equal
    values and the previous value of the state before. *)
Lemma mean_state_at_S values w j v :
  (2 ≤ w)%nat → (S j < length values)%nat → values !! S j = Some v →
  ∃ st, mean_state_at values w (S j) = add_mean st v ∧
        num_consecutive_same_value st =
          num_consecutive_same_value (mean_state_at values w j) ∧
        prev_value st = prev_value (mean_state_at values w j).
Proof.
  intros Hw Hj Hv. destruct (decide (S j < w)%nat) as [Hearly|Hlate].
  - exists (mean_state_at values w j). by rewrite (mean_state_at_early values w j v).
  - assert (is_Some (values !! (S j - w)%nat)) as [u Hu].
    { apply lookup_lt_is_Some_2. lia. }
    exists (remove_mean (mean_state_at values w j) u).
    rewrite (mean_state_at_late values w j v u) by (done || lia).
    split; [done|]. unfold remove_mean. by destruct (feq u u).
Qed.

Lemma same_value_count_nonneg values w i :
  (2 ≤ w)%nat → (i < length values)%nat →
  (0 ≤ num_consecutive_same_value (mean_state_at values w i))%Z.
Proof.
  intros Hw. induction i as [|j IH]; intros Hi.
  - destruct (lookup_lt_is_Some_2 values 0 Hi) as [v Hv].
    rewrite (mean_state_at_0 values w v) by (done || lia).
    unfold add_mean. destruct (feq v v); [|done]. simpl.
    destruct (feq v _); lia.
  - destruct (lookup_lt_is_Some_2 values (S j) Hi) as [v Hv].
    destruct (mean_state_at_S values w j v Hw Hi Hv) as (st & -> & Hn & _).
    specialize (IH ltac:(lia)). rewrite <- Hn in IH.
    unfold add_mean. destruct (feq v v); [|done]. simpl.
    destruct (feq v _); lia.
Qed.

(** After [k] equal values in a row the state has counted them and
    remembers the value. *)
Lemma mean_run values w v i k :
  (2 ≤ w)%nat → (i < length values)%nat → (1 ≤ k ≤ S i)%nat →
  observed v = true →
  (∀ j, (S i - k ≤ j ≤ i)%nat → values !! j = Some v) →
  (Z.of_nat k ≤ num_consecutive_same_value (mean_state_at values w i))%Z ∧
  prev_value (mean_state_at values w i) = v.
Proof.
  intros Hw. revert k. induction i as [|j IH]; intros k Hi Hk Hobs Hall.
  - assert (k = 1%nat) as -> by lia.
    rewrite (mean_state_at_0 values w v) by (lia || apply Hall; lia).
    unfold add_mean. unfold observed in Hobs. rewrite Hobs. simpl.
    rewrite (Hall 0%nat) by lia. simpl. by rewrite Hobs.
  - assert (values !! S j = Some v) as Hv by (apply Hall; lia).
    destruct (mean_state_at_S values w j v Hw Hi Hv) as (st & -> & Hn & Hp).
    unfold add_mean. pose proof Hobs as Hobs'. unfold observed in Hobs'.
    rewrite Hobs'. simpl. split; [|done]. rewrite Hn, Hp.
    destruct (decide (k = 1%nat)) as [->|Hk1].
    + pose proof (same_value_count_nonneg values w j Hw ltac:(lia)).
      destruct (feq v (prev_value (mean_state_at values w j))); lia.
    + destruct (IH (k - 1)%nat ltac:(lia) ltac:(lia) Hobs) as [Hge ->].
      { intros i Hi'. apply Hall. lia. }
      rewrite Hobs'. lia.
Qed.

Lemma observations_constant values v s n :
  observed v = true →
  (∀ j, (s ≤ j < s + n)%nat → values !! j = Some v) →
  observations (slice s (s + n) values) = Z.of_nat n.
Proof.
  intros Hobs. induction n as [|n IH]; intros Hall.
  - by rewrite Nat.add_0_r, slice_nil.
  - replace (s + S n)%nat with (S (s + n)) by lia.
    rewrite (slice_snoc s (s + n) values v) by (lia || apply Hall; lia).
    rewrite observations_app, IH by (intros j Hj; apply Hall; lia).
    simpl. rewrite Hobs. lia.
Qed.

(** On a full window of one and the same number the mean is that
    number, whatever came before. *)
Lemma rolling_mean_constant (w : nat) (xs : list double) (i : nat) v :
  (2 ≤ w)%nat → (w ≤ S i)%nat → (i < length xs)%nat →
  constant_window xs w i v →
  Pandas64.rolling_mean w xs !! i = Some v.
Proof.
  intros Hw Hwi Hi (Hobs & Hinf & Hall). rewrite rolling_mean_lookup by done. f_equal.
  assert (Hprep : ∀ j, (S i - w ≤ j ≤ i)%nat → _prep_values xs !! j = Some v).
  { intros j Hj. unfold _prep_values. rewrite list_lookup_fmap, Hall by lia.
    simpl. by rewrite Hinf. }
  assert (Hlen : (i < length (_prep_values xs))%nat) by by rewrite length_prep_values.
  assert (Hn : nobs (mean_state_at (_prep_values xs) w i) = Z.of_nat w).
  { rewrite mean_nobs by done.
    replace (S i) with (S i - w + w)%nat at 2 by lia.
    apply (observations_constant _ v); [done|]. intros j Hj. apply Hprep. lia. }
  destruct (mean_run (_prep_values xs) w v i w Hw Hlen ltac:(lia) Hobs) as [Hrun Hprev].
  { intros j Hj. apply Hprep. lia. }
  unfold calc_mean. rewrite Hn, Hprev.
  assert ((Z.of_nat w <=? Z.of_nat w)%Z && (0 <? Z.of_nat w)%Z = true) as ->.
  { apply andb_true_iff. split; [apply Z.leb_le|apply Z.ltb_lt]; lia. }
  assert ((Z.of_nat w <=?
           num_consecutive_same_value (mean_state_at (_prep_values xs) w i))%Z = true)
    as -> by (apply Z.leb_le; lia).
  done.
Qed.

End MeanKernel.

(** *** The running variance *)

Section VarKernel.
Import Binary64 Aggregations Aggregations.Var.

Lemma var_loop_states values w minp ddof k m :
  loop values minp ddof
    (match k with
     | O => None
     | S j => Some ((bounds_at w j).1, (bounds_at w j).2, var_state_at values w j)
     end)
    (bounds_at w <$> seq k m)
  = (λ i, calc_var minp ddof (var_state_at values w i)) <$> seq k m.
Proof.
  revert k. induction m as [|m IH]; intros k; [done|].
  cbn [seq fmap list_fmap loop]. f_equal.
  - by destruct k.
  - rewrite <- (IH (S k)). by destruct k.
Qed.

Lemma rolling_std_lookup (w : nat) (xs : list double) (i : nat) :
  (i < length xs)%nat →
  Pandas64.rolling_std w xs !! i =
  Some (zsqrt (calc_var (Z.max (Z.of_nat w) 1) 1 (var_state_at (_prep_values xs) w i))).
Proof.
  intros Hi. unfold Pandas64.rolling_std, roll_var, get_window_bounds.
  change (λ i0 : nat, ((i0 + 1 - w)%nat, (i0 + 1)%nat)) with (bounds_at w).
  rewrite (var_loop_states _ w _ _ 0).
  rewrite !list_lookup_fmap, lookup_seq_lt by done. done.
Qed.

Lemma length_rolling_std (w : nat) (xs : list double) :
  length (Pandas64.rolling_std w xs) = length xs.
Proof.
  unfold Pandas64.rolling_std, roll_var, get_window_bounds.
  change (λ i0 : nat, ((i0 + 1 - w)%nat, (i0 + 1)%nat)) with (bounds_at w).
  rewrite (var_loop_states _ w _ _ 0). by rewrite !length_fmap, length_seq.
Qed.

Lemma var_state_at_0 values w v :
  (1 ≤ w)%nat → values !! 0%nat = Some v →
  var_state_at values w 0 = add_var (setup values 0) v.
Proof.
  intros Hw Hv. cbn [var_state_at]. unfold window_state, bounds_at. cbn [fst snd].
  rewrite !Nat.add_1_r.
  replace (1 - w)%nat with 0%nat by lia.
  by rewrite (slice_single 0 values v).
Qed.

Lemma var_state_at_early values w j v :
  (2 ≤ w)%nat → (S j < w)%nat → values !! S j = Some v →
  var_state_at values w (S j) = add_var (var_state_at values w j) v.
Proof.
  intros Hw Hj Hv. cbn [var_state_at]. unfold window_state, bounds_at. cbn [fst snd].
  rewrite !Nat.add_1_r.
  rewrite decide_False by lia.
  replace (S j - w)%nat with 0%nat by lia.
  replace (S (S j) - w)%nat with 0%nat by lia.
  by rewrite slice_nil, (slice_single (S j) values v).
Qed.

Lemma var_state_at_late values w j v u :
  (2 ≤ w)%nat → (w ≤ S j)%nat → values !! S j = Some v →
  values !! (S j - w)%nat = Some u →
  var_state_at values w (S j) =
  add_var (remove_var (var_state_at values w j) u) v.
Proof.
  intros Hw Hj Hv Hu. cbn [var_state_at]. unfold window_state, bounds_at. cbn [fst snd].
  rewrite !Nat.add_1_r.
  rewrite decide_False by lia.
  replace (S (S j) - w)%nat with (S (S j - w)) by lia.
  by rewrite (slice_single (S j - w) values u), (slice_single (S j) values v).
Qed.

Lemma nobs_add_var st v :
  nobs (add_var st v) = (if observed v then nobs st + 1 else nobs st)%Z.
Proof. unfold add_var, observed. by destruct (feq v v). Qed.

Lemma nobs_remove_var st v :
  nobs (remove_var st v) = (if observed v then nobs st - 1 else nobs st)%Z.
Proof.
  unfold remove_var, observed. destruct (feq v v); [|done].
  by destruct (nobs st - 1 =? 0)%Z.
Qed.

Lemma var_nobs values w i :
  (2 ≤ w)%nat → (i < length values)%nat →
  nobs (var_state_at values w i) =
  observations (slice (S i - w) (S i) values).
Proof.
  intros Hw. induction i as [|j IH]; intros Hi.
  - destruct (lookup_lt_is_Some_2 values 0 Hi) as [v Hv].
    rewrite (var_state_at_0 values w v) by (done || lia).
    replace (1 - w)%nat with 0%nat by lia.
    rewrite (slice_single 0 values v) by done.
    rewrite nobs_add_var. simpl. by destruct (observed v).
  - destruct (lookup_lt_is_Some_2 values (S j) Hi) as [v Hv].
    specialize (IH ltac:(lia)).
    destruct (decide (S j < w)%nat) as [Hearly|Hlate].
    + rewrite (var_state_at_early values w j v) by done.
      rewrite nobs_add_var, IH.
      replace (S j - w)%nat with 0%nat by lia.
      replace (S (S j) - w)%nat with 0%nat by lia.
      rewrite (slice_snoc 0 (S j) values v) by (lia || done).
      rewrite observations_app. simpl. destruct (observed v); lia.
    + assert (is_Some (values !! (S j - w)%nat)) as [u Hu].
      { apply lookup_lt_is_Some_2. lia. }
      rewrite (var_state_at_late values w j v u) by (done || lia).
      rewrite nobs_add_var, nobs_remove_var, IH.
      rewrite (slice_cons (S j - w) (S j) values u) by (lia || done).
      replace (S (S j) - w)%nat with (S (S j - w)) by lia.
      rewrite (slice_snoc (S (S j - w)) (S j) values v) by (lia || done).
      rewrite observations_app. simpl.
      destruct (observed u), (observed v); lia.
Qed.

Lemma var_state_at_S values w j v :
  (2 ≤ w)%nat → (S j < length values)%nat → values !! S j = Some v →
  ∃ st, var_state_at values w (S j) = add_var st v ∧
        num_consecutive_same_value st =
          num_consecutive_same_value (var_state_at values w j) ∧
        prev_value st = prev_value (var_state_at values w j).
Proof.
  intros Hw Hj Hv. destruct (decide (S j < w)%nat) as [Hearly|Hlate].
  - exists (var_state_at values w j). by rewrite (var_state_at_early values w j v).
  - assert (is_Some (values !! (S j - w)%nat)) as [u Hu].
    { apply lookup_lt_is_Some_2. lia. }
    exists (remove_var (var_state_at values w j) u).
    rewrite (var_state_at_late values w j v u) by (done || lia).
    split; [done|]. unfold remove_var. destruct (feq u u); [|done].
    by destruct (_ =? 0)%Z.
Qed.

Lemma var_same_value_count_nonneg values w i :
  (2 ≤ w)%nat → (i < length values)%nat →
  (0 ≤ num_consecutive_same_value (var_state_at values w i))%Z.
Proof.
  intros Hw. induction i as [|j IH]; intros Hi.
  - destruct (lookup_lt_is_Some_2 values 0 Hi) as [v Hv].
    rewrite (var_state_at_0 values w v) by (done || lia).
    unfold add_var. destruct (feq v v); [|done]. simpl.
    destruct (feq v _); lia.
  - destruct (lookup_lt_is_Some_2 values (S j) Hi) as [v Hv].
    destruct (var_state_at_S values w j v Hw Hi Hv) as (st & -> & Hn & _).
    specialize (IH ltac:(lia)). rewrite <- Hn in IH.
    unfold add_var. destruct (feq v v); [|done]. simpl.
    destruct (feq v (prev_value st)); lia.
Qed.

Lemma var_run values w v i k :
  (2 ≤ w)%nat → (i < length values)%nat → (1 ≤ k ≤ S i)%nat →
  observed v = true →
  (∀ j, (S i - k ≤ j ≤ i)%nat → values !! j = Some v) →
  (Z.of_nat k ≤ num_consecutive_same_value (var_state_at values w i))%Z.
Proof.
  intros Hw Hi Hk Hobs Hall.
  enough ((Z.of_nat k ≤ num_consecutive_same_value (var_state_at values w i))%Z ∧
          prev_value (var_state_at values w i) = v) as [? _]; [done|].
  revert k Hi Hk Hall. induction i as [|j IH]; intros k Hi Hk Hall.
  - assert (k = 1%nat) as -> by lia.
    rewrite (var_state_at_0 values w v) by (lia || apply Hall; lia).
    unfold add_var. unfold observed in Hobs. rewrite Hobs. simpl.
    rewrite (Hall 0%nat) by lia. simpl. by rewrite Hobs.
  - assert (values !! S j = Some v) as Hv by (apply Hall; lia).
    destruct (var_state_at_S values w j v Hw Hi Hv) as (st & -> & Hn & Hp).
    unfold add_var. pose proof Hobs as Hobs'. unfold observed in Hobs'.
    rewrite Hobs'. simpl. split; [|done]. rewrite Hn, Hp.
    destruct (decide (k = 1%nat)) as [->|Hk1].
    + pose proof (var_same_value_count_nonneg values w j Hw ltac:(lia)).
      destruct (feq v (prev_value (var_state_at values w j))); lia.
    + destruct (IH (k - 1)%nat ltac:(lia) ltac:(lia)) as [Hge ->].
      { intros i Hi'. apply Hall. lia. }
      rewrite Hobs'. lia.
Qed.

(** On a full window of one and the same number the standard deviation
    is zero, whatever came before. *)
Lemma rolling_std_constant (w : nat) (xs : list double) (i : nat) v :
  (2 ≤ w)%nat → (w ≤ S i)%nat → (i < length xs)%nat →
  constant_window xs w i v →
  Pandas64.rolling_std w xs !! i = Some (of_int 0).
Proof.
  intros Hw Hwi Hi (Hobs & Hinf & Hall). rewrite rolling_std_lookup by done. f_equal.
  assert (Hprep : ∀ j, (S i - w ≤ j ≤ i)%nat → _prep_values xs !! j = Some v).
  { intros j Hj. unfold _prep_values. rewrite list_lookup_fmap, Hall by lia.
    simpl. by rewrite Hinf. }
  assert (Hlen : (i < length (_prep_values xs))%nat) by by rewrite length_prep_values.
  assert (Hn : nobs (var_state_at (_prep_values xs) w i) = Z.of_nat w).
  { rewrite var_nobs by done.
    replace (S i) with (S i - w + w)%nat at 2 by lia.
    apply (observations_constant _ v); [done|]. intros j Hj. apply Hprep. lia. }
  pose proof (var_run (_prep_values xs) w v i w Hw Hlen ltac:(lia) Hobs) as Hrun.
  unfold calc_var. rewrite Hn.
  assert ((Z.max (Z.of_nat w) 1 <=? Z.of_nat w)%Z && (1 <? Z.of_nat w)%Z = true) as ->.
  { apply andb_true_iff. split; [apply Z.leb_le|apply Z.ltb_lt]; lia. }
  assert ((Z.of_nat w <=?
           num_consecutive_same_value (var_state_at (_prep_values xs) w i))%Z = true)
    as ->.
  { apply Z.leb_le. apply Hrun. intros j Hj. apply Hprep. lia. }
  by rewrite orb_true_r.
Qed.

End VarKernel.

(** *** The engine *)

Section Engine64.
Import Binary64 Pandas64 Indicators64.

(** The columns [calculate_indicators] writes, from the closes and the
    volumes of the table. *)
Lemma indicator_columns64 df close :
  columns df !! "Close" = Some close →
  let r := calculate_indicators_df df in
  index r.1 = index df ∧
  columns r.1 !! "MA20" = Some (rolling_mean 20 close) ∧
  columns r.1 !! "BB_upper" =
    Some (zip_with fadd (rolling_mean 20 close)
            ((λ s, fmul s (of_int 2)) <$> rolling_std 20 close)) ∧
  columns r.1 !! "BB_lower" =
    Some (zip_with fsub (rolling_mean 20 close)
            ((λ s, fmul s (of_int 2)) <$> rolling_std 20 close)) ∧
  columns r.1 !! "RSI" =
    Some (rsi_of_rs <$> zip_with fdiv (rsi_gain close) (rsi_loss close)) ∧
  match columns df !! "Volume" with
  | Some volume =>
      r.2 = None ∧ columns r.1 !! "Volume_MA20" = Some (rolling_mean 20 volume)
  | None => r.2 = Some KeyError
  end.
Proof.
  intros Hc r. subst r. unfold calculate_indicators_df. rewrite Hc.
  unfold setitem. cbn [columns index].
  rewrite !(lookup_insert_ne _ _ "Volume") by done.
  destruct (columns df !! "Volume") as [volume|]; cbn [fst snd columns index].
  - rewrite !lookup_insert_ne by done. rewrite !lookup_insert_eq.
    repeat split; try done.
    + by rewrite !lookup_insert_ne, lookup_insert_eq by done.
    + by rewrite !lookup_insert_ne, lookup_insert_eq by done.
    + by rewrite !lookup_insert_ne, lookup_insert_eq by done.
  - rewrite lookup_insert_eq.
    repeat split; try done.
    + by rewrite !lookup_insert_ne, lookup_insert_eq by done.
    + by rewrite !lookup_insert_ne, lookup_insert_eq by done.
    + by rewrite !lookup_insert_ne, lookup_insert_eq by done.
Qed.

Lemma length_diff64 (xs : series) : length (diff xs) = length xs.
Proof.
  destruct xs as [|x rest]; [done|]. cbn [diff length].
  rewrite length_zip_with. cbn [length]. lia.
Qed.

Lemma diff64_lookup_S (xs : series) j a b :
  xs !! S j = Some a → xs !! j = Some b → diff xs !! S j = Some (fsub a b).
Proof.
  destruct xs as [|x rest]; [done|]. intros Ha Hb.
  cbn [diff]. rewrite lookup_cons. rewrite lookup_zip_with.
  rewrite lookup_cons in Ha. by rewrite Ha, Hb.
Qed.

(** A step that leaves the close unchanged is neither a gain nor a
    loss; nor is the first row, which has no step. *)
Lemma flat_delta (close : series) i j :
  (j < length close)%nat → flat_steps close i → (i - 13 ≤ j ≤ i)%nat →
  ∃ d, diff close !! j = Some d ∧
       fgt d (of_int 0) = false ∧ flt d (of_int 0) = false.
Proof.
  intros Hj Hflat Hji. destruct j as [|j'].
  - exists nan. split; [|done]. destruct close; [simpl in Hj; lia|done].
  - destruct (lookup_lt_is_Some_2 close (S j') Hj) as [a Ha].
    pose proof (Hflat (S j') Hji ltac:(lia)) as Heq.
    rewrite Ha in Heq. replace (S j' - 1)%nat with j' in Heq by lia.
    exists (fsub a a). split; [by apply diff64_lookup_S|].
    by destruct (fsub_diag a) as [-> | ->].
Qed.

Lemma gain_flat (close : series) i :
  (i < length close)%nat → flat_steps close i →
  constant_window (where_ (λ d, fgt d (of_int 0)) (of_int 0) (diff close)) 14 i
    (of_int 0).
Proof.
  intros Hi Hflat. split; [done|]. split; [done|]. intros j Hj.
  destruct (flat_delta close i j ltac:(lia) Hflat ltac:(lia)) as (d & Hd & Hgt & _).
  unfold where_. rewrite list_lookup_fmap, Hd. cbn -[fgt flt of_int fneg]. by rewrite Hgt.
Qed.

Lemma loss_flat (close : series) i :
  (i < length close)%nat → flat_steps close i →
  constant_window (fneg <$> where_ (λ d, flt d (of_int 0)) (of_int 0) (diff close))
    14 i (fneg (of_int 0)).
Proof.
  intros Hi Hflat. split; [done|]. split; [done|]. intros j Hj.
  destruct (flat_delta close i j ltac:(lia) Hflat ltac:(lia)) as (d & Hd & _ & Hlt).
  unfold where_. rewrite !list_lookup_fmap, Hd. cbn -[fgt flt of_int fneg]. by rewrite Hlt.
Qed.

Lemma length_rsi_gain (close : series) : length (rsi_gain close) = length close.
Proof.
  unfold rsi_gain, where_.
  by rewrite length_rolling_mean, length_fmap, length_diff64.
Qed.

Lemma length_rsi_loss (close : series) : length (rsi_loss close) = length close.
Proof.
  unfold rsi_loss, where_.
  by rewrite length_rolling_mean, !length_fmap, length_diff64.
Qed.

(** The RSI cell: no value while the window of 14 fills, and none where
    the 14 steps are flat, where the code divides zero by zero. *)
Lemma rsi64_cell (close : series) i :
  (i < length close)%nat →
  ∃ x, (rsi_of_rs <$> zip_with fdiv (rsi_gain close) (rsi_loss close)) !! i = Some x ∧
       ((i < 13)%nat → x = nan) ∧
       (flat_steps close i → x = nan).
Proof.
  intros Hi.
  assert (is_Some (rsi_gain close !! i)) as [g Hg].
  { apply lookup_lt_is_Some_2. by rewrite length_rsi_gain. }
  assert (is_Some (rsi_loss close !! i)) as [l Hl].
  { apply lookup_lt_is_Some_2. by rewrite length_rsi_loss. }
  exists (rsi_of_rs (fdiv g l)). split.
  { by rewrite list_lookup_fmap, lookup_zip_with, Hg, Hl. }
  assert (Hwarm : (i < 13)%nat → g = nan).
  { intros Hlt. unfold rsi_gain in Hg.
    rewrite rolling_mean_warm_up in Hg; [congruence|lia|lia|].
    unfold where_. by rewrite length_fmap, length_diff64. }
  split.
  - intros Hlt. by rewrite (Hwarm Hlt).
  - intros Hflat. destruct (decide (i < 13)%nat) as [Hlt|Hge].
    { by rewrite (Hwarm Hlt). }
    unfold rsi_gain in Hg. unfold rsi_loss in Hl.
    rewrite (rolling_mean_constant 14 _ i (of_int 0)) in Hg;
      [|lia|lia| |by apply gain_flat].
    2:{ unfold where_. rewrite length_fmap, length_diff64. done. }
    rewrite (rolling_mean_constant 14 _ i (fneg (of_int 0))) in Hl;
      [|lia|lia| |by apply loss_flat].
    2:{ unfold where_. rewrite !length_fmap, length_diff64. done. }
    injection Hg as <-. injection Hl as <-. done.
Qed.

(** Adding or subtracting [+0] leaves a number as it is (a negative
    zero becomes the positive one). *)
Lemma fadd_zero v :
  observed v = true → feq (fadd v (of_int 0)) v = true.
Proof. by destruct v as [[]|[]| |s m e]. Qed.

Lemma fsub_zero v :
  observed v = true → feq (fsub v (of_int 0)) v = true.
Proof. by destruct v as [[]|[]| |s m e]. Qed.

(** A band cell: no value while the window of 20 fills; on a window of
    one number, that number. *)
Lemma band64_cell (op : double → double → double) (close : series) i :
  (∀ y, op nan y = nan) →
  (∀ v, observed v = true → feq (op v (of_int 0)) v = true) →
  (i < length close)%nat →
  ∃ x, zip_with op (rolling_mean 20 close)
         ((λ s, fmul s (of_int 2)) <$> rolling_std 20 close) !! i = Some x ∧
       ((i < 19)%nat → x = nan) ∧
       (∀ v, (19 ≤ i)%nat → constant_window close 20 i v → feq x v = true).
Proof.
  intros Hnan Hzero Hi.
  assert (is_Some (rolling_mean 20 close !! i)) as [m Hm].
  { apply lookup_lt_is_Some_2. by rewrite length_rolling_mean. }
  assert (is_Some (rolling_std 20 close !! i)) as [s Hs].
  { apply lookup_lt_is_Some_2. by rewrite length_rolling_std. }
  exists (op m (fmul s (of_int 2))). split.
  { by rewrite lookup_zip_with, list_lookup_fmap, Hm, Hs. }
  split.
  - intros Hlt. rewrite rolling_mean_warm_up in Hm by lia.
    injection Hm as <-. apply Hnan.
  - intros v Hge Hconst.
    rewrite (rolling_mean_constant 20 close i v) in Hm by (done || lia).
    rewrite (rolling_std_constant 20 close i v) in Hs by (done || lia).
    injection Hm as <-. injection Hs as <-.
    apply Hzero. apply Hconst.
Qed.

(** A moving-average cell. *)
Lemma mean64_cell (xs : series) i :
  (i < length xs)%nat →
  ∃ x, rolling_mean 20 xs !! i = Some x ∧
       ((i < 19)%nat → x = nan) ∧
       (∀ v, (19 ≤ i)%nat → constant_window xs 20 i v → feq x v = true).
Proof.
  intros Hi.
  assert (is_Some (rolling_mean 20 xs !! i)) as [m Hm].
  { apply lookup_lt_is_Some_2. by rewrite length_rolling_mean. }
  exists m. split; [done|]. split.
  - intros Hlt. rewrite rolling_mean_warm_up in Hm by lia. congruence.
  - intros v Hge Hconst.
    rewrite (rolling_mean_constant 20 xs i v) in Hm by (done || lia).
    injection Hm as <-. apply Hconst.
Qed.

End Engine64.

Section Definedness64.
Import Binary64 Pandas64 Indicators64.

(** C1 (amended): for every table that has closes and volumes, whatever
    they hold, each 20-bar column (MA20, BB_upper, BB_lower,
    Volume_MA20) has no value at the rows before row 19 and the RSI
    column has none before row 13.  From its threshold on a column has
    a value only where the arithmetic on doubles gives one.  The RSI has
    none at any row whose 14 steps left the close unchanged: both
    averages are zero and the code divides zero by zero.  On a window of
    20 equal numbers the 20-bar columns do have a value, that number. *)
Theorem C1_indicator_definedness (df : DataFrame) (close volume : series) :
  columns df !! "Close" = Some close →
  columns df !! "Volume" = Some volume →
  (calculate_indicators_df df).2 = None ∧
  (∀ c i, c ∈ ["MA20"; "BB_upper"; "BB_lower"] → (i < length close)%nat →
     ∃ x, cell64 (calculate_indicators_df df).1 c i = Some x ∧
          ((i < 19)%nat → x = nan) ∧
          (∀ v, (19 ≤ i)%nat → constant_window close 20 i v → feq x v = true)) ∧
  (∀ i, (i < length volume)%nat →
     ∃ x, cell64 (calculate_indicators_df df).1 "Volume_MA20" i = Some x ∧
          ((i < 19)%nat → x = nan) ∧
          (∀ v, (19 ≤ i)%nat → constant_window volume 20 i v → feq x v = true)) ∧
  (∀ i, (i < length close)%nat →
     ∃ x, cell64 (calculate_indicators_df df).1 "RSI" i = Some x ∧
          ((i < 13)%nat → x = nan) ∧
          (flat_steps close i → x = nan)).
Proof.
  intros Hc Hv.
  destruct (indicator_columns64 df _ Hc) as (_ & Hma & Hup & Hlo & Hrsi & Hvol).
  rewrite Hv in Hvol. destruct Hvol as [Hnone Hvma].
  split; [done|]. split; [|split].
  - intros c i Hin Hi. unfold cell64.
    repeat (apply elem_of_cons in Hin as [->|Hin]).
    + rewrite Hma. simpl. by apply mean64_cell.
    + rewrite Hup. simpl.
      apply band64_cell; [done|apply fadd_zero|done].
    + rewrite Hlo. simpl.
      apply band64_cell; [done|apply fsub_zero|done].
    + by apply not_elem_of_nil in Hin.
  - intros i Hi. unfold cell64. rewrite Hvma. simpl. by apply mean64_cell.
  - intros i Hi. unfold cell64. rewrite Hrsi. simpl. by apply rsi64_cell.
Qed.

End Definedness64.

(** C1 (as stated, refuted): twenty bars with the close 100 and the
    volume 7, all present, leave the RSI column without a value at row
    13 and at every row after it. *)
Lemma C1_counterexample_flat_closes :
  Pandas64.columns Sample64.flat !! "Close" = Some (replicate 20 (Binary64.of_int 100)) ∧
  forallb positive_finite (replicate 20 (Binary64.of_int 100)) = true ∧
  Forall (λ i, cell64 (Indicators64.calculate_indicators_df Sample64.flat).1 "RSI" i
               = Some Binary64.nan)
    [13; 14; 15; 16; 17; 18; 19]%nat.
Proof.
  split; [reflexivity|]. split; [reflexivity|].
  repeat (apply Forall_cons_2; [vm_compute; reflexivity|]). apply Forall_nil_2.
Qed.

(** C1 on the twenty flat bars. *)
Lemma C1_indicator_definedness_witness :
  (Indicators64.calculate_indicators_df Sample64.flat).2 = None ∧
  (∀ c i, c ∈ ["MA20"; "BB_upper"; "BB_lower"] →
     (i < length (replicate 20 (Binary64.of_int 100)))%nat →
     ∃ x, cell64 (Indicators64.calculate_indicators_df Sample64.flat).1 c i = Some x ∧
          ((i < 19)%nat → x = Binary64.nan) ∧
          (∀ v, (19 ≤ i)%nat →
             constant_window (replicate 20 (Binary64.of_int 100)) 20 i v →
             Binary64.feq x v = true)) ∧
  (∀ i, (i < length (replicate 20 (Binary64.of_int 7)))%nat →
     ∃ x, cell64 (Indicators64.calculate_indicators_df Sample64.flat).1 "Volume_MA20" i
            = Some x ∧
          ((i < 19)%nat → x = Binary64.nan) ∧
          (∀ v, (19 ≤ i)%nat →
             constant_window (replicate 20 (Binary64.of_int 7)) 20 i v →
             Binary64.feq x v = true)) ∧
  (∀ i, (i < length (replicate 20 (Binary64.of_int 100)))%nat →
     ∃ x, cell64 (Indicators64.calculate_indicators_df Sample64.flat).1 "RSI" i = Some x ∧
          ((i < 13)%nat → x = Binary64.nan) ∧
          (flat_steps (replicate 20 (Binary64.of_int 100)) i → x = Binary64.nan)).
Proof.
  apply (C1_indicator_definedness Sample64.flat
           (replicate 20 (Binary64.of_int 100)) (replicate 20 (Binary64.of_int 7)));
    reflexivity.
Defined.

(** From the threshold on the 20-bar columns can be without a value on
    prices that are all finite and positive: on closes that swing
    between [2^600] and 1 the running variance overflows, the bands are
    infinite at row 19 and have no value at rows 20 and 21, while the
    moving average is [2^599]. *)
Lemma bands_lost_to_overflow :
  forallb positive_finite Sample64.swing_closes = true ∧
  Forall (λ i, cell64 (Indicators64.calculate_indicators_df Sample64.swing).1 "MA20" i
               = Some (Binary64.ldexp 1 599))
    [19; 20; 21]%nat ∧
  cell64 (Indicators64.calculate_indicators_df Sample64.swing).1 "BB_upper" 19
    = Some (S754_infinity false) ∧
  cell64 (Indicators64.calculate_indicators_df Sample64.swing).1 "BB_lower" 19
    = Some (S754_infinity true) ∧
  Forall (λ c, cell64 (Indicators64.calculate_indicators_df Sample64.swing).1 c 20
               = Some Binary64.nan ∧
               cell64 (Indicators64.calculate_indicators_df Sample64.swing).1 c 21
               = Some Binary64.nan)
    ["BB_upper"; "BB_lower"].
Proof.
  split; [reflexivity|]. split.
  { repeat (apply Forall_cons_2; [vm_compute; reflexivity|]). apply Forall_nil_2. }
  split; [vm_compute; reflexivity|]. split; [vm_compute; reflexivity|].
  repeat (apply Forall_cons_2; [split; vm_compute; reflexivity|]). apply Forall_nil_2.
Qed.

(** C4 (the code at the failing input): eighteen closes, all finite and
    positive, that collapse from [2^80] to [2^-80].  At row 17 the
    averaged gain is positive and the averaged loss, a running sum that
    rounding has left below zero, is its negative: [rs] is -1, the code
    divides 100 by zero and the RSI is minus infinity, a value outside
    [0, 100].  At row 16 it is 100. *)
Theorem C4_rsi_below_zero_on_doubles :
  forallb positive_finite Sample64.collapse_closes = true ∧
  (∃ g, Indicators64.rsi_gain Sample64.collapse_closes !! 17%nat = Some g ∧
        Binary64.fgt g (Binary64.of_int 0) = true ∧
        Indicators64.rsi_loss Sample64.collapse_closes !! 17%nat
          = Some (Binary64.fneg g)) ∧
  cell64 (Indicators64.calculate_indicators_df Sample64.collapse).1 "RSI" 16
    = Some (Binary64.of_int 100) ∧
  cell64 (Indicators64.calculate_indicators_df Sample64.collapse).1 "RSI" 17
    = Some (S754_infinity true) ∧
  Binary64.flt (S754_infinity true) (Binary64.of_int 0) = true.
Proof.
  split; [reflexivity|]. split.
  { exists (S754_finite false 5146970997915648 (-96)).
    split; [vm_compute; reflexivity|]. split; vm_compute; reflexivity. }
  split; [vm_compute; reflexivity|]. split; [vm_compute; reflexivity|]. reflexivity.
Qed.

(** C6 with both providers answering 503. *)
Lemma C6_hardcoded_rates_witness :
  ∃ log,
    StockAnalyzer._get_exchange_rates Sample.env_down
      (StockAnalyzer.mkState None 0 ∅ [] []) =
      (StockAnalyzer.set_requests
         (StockAnalyzer.requests (StockAnalyzer.mkState None 0 ∅ [] []) ++ log)
         (StockAnalyzer.mkState None 0 ∅ [] []),
       Ok ({[ "USD" := Fin 0.9132; "GBP" := Fin 0.8561 ]} : gmap string xfloat)).
Proof.
  apply (C6_hardcoded_rates_when_providers_fail Sample.env_down
           (StockAnalyzer.mkState None 0 ∅ [] [])); reflexivity.
Defined.

(** * Further properties of the code *)

(** ** The indicator engine: frame, idempotence, errors *)

Section EngineMore.
Import Pandas Indicators.
Variable sqrtQ : Q → Q.

Lemma untouched_by_indicators (df : DataFrame) (c : string) :
  c ∉ indicator_names →
  index (calculate_indicators_df sqrtQ df).1 = index df ∧
  columns (calculate_indicators_df sqrtQ df).1 !! c = columns df !! c.
Proof.
  intros Hc.
  assert (Hne : ∀ k, k ∈ indicator_names → k ≠ c) by (intros k Hk ->; done).
  unfold calculate_indicators_df.
  destruct (columns df !! "Close") as [close|]; [|done].
  unfold setitem. cbn [columns index].
  rewrite !(lookup_insert_ne _ _ "Volume") by done.
  destruct (columns df !! "Volume") as [volume|]; cbn [fst columns index].
  - split; [done|].
    rewrite !lookup_insert_ne; [done|apply Hne; compute_done..].
  - split; [done|].
    rewrite !lookup_insert_ne; [done|apply Hne; compute_done..].
Qed.

(** [calculate_indicators] writes its eight columns and nothing else: the
    index and every other column (the prices and the volume among them) are
    as before, whether the body ends normally or by an exception. *)
Theorem indicators_frame (df : DataFrame) (c : string) :
  c ∉ indicator_names →
  index (calculate_indicators_df sqrtQ df).1 = index df ∧
  columns (calculate_indicators_df sqrtQ df).1 !! c = columns df !! c.
Proof. apply untouched_by_indicators. Qed.

Lemma indicators_keep_inputs (df : DataFrame) :
  columns (calculate_indicators_df sqrtQ df).1 !! "Close" = columns df !! "Close" ∧
  columns (calculate_indicators_df sqrtQ df).1 !! "Volume" = columns df !! "Volume" ∧
  index (calculate_indicators_df sqrtQ df).1 = index df.
Proof.
  split; [|split].
  - apply untouched_by_indicators. compute_done.
  - apply untouched_by_indicators. compute_done.
  - apply (untouched_by_indicators df "Close"). compute_done.
Qed.

Lemma indicators_nonempty (df : DataFrame) :
  empty df = false → empty (calculate_indicators_df sqrtQ df).1 = false.
Proof.
  unfold empty. intros [Hi Hc]%orb_false_iff.
  destruct (indicators_keep_inputs df) as (Hclose & _ & Hidx).
  rewrite Hidx, Hi. simpl. apply bool_decide_eq_false. intros Hempty.
  apply bool_decide_eq_false in Hc.
  unfold calculate_indicators_df in *.
  destruct (columns df !! "Close") as [close|] eqn:Hcl; [|done].
  rewrite Hempty in Hclose. by rewrite lookup_empty in Hclose.
Qed.

(** Running the body again changes nothing: the columns are computed from
    the closes and the volumes, which the first run left alone. *)
Lemma calculate_indicators_df_idem (df : DataFrame) :
  calculate_indicators_df sqrtQ (calculate_indicators_df sqrtQ df).1 =
  calculate_indicators_df sqrtQ df.
Proof.
  destruct (columns df !! "Close") as [close|] eqn:Hc.
  2:{ unfold calculate_indicators_df at 2 3. rewrite Hc. simpl.
      unfold calculate_indicators_df. by rewrite Hc. }
  destruct (indicator_columns sqrtQ df close Hc) as (Hidx & Hma & Hup & Hlo & Hrsi & Hvol).
  destruct (indicators_keep_inputs df) as (Hclose & Hvolume & _).
  pose proof (untouched_by_indicators df) as Hframe.
  assert (Hmacd : columns (calculate_indicators_df sqrtQ df).1 !! "MACD" =
            Some (zip_with xsub (ewm_mean 12 close) (ewm_mean 26 close)) ∧
          columns (calculate_indicators_df sqrtQ df).1 !! "Signal_Line" =
            Some (ewm_mean 9 (zip_with xsub (ewm_mean 12 close) (ewm_mean 26 close))) ∧
          columns (calculate_indicators_df sqrtQ df).1 !! "MACD_histogram" =
            Some (zip_with xsub (zip_with xsub (ewm_mean 12 close) (ewm_mean 26 close))
                    (ewm_mean 9 (zip_with xsub (ewm_mean 12 close) (ewm_mean 26 close))))).
  { unfold calculate_indicators_df. rewrite Hc. unfold setitem. cbn [columns index].
    rewrite !(lookup_insert_ne _ _ "Volume") by done.
    destruct (columns df !! "Volume"); cbn [fst columns];
      (split; [|split]); by rewrite !lookup_insert_ne, lookup_insert_eq by done. }
  destruct Hmacd as (Hmacd & Hsig & Hhist).
  destruct (calculate_indicators_df sqrtQ df) as [df' ex] eqn:Hcalc.
  cbn [fst snd] in *.
  unfold calculate_indicators_df at 1. rewrite Hclose, Hc.
  unfold setitem. cbn [columns index].
  rewrite !(insert_id (columns df')) by done.
  rewrite Hvolume.
  destruct (columns df !! "Volume") as [volume|] eqn:Hv.
  - destruct Hvol as [-> Hvma]. rewrite insert_id by done. by destruct df'.
  - rewrite Hvol. by destruct df'.
Qed.

(** The loop, likewise: [calculate_indicators] run a second time (as
    [app.py] does after [fetch_data]) returns what the first run returned,
    tables and exception. *)
Theorem calculate_indicators_idempotent (data : list (string * DataFrame)) :
  calculate_indicators sqrtQ (calculate_indicators sqrtQ data).1 =
  calculate_indicators sqrtQ data.
Proof.
  induction data as [|[symbol df] data IH]; [done|].
  cbn [calculate_indicators].
  destruct (empty df) eqn:He.
  - destruct (calculate_indicators sqrtQ data) as [rest' e] eqn:Hr.
    cbn [fst] in *. cbn [calculate_indicators]. rewrite He, IH. done.
  - pose proof (calculate_indicators_df_idem df) as Hidem.
    pose proof (indicators_nonempty df He) as Hne.
    destruct (calculate_indicators_df sqrtQ df) as [df' [e|]] eqn:Hcalc;
      cbn [fst] in *.
    + cbn [calculate_indicators]. rewrite Hne, Hidem. done.
    + destruct (calculate_indicators sqrtQ data) as [rest' e] eqn:Hr.
      cbn [fst] in *. cbn [calculate_indicators]. rewrite Hne, Hidem, IH. done.
Qed.

(** The loop raises exactly at the first table that has rows but no Close
    or no Volume column, with KeyError: the tables before it have their
    indicators, the tables after it are left as they were. *)
Theorem calculate_indicators_stops_at_first_bad_table
    (pre post : list (string * DataFrame)) (symbol : string) (df : DataFrame) :
  (∀ p, p ∈ pre → ¬ lacks_input p.2) →
  lacks_input df →
  calculate_indicators sqrtQ (pre ++ (symbol, df) :: post) =
    (with_indicators sqrtQ pre ++ (symbol, (calculate_indicators_df sqrtQ df).1) :: post,
     Some KeyError).
Proof.
  intros Hpre [He Hbad].
  assert (Hdf : (calculate_indicators_df sqrtQ df).2 = Some KeyError).
  { unfold calculate_indicators_df.
    destruct (columns df !! "Close") as [close|] eqn:Hc; [|done].
    destruct Hbad as [?|Hv]; [done|].
    unfold setitem. cbn [columns]. rewrite !lookup_insert_ne by done. by rewrite Hv. }
  induction pre as [|[s t] pre IH]; cbn [app calculate_indicators].
  - rewrite He. destruct (calculate_indicators_df sqrtQ df) as [df' ex].
    simpl in *. by subst ex.
  - rewrite IH by (intros; apply Hpre; by apply list_elem_of_further).
    unfold with_indicators. rewrite fmap_cons. cbn [fst snd].
    destruct (empty t) eqn:Het; [done|].
    assert (¬ lacks_input t) as Hok by apply (Hpre (s, t)), list_elem_of_here.
    destruct (columns t !! "Close") as [close|] eqn:Hc.
    2:{ destruct Hok. split; [done|by left]. }
    destruct (indicator_columns sqrtQ t close Hc) as (_ & _ & _ & _ & _ & Hvol).
    destruct (columns t !! "Volume") as [volume|] eqn:Hv.
    2:{ destruct Hok. split; [done|by right]. }
    destruct Hvol as [Hnone _].
    destruct (calculate_indicators_df sqrtQ t) as [t' ex]. simpl in *. by subst ex.
Qed.

(** A table that has its closes and volumes gets all eight columns. *)
Lemma indicator_columns_present (df : DataFrame) (c : string) :
  is_Some (columns df !! "Close") → is_Some (columns df !! "Volume") →
  c ∈ indicator_names →
  is_Some (columns (calculate_indicators_df sqrtQ df).1 !! c).
Proof.
  intros [close Hc] [volume Hv] Hin.
  unfold calculate_indicators_df. rewrite Hc.
  unfold setitem. cbn [columns index].
  rewrite !(lookup_insert_ne _ _ "Volume") by done. rewrite Hv.
  cbn [fst columns].
  unfold indicator_names in Hin.
  repeat (apply elem_of_cons in Hin as [->|Hin]);
    try (rewrite ?lookup_insert_ne by done; rewrite lookup_insert_eq; by eexists).
  by apply not_elem_of_nil in Hin.
Qed.

Lemma lacks_input_kept (df : DataFrame) :
  lacks_input df → lacks_input (calculate_indicators_df sqrtQ df).1.
Proof.
  intros [He Hbad]. destruct (indicators_keep_inputs df) as (Hc & Hv & _).
  split; [by apply indicators_nonempty|]. rewrite Hc, Hv. done.
Qed.

(** The two ways the loop ends: without an exception, every table that
    has rows having had its closes and volumes; or with KeyError, at a
    table that has rows but lacks one of the two. *)
Lemma calculate_indicators_cases (data : list (string * DataFrame)) :
  ((calculate_indicators sqrtQ data).2 = None ∧
   (calculate_indicators sqrtQ data).1 = with_indicators sqrtQ data ∧
   ∀ p, p ∈ data → ¬ lacks_input p.2) ∨
  ((calculate_indicators sqrtQ data).2 = Some KeyError ∧
   ∃ symbol df, lacks_input df ∧
     (symbol, (calculate_indicators_df sqrtQ df).1) ∈ (calculate_indicators sqrtQ data).1).
Proof.
  induction data as [|[symbol df] data IH]; cbn [calculate_indicators].
  { left. split; [done|]. split; [done|]. intros p Hp. by apply not_elem_of_nil in Hp. }
  unfold with_indicators. rewrite fmap_cons. cbn [fst snd].
  fold (with_indicators sqrtQ data).
  destruct (empty df) eqn:He.
  - destruct IH as [(Hn & Heq & Hok)|(Hk & s & t & Hbad & Hin)].
    + left. destruct (calculate_indicators sqrtQ data) as [rest' ex]. simpl in *.
      subst. split; [done|]. split; [done|].
      intros p [->|Hp]%elem_of_cons; [|by apply Hok].
      intros [He' _]. simpl in He'. congruence.
    + right. destruct (calculate_indicators sqrtQ data) as [rest' ex]. simpl in *.
      split; [done|]. exists s, t. split; [done|]. by apply list_elem_of_further.
  - destruct (columns df !! "Close") as [close|] eqn:Hc.
    2:{ right. unfold calculate_indicators_df. rewrite Hc. simpl.
        split; [done|]. exists symbol, df. split; [split; [done|by left]|].
        unfold calculate_indicators_df. rewrite Hc. apply list_elem_of_here. }
    destruct (indicator_columns sqrtQ df close Hc) as (_ & _ & _ & _ & _ & Hvol).
    destruct (columns df !! "Volume") as [volume|] eqn:Hv.
    + destruct Hvol as [Hnone _].
      destruct (calculate_indicators_df sqrtQ df) as [df' ex] eqn:Hcalc.
      simpl in Hnone. subst ex.
      destruct IH as [(Hn & Heq & Hok)|(Hk & s & t & Hbad & Hin)].
      * left. destruct (calculate_indicators sqrtQ data) as [rest' ex]. simpl in *.
        subst. split; [done|]. split; [done|].
        intros p [->|Hp]%elem_of_cons; [|by apply Hok].
        intros [_ [Hbad|Hbad]]; simpl in Hbad; congruence.
      * right. destruct (calculate_indicators sqrtQ data) as [rest' ex]. simpl in *.
        split; [done|]. exists s, t. split; [done|]. by apply list_elem_of_further.
    + right.
      destruct (calculate_indicators_df sqrtQ df) as [df' ex] eqn:Hcalc.
      simpl in Hvol. subst ex. simpl. split; [done|].
      exists symbol, df. split; [split; [done|by right]|].
      rewrite Hcalc. apply list_elem_of_here.
Qed.
End EngineMore.

(** ** Fetching stock data *)

Section ForwardFill.

Lemma length_ffill_from last (xs : series) : length (ffill_from last xs) = length xs.
Proof. revert last. induction xs as [|x xs IH]; intros last; simpl; [done|]. by rewrite IH. Qed.

(** A cell of the filled series, from the cell before it. *)
Lemma ffill_from_lookup (xs : series) : ∀ last i x,
  xs !! i = Some x →
  ffill_from last xs !! i =
    Some (if is_nan x
          then match i with
               | O => last
               | S k => default NaN (ffill_from last xs !! k)
               end
          else x).
Proof.
  induction xs as [|y xs IH]; intros last i x Hx; [done|].
  destruct i as [|i]; simpl in *.
  - by injection Hx as ->.
  - rewrite (IH _ _ _ Hx). destruct (is_nan x) eqn:Hn; [|done].
    by destruct i.
Qed.

Lemma ffill_from_valid_last last (xs : series) :
  is_nan last = false → Forall (λ x, is_nan x = false) (ffill_from last xs).
Proof.
  revert last. induction xs as [|x xs IH]; intros last Hl; simpl; [constructor|].
  destruct (is_nan x) eqn:Hx; (constructor; [done|]); by apply IH.
Qed.

Lemma ffill_series_cases (xs : series) (i : nat) (x : xfloat) :
  xs !! i = Some x →
  ∃ v, ffill_series xs !! i = Some v ∧
    (is_nan x = false → v = x) ∧
    (is_nan v = true → ∀ k y, (k ≤ i)%nat → xs !! k = Some y → is_nan y = true) ∧
    (is_nan v = false →
       ∃ j, (j ≤ i)%nat ∧ xs !! j = Some v ∧
            ∀ k y, (j < k ≤ i)%nat → xs !! k = Some y → is_nan y = true).
Proof.
  unfold ffill_series. revert x. induction i as [|i IH]; intros x Hx.
  - rewrite (ffill_from_lookup _ _ _ _ Hx).
    eexists. split; [done|]. destruct (is_nan x) eqn:Hn.
    + split; [done|]. split; [|done]. intros _ k y Hk Hy.
      assert (k = 0)%nat as -> by lia. congruence.
    + split; [done|]. split; [congruence|]. intros _. exists 0%nat.
      split; [done|]. split; [done|]. intros; lia.
  - destruct (lookup_lt_is_Some_2 xs i) as [z Hz].
    { apply lookup_lt_Some in Hx. lia. }
    destruct (IH z Hz) as (w & Hw & Hkeep & Hnan & Hval).
    rewrite (ffill_from_lookup _ _ _ _ Hx), Hw. simpl.
    eexists. split; [done|]. destruct (is_nan x) eqn:Hn.
    + split; [done|]. split.
      * intros Hwn k y Hk Hy. destruct (decide (k = S i)) as [->|].
        { congruence. }
        apply (Hnan Hwn k); [lia|done].
      * intros Hwv. destruct (Hval Hwv) as (j & Hj & Hjv & Hgap).
        exists j. split; [lia|]. split; [done|]. intros k y Hk Hy.
        destruct (decide (k = S i)) as [->|]; [congruence|].
        apply (Hgap k); [lia|done].
    + split; [done|]. split; [congruence|]. intros _. exists (S i).
      split; [done|]. split; [done|]. intros; lia.
Qed.

(** Forward fill, cell by cell.  A cell that had a value keeps it.  A
    missing cell takes the value of the nearest earlier cell that had
    one, and stays missing only if every cell before it is missing.  So
    from the first value on the filled series has no gap. *)
Theorem ffill_series_spec (xs : series) (i : nat) (x : xfloat) :
  xs !! i = Some x →
  ∃ v, ffill_series xs !! i = Some v ∧
    (is_nan x = false → v = x) ∧
    (is_nan v = true → ∀ k y, (k ≤ i)%nat → xs !! k = Some y → is_nan y = true) ∧
    (is_nan v = false →
       ∃ j, (j ≤ i)%nat ∧ xs !! j = Some v ∧
            ∀ k y, (j < k ≤ i)%nat → xs !! k = Some y → is_nan y = true).
Proof. apply ffill_series_cases. Qed.

(** Filling is idempotent, and it keeps the number of rows. *)
Lemma ffill_from_idem (xs : series) : ∀ last,
  ffill_from last (ffill_from last xs) = ffill_from last xs.
Proof.
  induction xs as [|x xs IH]; intros last; simpl; [done|].
  destruct (is_nan x) eqn:Hx.
  - destruct (is_nan last) eqn:Hl; by rewrite IH.
  - by rewrite Hx, IH.
Qed.

Theorem ffill_idempotent (df : Pandas.DataFrame) :
  ffill (ffill df) = ffill df ∧
  Pandas.len (ffill df) = Pandas.len df ∧
  ∀ c s, Pandas.columns df !! c = Some s →
    ∃ s', Pandas.columns (ffill df) !! c = Some s' ∧ length s' = length s.
Proof.
  split; [|split].
  - unfold ffill. simpl. f_equal. rewrite <- map_fmap_compose.
    apply map_fmap_ext. intros c s _. apply ffill_from_idem.
  - done.
  - intros c s Hs. unfold ffill. simpl. rewrite lookup_fmap, Hs. simpl.
    eexists. split; [done|]. apply length_ffill_from.
Qed.
End ForwardFill.

Section StockData.
Import Pandas StockAnalyzer StockFetch.

Lemma forallb_false_witness {A} (f : A → bool) (l : list A) :
  forallb f l = false → ∃ j x, l !! j = Some x ∧ f x = false.
Proof.
  induction l as [|y l IH]; simpl; [done|].
  destruct (f y) eqn:Hy; simpl.
  - intros (j & x & ? & ?)%IH. by exists (S j), x.
  - intros _. by exists 0%nat, y.
Qed.

Lemma get_stock_data_cases (e : env) (m : market) (symbol period : string)
    (df : DataFrame) :
  get_stock_data e m symbol period = Some df →
  ∃ raw,
    fetch_history e m symbol period = Ok raw ∧
    df = ffill raw ∧
    empty df = false ∧
    (∀ c, c ∈ required_columns → is_Some (columns df !! c)) ∧
    ∃ close,
      columns df !! "Close" = Some close ∧
      (∃ j x, close !! j = Some x ∧ is_nan x = false) ∧
      (∀ j i x y, close !! j = Some x → is_nan x = false → (j ≤ i)%nat →
                  close !! i = Some y → is_nan y = false).
Proof.
  unfold get_stock_data.
  destruct (fetch_history e m symbol period) as [raw|]; [|done].
  unfold mbind at 1. unfold exc_bind at 1.
  destruct (empty raw) eqn:He; [done|].
  destruct (forallb (has_column raw) required_columns) eqn:Hreq; [|done].
  cbn [negb]. unfold getitem.
  destruct (columns raw !! "Close") as [rc|] eqn:Hrc; [|done].
  unfold mbind, exc_bind.
  destruct (forallb is_nan rc) eqn:Hall; [done|].
  intros [= <-]. exists raw. split; [done|]. split; [done|].
  split.
  { unfold empty, ffill in *. simpl.
    apply orb_false_iff in He as [Hi Hc]. rewrite Hi. simpl.
    apply bool_decide_eq_false in Hc. apply bool_decide_eq_false.
    by rewrite fmap_empty_iff. }
  split.
  { intros c Hc. rewrite forallb_forall in Hreq.
    specialize (Hreq c ltac:(by apply list_elem_of_In)).
    unfold has_column in Hreq. unfold ffill. simpl. rewrite lookup_fmap.
    destruct (columns raw !! c); [by eexists|done]. }
  exists (ffill_series rc). split.
  { unfold ffill. simpl. by rewrite lookup_fmap, Hrc. }
  destruct (forallb_false_witness _ _ Hall) as (j0 & x0 & Hj0 & Hx0).
  split.
  - destruct (ffill_series_cases rc j0 x0 Hj0) as (v & Hv & Hkeep & _).
    exists j0, v. split; [done|]. by rewrite (Hkeep Hx0).
  - intros j i x y Hj Hx Hji Hi.
    destruct (is_nan y) eqn:Hy; [|done].
    assert (is_Some (rc !! i)) as [yi Hyi].
    { apply lookup_lt_is_Some. apply lookup_lt_Some in Hi.
      unfold ffill_series in Hi. by rewrite length_ffill_from in Hi. }
    destruct (ffill_series_cases rc i yi Hyi) as (v & Hv & _ & Hnan & _).
    rewrite Hi in Hv. injection Hv as <-.
    assert (is_Some (rc !! j)) as [yj Hyj].
    { apply lookup_lt_is_Some. apply lookup_lt_Some in Hj.
      unfold ffill_series in Hj. by rewrite length_ffill_from in Hj. }
    destruct (ffill_series_cases rc j yj Hyj) as (w & Hw & _ & _ & Hval).
    rewrite Hj in Hw. injection Hw as <-.
    destruct (Hval Hx) as (j' & Hj' & Hjv & _).
    specialize (Hnan Hy j' x ltac:(lia) Hjv). congruence.
Qed.

(** What [get_stock_data] hands on: the provider's table, forward
    filled.  It has rows, the five price and volume columns and the
    provider's index, and its closes have a value somewhere and at every
    row after the first value. *)
Theorem get_stock_data_returns (e : env) (m : market) (symbol period : string)
    (df : DataFrame) :
  get_stock_data e m symbol period = Some df →
  ∃ raw,
    fetch_history e m symbol period = Ok raw ∧
    df = ffill raw ∧
    empty df = false ∧
    (∀ c, c ∈ required_columns → is_Some (columns df !! c)) ∧
    ∃ close,
      columns df !! "Close" = Some close ∧
      (∃ j x, close !! j = Some x ∧ is_nan x = false) ∧
      (∀ j i x y, close !! j = Some x → is_nan x = false → (j ≤ i)%nat →
                  close !! i = Some y → is_nan y = false).
Proof. apply get_stock_data_cases. Qed.
End StockData.

(** ** The exchange-rate providers and the normaliser, further *)

Section RateProtocol.
Import Pandas StockAnalyzer.

(** Which provider [_get_exchange_rates] asks.  The primary provider is
    always requested.  The fallback is requested only when the primary
    attempt ends without rates and without an exception (a status other
    than 200, or an answer whose [success] flag is missing or false).
    When the primary attempt raises (the request fails, the body is not
    JSON or has no readable rates) the fallback is not requested and
    the hardcoded rates are returned at once. *)
Theorem fallback_only_after_a_quiet_primary (e : env) (st : state) :
  ∃ log rates,
    _get_exchange_rates e st = (set_requests (requests st ++ log) st, Ok rates) ∧
    match (primary_attempt e st).2 with
    | Ok (Some r) => log = [primary_url] ∧ rates = r
    | Raise _ => log = [primary_url] ∧ rates = hardcoded_rates
    | Ok None =>
        log = [primary_url; fallback_url] ∧
        match (fallback_attempt e st).2 with
        | Ok (Some r) => rates = r
        | _ => rates = hardcoded_rates
        end
    end.
Proof.
  unfold _get_exchange_rates, try_except, _get_exchange_rates_try.
  unfold mbind at 1 2. unfold M_bind.
  destruct (primary_attempt_log e st) as [r1 Hr1]. rewrite Hr1. cbn [snd].
  destruct r1 as [[r|]|ex]; simpl.
  - by exists [primary_url], r.
  - destruct (fallback_attempt_log e (set_requests (requests st ++ [primary_url]) st))
      as [r2 Hr2]. rewrite Hr2.
    destruct (fallback_attempt_log e st) as [r2' Hr2']. rewrite Hr2'. cbn [snd].
    assert (r2' = r2) as ->.
    { revert Hr2 Hr2'.
      unfold fallback_attempt, http_get, mbind, M_bind, lift, mret, M_ret.
      destruct (requests_get e fallback_url) as [ex|code body]; simpl; [congruence|].
      destruct (code =? 200)%Z; simpl; [|congruence].
      destruct body as [data|ex]; simpl; [|congruence].
      destruct (rates_of data); simpl; congruence. }
    simpl. rewrite <- app_assoc. simpl.
    destruct r2 as [[r|]|ex]; simpl.
    + by exists [primary_url; fallback_url], r.
    + by exists [primary_url; fallback_url], hardcoded_rates.
    + by exists [primary_url; fallback_url], hardcoded_rates.
  - by exists [primary_url], hardcoded_rates.
Qed.

(** With a cache that has both currencies whenever it has any, the one
    exception [_convert_to_eur] can raise is the integer conversion of
    the volumes, and it raises it exactly when the table has a Volume
    column with a missing or infinite cell. *)
Theorem convert_to_eur_raises_only_on_volume (e : env) (st : state) (df : nat)
    (symbol : string) (table : DataFrame) :
  rates_inv st →
  heap st !! df = Some table →
  match (_convert_to_eur e df symbol st).2 with
  | Ok _ => ∀ v, columns table !! "Volume" = Some v → is_Some (finite_values v)
  | Raise ex =>
      ex = IntCastingNaNError ∧
      ∃ v, columns table !! "Volume" = Some v ∧ finite_values v = None
  end.
Proof.
  intros Hinv Hdf.
  destruct (convert_spec e st df symbol table Hdf)
    as (st1 & _ & Hheap & _ & Hr & ->).
  destruct (Hr Hinv) as (rates & Hrates & [[usd Husd] [gbp Hgbp]]).
  assert (∃ rate,
            (if endswith symbol ".L" then rate_of st1 "GBP" else rate_of st1 "USD")
            = Ok rate) as (rate & ->).
  { unfold rate_of, getitem. rewrite Hrates.
    destruct (endswith symbol ".L"); [rewrite Hgbp|rewrite Husd]; eauto. }
  cbn zeta.
  assert (Hsv : columns (scaled rate table) !! "Volume" = columns table !! "Volume").
  { unfold scaled. rewrite (scale_fold_lookup _ _ price_columns_NoDup).
    rewrite decide_False; [done|]. compute_done. }
  rewrite Hsv.
  destruct (columns table !! "Volume") as [v|] eqn:Hv; [|done].
  unfold astype_int. destruct (finite_values v) as [qs|] eqn:Hqs; simpl.
  - intros v' [= <-]. by rewrite Hqs.
  - split; [done|]. by exists v.
Qed.

End RateProtocol.

(** ** The further properties at sample inputs *)

(** The closes of a table of 25 rising bars are not touched. *)
Lemma indicators_frame_witness :
  Pandas.index (Indicators.calculate_indicators_df Indicators.isqrtQ
                  (Sample.table (Sample.rising 25))).1
    = Pandas.index (Sample.table (Sample.rising 25)) ∧
  Pandas.columns (Indicators.calculate_indicators_df Indicators.isqrtQ
                    (Sample.table (Sample.rising 25))).1 !! "Close"
    = Pandas.columns (Sample.table (Sample.rising 25)) !! "Close".
Proof.
  apply (indicators_frame Indicators.isqrtQ (Sample.table (Sample.rising 25)) "Close").
  apply (bool_decide_unpack _). vm_compute. exact I.
Defined.

(** A table without closes after a good one: the good one gets its
    indicators, the loop stops at the other and the table after it is
    not reached. *)
Lemma calculate_indicators_stops_witness :
  Indicators.calculate_indicators Indicators.isqrtQ
    ([("BTC", Sample.table [100; 110])] ++
     ("ETH", Sample2.no_close) :: [("ADA", Sample.table [5])]) =
  (with_indicators Indicators.isqrtQ [("BTC", Sample.table [100; 110])] ++
   ("ETH", (Indicators.calculate_indicators_df Indicators.isqrtQ Sample2.no_close).1)
     :: [("ADA", Sample.table [5])],
   Some KeyError).
Proof.
  apply (calculate_indicators_stops_at_first_bad_table Indicators.isqrtQ
           [("BTC", Sample.table [100; 110])] [("ADA", Sample.table [5])]
           "ETH" Sample2.no_close).
  - intros p Hp. apply list_elem_of_singleton in Hp as ->.
    intros [_ [H|H]]; vm_compute in H; discriminate H.
  - split; [reflexivity|]. left. reflexivity.
Defined.

(** A gap after a value is filled with the value. *)
Lemma ffill_series_spec_witness :
  ∃ v, ffill_series [NaN; of_Z 1; NaN] !! 2%nat = Some v ∧
    (is_nan NaN = false → v = NaN) ∧
    (is_nan v = true →
       ∀ k y, (k ≤ 2)%nat → [NaN; of_Z 1; NaN] !! k = Some y → is_nan y = true) ∧
    (is_nan v = false →
       ∃ j, (j ≤ 2)%nat ∧ [NaN; of_Z 1; NaN] !! j = Some v ∧
            ∀ k y, (j < k ≤ 2)%nat → [NaN; of_Z 1; NaN] !! k = Some y →
                   is_nan y = true).
Proof.
  apply (ffill_series_spec [NaN; of_Z 1; NaN] 2 NaN). reflexivity.
Defined.

(** Three bars with a gap in the closes, asked for one month. *)
Lemma get_stock_data_returns_witness :
  ∃ raw,
    StockFetch.fetch_history Sample2.env_ohlcv Sample2.market_ohlcv "AAPL" "1mo" = Ok raw ∧
    ffill Sample2.ohlcv = ffill raw ∧
    Pandas.empty (ffill Sample2.ohlcv) = false ∧
    (∀ c, c ∈ StockFetch.required_columns →
          is_Some (Pandas.columns (ffill Sample2.ohlcv) !! c)) ∧
    ∃ close,
      Pandas.columns (ffill Sample2.ohlcv) !! "Close" = Some close ∧
      (∃ j x, close !! j = Some x ∧ is_nan x = false) ∧
      (∀ j i x y, close !! j = Some x → is_nan x = false → (j ≤ i)%nat →
                  close !! i = Some y → is_nan y = false).
Proof.
  apply (get_stock_data_returns Sample2.env_ohlcv Sample2.market_ohlcv "AAPL" "1mo"
           (ffill Sample2.ohlcv)).
  vm_compute. reflexivity.
Defined.

(** ** Forecasts, further *)

Section ForecastGiven.
Import Pandas.

Lemma dropna_valid rows : Forall (λ r : Z * xfloat, is_nan r.2 = false) (dropna rows).
Proof.
  unfold dropna. apply Forall_forall. intros r Hr.
  by apply list_elem_of_filter in Hr as [? _].
Qed.

(** When the crypto analyzer returns a forecast, the provider gave a
    history under the forecast's ticker whose closes, once the missing
    ones are dropped, are at least 30; the forecast is what the library
    answered on exactly those rows, and it is recorded with that history
    under the symbol, the fetched tables staying as they were. *)
Theorem crypto_forecast_rests_on_thirty_closes (e : env) (symbol : string)
    (days : Z) (self self' : CryptoAnalyzer.state) (f : Forecast) :
  CryptoAnalyzer.predict_price e symbol days self = (self', Some f) →
  ∃ hist close,
    history e (CryptoAnalyzer.predict_price_ticker symbol) "2y" "1d" = Ok hist ∧
    columns hist !! "Close" = Some close ∧
    (30 ≤ length (dropna (zip (index hist) close)))%nat ∧
    Forall (λ r, is_nan r.2 = false) (dropna (zip (index hist) close)) ∧
    prophet e CryptoAnalyzer.config (dropna (zip (index hist) close)) days = Ok f ∧
    CryptoAnalyzer.predictions self' !! symbol = Some (f, hist) ∧
    CryptoAnalyzer.data self' = CryptoAnalyzer.data self ∧
    CryptoAnalyzer.symbols self' = CryptoAnalyzer.symbols self.
Proof.
  unfold CryptoAnalyzer.predict_price, CryptoAnalyzer.predict_price_try.
  destruct (history e (CryptoAnalyzer.predict_price_ticker symbol) "2y" "1d")
    as [hist|ex]; [|done].
  unfold mbind at 1. unfold exc_bind at 1.
  destruct (empty hist); [done|].
  destruct (len hist <? 30)%nat; [done|].
  unfold getitem. destruct (columns hist !! "Close") as [close|] eqn:Hc; [|done].
  unfold mbind at 1. unfold exc_bind at 1.
  destruct (length (dropna (zip (index hist) close)) <? 30)%nat eqn:Hlen; [done|].
  apply Nat.ltb_ge in Hlen.
  destruct (prophet e CryptoAnalyzer.config (dropna (zip (index hist) close)) days)
    as [f'|ex] eqn:Hp; [|done].
  simpl. intros [= <- <-].
  exists hist, close. repeat split; try done.
  - apply dropna_valid.
  - simpl. by rewrite lookup_insert_eq.
Qed.

Import StockAnalyzer.

(** The same for the stock analyzer, whose history is first converted
    to euros: the forecast rests on at least 30 closes of the converted
    table, which is a new table of the store recorded with the forecast
    under the symbol; the converted closes are the provider's, each
    times one rate. *)
Theorem stock_forecast_rests_on_thirty_closes (e : env) (symbol : string)
    (days : Z) (st st' : state) (f : Forecast) :
  StockAnalyzer.predict_price e symbol days st = (st', Some f) →
  ∃ hist l t src rate,
    history e symbol "2y" "1d" = Ok hist ∧
    empty hist = false ∧
    heap st' !! l = Some t ∧
    index t = index hist ∧
    columns hist !! "Close" = Some src ∧
    columns t !! "Close" = Some (map (λ x, xmul x rate) src) ∧
    (30 ≤ length (dropna (zip (index t) (map (λ x, xmul x rate) src))))%nat ∧
    Forall (λ r, is_nan r.2 = false)
      (dropna (zip (index t) (map (λ x, xmul x rate) src))) ∧
    prophet e StockAnalyzer.config
      (dropna (zip (index t) (map (λ x, xmul x rate) src))) days = Ok f ∧
    predictions st' !! symbol = Some (f, l).
Proof.
  unfold StockAnalyzer.predict_price, predict_price_try.
  destruct (history e symbol "2y" "1d") as [hist|ex] eqn:Hh.
  2:{ rewrite (bind_raise (lift (Raise ex)) _ st st ex eq_refl). done. }
  rewrite (bind_ok (lift (Ok hist)) _ st st hist eq_refl).
  rewrite (bind_ok (df_alloc hist) _ st _ _ eq_refl).
  set (st0 := set_heap (heap st ++ [hist]) st).
  destruct (empty hist) eqn:He; [done|].
  assert (Hl : heap st0 !! length (heap st) = Some hist).
  { simpl. by rewrite list_lookup_middle. }
  destruct (convert_outcome e st0 _ symbol hist Hl)
    as [(st2 & ex & Hc & Hp)|(st2 & l & t & rate & Hc & Hp & Ht & Hidx & Hclose)].
  { rewrite (bind_raise _ _ _ _ _ Hc). done. }
  rewrite (bind_ok _ _ _ _ _ Hc).
  rewrite (bind_ok (df_read l) _ st2 st2 t) by (unfold df_read; by rewrite Ht).
  destruct (len t <? 30)%nat; [done|].
  unfold getitem. rewrite Hclose.
  destruct (columns hist !! "Close") as [src|] eqn:Hsrc; simpl; [|done].
  rewrite (bind_ok (lift (Ok _)) _ st2 st2 _ eq_refl).
  destruct (length (dropna (zip (index t) (map (λ x, xmul x rate) src))) <? 30)%nat
    eqn:Hlen; [done|].
  apply Nat.ltb_ge in Hlen.
  destruct (prophet e StockAnalyzer.config
              (dropna (zip (index t) (map (λ x, xmul x rate) src))) days)
    as [f'|ex] eqn:Hpr.
  2:{ rewrite (bind_raise (lift (Raise ex)) _ st2 st2 ex eq_refl). done. }
  rewrite (bind_ok (lift (Ok f')) _ st2 st2 f' eq_refl).
  unfold mbind, M_bind, modify, mret, M_ret. simpl. intros [= <- <-].
  exists hist, l, t, src, rate. simpl.
  repeat split; try done.
  - apply dropna_valid.
  - by rewrite lookup_insert_eq.
Qed.

End ForecastGiven.

(** ** Fetching, then computing: [fetch_data] *)

Section CryptoFetch.
Import Pandas.
Variable sqrtQ : Q → Q.

(** How [CryptoAnalyzer.fetch_data] ends.  It keeps the list of symbols
    and the forecasts.  Either it returns, and then every table of
    [self.data] that has rows has the eight indicator columns; or it
    raises KeyError out of [calculate_indicators], which nothing in
    [fetch_data] catches, and then [self.data] holds a table that has
    rows but no Close or no Volume column. *)
Theorem crypto_fetch_data_outcome (e : env) (period : string)
    (self : CryptoAnalyzer.state) :
  CryptoAnalyzer.symbols (CryptoAnalyzer.fetch_data sqrtQ e period self).1
    = CryptoAnalyzer.symbols self ∧
  CryptoAnalyzer.predictions (CryptoAnalyzer.fetch_data sqrtQ e period self).1
    = CryptoAnalyzer.predictions self ∧
  (((CryptoAnalyzer.fetch_data sqrtQ e period self).2 = None ∧
    ∀ symbol df c,
      (symbol, df) ∈ CryptoAnalyzer.data (CryptoAnalyzer.fetch_data sqrtQ e period self).1 →
      empty df = false → c ∈ indicator_names → is_Some (columns df !! c)) ∨
   ((CryptoAnalyzer.fetch_data sqrtQ e period self).2 = Some KeyError ∧
    ∃ symbol df,
      (symbol, df) ∈ CryptoAnalyzer.data (CryptoAnalyzer.fetch_data sqrtQ e period self).1 ∧
      lacks_input df)).
Proof.
  unfold CryptoAnalyzer.fetch_data.
  set (fetched := fold_left _ _ _).
  destruct (calculate_indicators_cases sqrtQ fetched)
    as [(Hn & Heq & Hok)|(Hk & s & t & Hbad & Hin)].
  - destruct (Indicators.calculate_indicators sqrtQ fetched) as [d ex]. simpl in *.
    subst. split; [done|]. split; [done|]. left. split; [done|].
    intros symbol df c Hin He Hc.
    unfold with_indicators in Hin. apply list_elem_of_fmap in Hin as ([s t] & [= -> ->] & Hp).
    simpl in *. destruct (empty t) eqn:Het; [congruence|].
    specialize (Hok _ Hp). simpl in Hok.
    apply indicator_columns_present; [| |done].
    + destruct (columns t !! "Close") eqn:Hcl; [by eexists|].
      destruct Hok. split; [done|by left].
    + destruct (columns t !! "Volume") eqn:Hv; [by eexists|].
      destruct Hok. split; [done|by right].
  - destruct (Indicators.calculate_indicators sqrtQ fetched) as [d ex]. simpl in *.
    subst. split; [done|]. split; [done|]. right. split; [done|].
    exists s, (Indicators.calculate_indicators_df sqrtQ t).1.
    split; [done|]. by apply lacks_input_kept.
Qed.

End CryptoFetch.

Section StockFetchData.
Import Pandas StockAnalyzer StockFetch.
Variable sqrtQ : Q → Q.

Lemma dict_set_elem {V} (k : string) (v : V) (d : list (string * V)) p :
  p ∈ dict_set k v d → p = (k, v) ∨ p ∈ d.
Proof.
  induction d as [|[k' v'] d IH]; simpl.
  - intros ->%list_elem_of_singleton. by left.
  - destruct (String.eqb k' k).
    + intros [->|?]%elem_of_cons; [by left|]. right. by apply list_elem_of_further.
    + intros [->|Hp]%elem_of_cons; [right; apply list_elem_of_here|].
      destruct (IH Hp) as [?|?]; [by left|]. right. by apply list_elem_of_further.
Qed.

Lemma calc_ready (df : DataFrame) :
  has_inputs df →
  (Indicators.calculate_indicators_df sqrtQ df).2 = None ∧
  ready (Indicators.calculate_indicators_df sqrtQ df).1.
Proof.
  intros [[close Hc] [volume Hv]].
  destruct (indicator_columns sqrtQ df close Hc) as (_ & _ & _ & _ & _ & Hvol).
  rewrite Hv in Hvol. destruct Hvol as [Hnone _]. split; [done|].
  destruct (indicators_keep_inputs sqrtQ df) as (Hc' & Hv' & _).
  split.
  - split; [rewrite Hc', Hc|rewrite Hv', Hv]; by eexists.
  - intros _ c Hin. apply indicator_columns_present; [by eexists|by eexists|done].
Qed.

(** The loop over the stored tables: when every stored table has its
    closes and volumes the loop ends without an exception, and every
    stored table is ready. *)
Lemma heap_indicators (entries : list (string * nat)) : ∀ h : list DataFrame,
  (∀ symbol l, (symbol, l) ∈ entries → ∃ df, h !! l = Some df ∧ has_inputs df) →
  ∃ h', StockFetch.calculate_indicators sqrtQ entries h = (h', None) ∧
    (∀ l df, h !! l = Some df → has_inputs df →
       ∃ df', h' !! l = Some df' ∧ has_inputs df') ∧
    (∀ l df, h !! l = Some df → ready df → ∃ df', h' !! l = Some df' ∧ ready df') ∧
    (∀ symbol l, (symbol, l) ∈ entries → ∃ df', h' !! l = Some df' ∧ ready df').
Proof.
  induction entries as [|[symbol l] entries IH]; intros h Hok.
  { exists h. split; [done|]. split; [eauto|]. split; [eauto|].
    intros s l Hin. by apply not_elem_of_nil in Hin. }
  cbn [StockFetch.calculate_indicators].
  destruct (Hok symbol l (list_elem_of_here _ _)) as (df & Hl & Hin).
  rewrite Hl.
  destruct (empty df) eqn:He.
  - destruct (IH h) as (h' & Hrun & Hkeep & Hready & Hent).
    { intros s l' Hs. apply (Hok s l'). by apply list_elem_of_further. }
    exists h'. split; [done|]. split; [done|]. split; [done|].
    intros s l' [[= -> ->]|Hs]%elem_of_cons; [|by eapply Hent].
    apply (Hready l df Hl). split; [done|]. congruence.
  - destruct (calc_ready df Hin) as [Hnone Hrdy].
    destruct (Indicators.calculate_indicators_df sqrtQ df) as [df' ex] eqn:Hcalc.
    simpl in Hnone, Hrdy. subst ex.
    assert (Hlt : (l < length h)%nat) by by eapply lookup_lt_Some.
    destruct (IH (<[l := df']> h)) as (h' & Hrun & Hkeep & Hready & Hent).
    { intros s l' Hs. destruct (decide (l' = l)) as [->|Hne].
      - exists df'. rewrite list_lookup_insert_eq by done. split; [done|apply Hrdy].
      - rewrite list_lookup_insert_ne by done. apply (Hok s l').
        by apply list_elem_of_further. }
    exists h'. split; [done|]. split; [|split].
    + intros l0 df0 Hl0 Hin0. destruct (decide (l0 = l)) as [->|Hne].
      * apply (Hkeep l df'); [by rewrite list_lookup_insert_eq|apply Hrdy].
      * apply (Hkeep l0 df0); [by rewrite list_lookup_insert_ne|done].
    + intros l0 df0 Hl0 Hr0. destruct (decide (l0 = l)) as [->|Hne].
      * apply (Hready l df'); [by rewrite list_lookup_insert_eq|done].
      * apply (Hready l0 df0); [by rewrite list_lookup_insert_ne|done].
    + intros s l' [[= -> ->]|Hs]%elem_of_cons; [|by eapply Hent].
      apply (Hready l df'); [by rewrite list_lookup_insert_eq|done].
Qed.

(** Fetching one symbol keeps every stored table in place and stores, if
    anything, a table that has its closes and volumes. *)
Lemma fetch_symbol_ok (e : env) (m : market) (period : string) (a : analyzer)
    (symbol : string) :
  stored_ok a →
  stored_ok (fetch_symbol e m period a symbol) ∧
  symbols (fetch_symbol e m period a symbol) = symbols a.
Proof.
  intros Hok. unfold fetch_symbol.
  destruct (get_stock_data e m symbol period) as [df|] eqn:Hg; [|done].
  destruct (get_stock_data_cases e m symbol period df Hg)
    as (raw & _ & _ & _ & Hreq & _).
  assert (Hc : is_Some (columns df !! "Close")) by (apply Hreq; compute_done).
  assert (Hv : is_Some (columns df !! "Volume")) by (apply Hreq; compute_done).
  rewrite (bind_ok (df_alloc df) _ (core a) _ _ eq_refl).
  set (st0 := set_heap (heap (core a) ++ [df]) (core a)).
  assert (Hl0 : heap st0 !! length (heap (core a)) = Some df).
  { simpl. by rewrite list_lookup_middle. }
  destruct (convert_spec e st0 _ symbol df Hl0) as (st1 & _ & Hheap & _ & _ & ->).
  assert (Hold : ∀ h', stored_ok (mkAnalyzer (symbols a) (data a)
                                   (set_heap (heap st0 ++ h') st1))).
  { intros h' s l Hin. destruct (Hok s l Hin) as (t & Ht & ?). exists t.
    split; [|done]. simpl. apply lookup_app_l_Some. by apply lookup_app_l_Some. }
  assert (Hold1 : stored_ok (mkAnalyzer (symbols a) (data a) st1)).
  { intros s l Hin. destruct (Hok s l Hin) as (t & Ht & ?). exists t.
    split; [|done]. simpl. rewrite Hheap. simpl. by apply lookup_app_l_Some. }
  assert (Hnew : ∀ t', is_Some (columns t' !! "Close") →
                       is_Some (columns t' !! "Volume") →
            stored_ok (mkAnalyzer (symbols a)
                         (dict_set symbol (length (heap st0)) (data a))
                         (set_heap (heap st0 ++ [t']) st1))).
  { intros t' Hc' Hv' s l Hin. apply dict_set_elem in Hin as [[= -> ->]|Hin].
    - exists t'. split; [|done]. simpl. by rewrite list_lookup_middle.
    - exact (Hold [t'] s l Hin). }
  destruct (if endswith symbol ".L" then rate_of st1 "GBP" else rate_of st1 "USD")
    as [rate|ex]; [|done].
  cbn zeta.
  assert (Hsc : columns (scaled rate df) !! "Close" =
                map (λ x, xmul x rate) <$> columns df !! "Close").
  { unfold scaled. rewrite (scale_fold_lookup _ _ price_columns_NoDup).
    rewrite decide_True; [done|]. compute_done. }
  assert (Hsv : columns (scaled rate df) !! "Volume" = columns df !! "Volume").
  { unfold scaled. rewrite (scale_fold_lookup _ _ price_columns_NoDup).
    rewrite decide_False; [done|]. compute_done. }
  rewrite Hsv. destruct Hc as [close Hc]. destruct Hv as [volume Hv]. rewrite Hv.
  destruct (astype_int volume) as [v'|ex].
  - split; [|done]. apply Hnew.
    + unfold setitem. cbn [columns]. rewrite lookup_insert_ne by done.
      rewrite Hsc, Hc. by eexists.
    + unfold setitem. cbn [columns]. rewrite lookup_insert_eq. by eexists.
  - split; [|done]. apply (Hold [scaled rate df]).
Qed.

Lemma fetch_symbols_ok (e : env) (m : market) (period : string) (syms : list string) :
  ∀ a, stored_ok a →
    stored_ok (fold_left (fetch_symbol e m period) syms a) ∧
    symbols (fold_left (fetch_symbol e m period) syms a) = symbols a.
Proof.
  induction syms as [|s syms IH]; intros a Hok; [done|]. simpl.
  destruct (fetch_symbol_ok e m period a s Hok) as [Hok' Hs].
  destruct (IH _ Hok') as [? ->]. done.
Qed.

(** [StockAnalyzer.fetch_data] does not raise: what [get_stock_data]
    lets through has all five price and volume columns, the conversion
    to euros keeps them, and so [calculate_indicators] finds its closes
    and volumes in every stored table.  When it returns, every stored
    table has its eight indicator columns.  (The crypto analyzer, which
    stores what the provider gave unchecked, can raise KeyError here.) *)
Theorem stock_fetch_data_returns (e : env) (m : market) (period : string)
    (a : analyzer) :
  stored_ok a →
  (fetch_data sqrtQ e m period a).2 = None ∧
  stored_ready (fetch_data sqrtQ e m period a).1 ∧
  symbols (fetch_data sqrtQ e m period a).1 = symbols a.
Proof.
  intros Hok. unfold fetch_data.
  destruct (fetch_symbols_ok e m period (symbols a) a Hok) as [Hok' Hs].
  set (a' := fold_left (fetch_symbol e m period) (symbols a) a) in *.
  destruct (heap_indicators (data a') (heap (core a'))) as (h' & -> & _ & _ & Hent).
  { intros s l Hin. destruct (Hok' s l Hin) as (df & ? & ? & ?). by exists df. }
  simpl. split; [done|]. split; [|done].
  intros s l Hin. simpl in *. by apply (Hent s l).
Qed.

End StockFetchData.
